(** * sui-rgp-autopilot: the RGP decision engine

    A shallow embedding of the two computational modules of the repository,

    - [src/computeRgp.js]: [roundToStep], [clamp], [chooseJitter] and
      [computeNewRgpFromInputs];
    - [src/metrics.js]: [toBigIntOrNull], [divBigIntToDecimalString],
      [percentFromBigInt], [extractEpoch], [summarize] and the part of
      [collectMetrics] that runs once the two network requests have returned,

    together with the properties of the specification that concern them.

    JavaScript has two numeric types and the program uses both.  A [BigInt]
    is an integer of arbitrary size and is modelled by [Z]; its division and
    remainder truncate toward zero ([Z.quot], [Z.rem]) and throw on a zero
    divisor.  A [Number] is an IEEE 754 binary64 value.  The code over
    Numbers is written once, against the interface [JsNumber], and read in
    two ways:

    - [Binary64Number], the kernel's primitive floats: what the program
      computes, bit for bit.
    - [ExactNumber], the rationals extended with NaN and the two infinities,
      where an operation on finite values is not rounded and cannot overflow.

    A property is proved from the laws [JsNumberLaws] and
    [JsArithmeticLaws], which both readings satisfy, or in binary64
    directly: it holds of the program as it runs.  Where a statement is made
    in exact arithmetic it says so, and it holds of the program up to
    binary64 rounding and overflow only.  Every evaluation on a concrete
    input is done in binary64.

    A second part adds what these two modules leave to their callers and
    helpers: the configuration read from the environment and [computeRgp],
    the prices and the inputs that [collectMetrics] derives for the
    calculator, the price map of [src/suiPriceHistory.js] and the runner of
    [main.js]. *)

From Stdlib Require Import ZArith QArith Qround Lia Lqa Bool List String Ascii.
From Stdlib Require Import Floats.
Import ListNotations.

Local Open Scope Z_scope.

(* ================================================================== *)
(** * JavaScript Numbers *)

(** The operations of the language and of [Math] and [Number] that the two
    modules apply to Numbers.  [lit z] is the integer literal [z];
    [toBigInt x] is [BigInt(x)], which throws a RangeError (here [None])
    unless [x] is an integer. *)
Class JsNumber (num : Type) : Type := {
  lit : Z -> num;
  NaN : num;
  neg : num -> num;
  add : num -> num -> num;
  sub : num -> num -> num;
  mul : num -> num -> num;
  div : num -> num -> num;
  ltb : num -> num -> bool;
  leb : num -> num -> bool;
  eqb : num -> num -> bool;
  isFinite : num -> bool;
  Math_floor : num -> num;
  Math_ceil : num -> num;
  Math_round : num -> num;
  toBigInt : num -> option Z
}.

(** [x] is NaN: the one Number that differs from itself. *)
Definition isNaN {num : Type} `{JsNumber num} (x : num) : bool := negb (eqb x x).

(** What the statements below use of the order and the arithmetic of
    Numbers.  Both readings of [JsNumber] satisfy it. *)
Class JsNumberLaws (num : Type) `{JsNumber num} : Prop := {
  ltb_leb_false : forall x y, ltb x y = true -> leb y x = false;
  leb_ltb_false : forall x y, leb x y = true -> ltb y x = false;
  ltb_leb : forall x y, ltb x y = true -> leb x y = true;
  leb_total : forall x y,
    isNaN x = false -> isNaN y = false -> ltb x y = false -> leb y x = true;
  leb_refl : forall x, isNaN x = false -> leb x x = true;
  leb_not_NaN : forall x y, leb x y = true -> isNaN x = false /\ isNaN y = false;
  isFinite_not_NaN : forall x, isFinite x = true -> isNaN x = false;
  NaN_isNaN : isNaN NaN = true;
  lit_0_leb : leb (lit 0) (lit 0) = true;
  lit_1_leb : leb (lit 1) (lit 1) = true;
  mul_nonneg : forall x y,
    isFinite x = true -> ltb (lit 0) x = true -> leb (lit 0) y = true ->
    leb (lit 0) (mul x y) = true;
  div_nonneg : forall x y,
    leb (lit 0) x = true -> isFinite y = true -> ltb (lit 0) y = true ->
    leb (lit 0) (div x y) = true;
  toBigInt_pos : forall x n,
    toBigInt x = Some n -> leb x (lit 0) = false -> 0 < n
}.

(** What the statements about the final rounding and the absolute bounds
    use besides: the order is transitive; the integers below 2^53 in
    magnitude are finite Numbers, in their order; a product or a quotient by
    a finite Number above zero is NaN only if the other operand is;
    [Math.round] returns NaN on NaN only and does not cross an integer;
    [Math.floor] and [Math.ceil] do not go above and below their argument;
    and the sum of two finite Numbers is not NaN.  Both readings of
    [JsNumber] satisfy it too. *)
Class JsArithmeticLaws (num : Type) `{JsNumber num} : Prop := {
  leb_trans : forall x y z, leb x y = true -> leb y z = true -> leb x z = true;
  lit_isFinite : forall z, - 2 ^ 53 < z < 2 ^ 53 -> isFinite (lit z) = true;
  lit_ltb : forall a b,
    - 2 ^ 53 < a -> a < b -> b < 2 ^ 53 -> ltb (lit a) (lit b) = true;
  mul_not_NaN : forall x y,
    isNaN x = false -> isFinite y = true -> ltb (lit 0) y = true ->
    isNaN (mul x y) = false;
  div_not_NaN : forall x y,
    isNaN x = false -> isFinite y = true -> ltb (lit 0) y = true ->
    isNaN (div x y) = false;
  Math_round_isNaN : forall x, isNaN (Math_round x) = isNaN x;
  Math_round_le : forall x z,
    - 2 ^ 53 < z < 2 ^ 53 -> leb x (lit z) = true -> leb (Math_round x) (lit z) = true;
  Math_round_ge : forall x z,
    - 2 ^ 53 < z < 2 ^ 53 -> leb (lit z) x = true -> leb (lit z) (Math_round x) = true;
  Math_floor_le : forall x,
    isNaN (Math_floor x) = false -> leb (Math_floor x) x = true;
  Math_ceil_ge : forall x,
    isNaN (Math_ceil x) = false -> leb x (Math_ceil x) = true;
  add_not_NaN : forall x y,
    isFinite x = true -> isFinite y = true -> isNaN (add x y) = false
}.

(** ** Exact arithmetic *)

Inductive xnum : Type :=
| XNaN
| XInf (negative : bool)
| XFin (q : Q).

Definition Qlt_bool (x y : Q) : bool := negb (Qle_bool y x).

Definition Qneg_bool (q : Q) : bool := Qlt_bool q 0.

Module Exact.

Definition neg (x : xnum) : xnum :=
  match x with
  | XNaN => XNaN
  | XInf s => XInf (negb s)
  | XFin q => XFin (- q)
  end.

Definition add (x y : xnum) : xnum :=
  match x, y with
  | XNaN, _ | _, XNaN => XNaN
  | XInf a, XInf b => if Bool.eqb a b then XInf a else XNaN
  | XInf a, XFin _ => XInf a
  | XFin _, XInf b => XInf b
  | XFin p, XFin q => XFin (p + q)
  end.

Definition sub (x y : xnum) : xnum := add x (neg y).

Definition mul (x y : xnum) : xnum :=
  match x, y with
  | XNaN, _ | _, XNaN => XNaN
  | XInf a, XInf b => XInf (xorb a b)
  | XInf a, XFin q | XFin q, XInf a =>
      if Qeq_bool q 0 then XNaN else XInf (xorb a (Qneg_bool q))
  | XFin p, XFin q => XFin (p * q)
  end.

(** A zero divisor is taken to be [+0]: no zero of this program that
    becomes a divisor is negative. *)
Definition div (x y : xnum) : xnum :=
  match x, y with
  | XNaN, _ | _, XNaN => XNaN
  | XInf _, XInf _ => XNaN
  | XInf a, XFin q => XInf (xorb a (Qneg_bool q))
  | XFin _, XInf _ => XFin 0
  | XFin p, XFin q =>
      if Qeq_bool q 0
      then (if Qeq_bool p 0 then XNaN else XInf (Qneg_bool p))
      else XFin (p / q)
  end.

Definition ltb (x y : xnum) : bool :=
  match x, y with
  | XNaN, _ | _, XNaN => false
  | XInf a, XInf b => a && negb b
  | XInf a, XFin _ => a
  | XFin _, XInf b => negb b
  | XFin p, XFin q => Qlt_bool p q
  end.

Definition leb (x y : xnum) : bool :=
  match x, y with
  | XNaN, _ | _, XNaN => false
  | XInf a, XInf b => a || negb b
  | XInf a, XFin _ => a
  | XFin _, XInf b => negb b
  | XFin p, XFin q => Qle_bool p q
  end.

Definition eqb (x y : xnum) : bool :=
  match x, y with
  | XInf a, XInf b => Bool.eqb a b
  | XFin p, XFin q => Qeq_bool p q
  | _, _ => false
  end.

Definition isFinite (x : xnum) : bool :=
  match x with XFin _ => true | _ => false end.

Definition floor (x : xnum) : xnum :=
  match x with XFin q => XFin (inject_Z (Qfloor q)) | _ => x end.

Definition ceil (x : xnum) : xnum :=
  match x with XFin q => XFin (inject_Z (Qceiling q)) | _ => x end.

(** [Math.round]: the nearest integer, a tie going toward +Infinity. *)
Definition round (x : xnum) : xnum :=
  match x with XFin q => XFin (inject_Z (Qfloor (q + (1 # 2)))) | _ => x end.

Definition toBigInt (x : xnum) : option Z :=
  match x with
  | XFin q => if Qeq_bool (inject_Z (Qfloor q)) q then Some (Qfloor q) else None
  | _ => None
  end.

End Exact.

#[global] Instance ExactNumber : JsNumber xnum := {
  lit z := XFin (inject_Z z);
  NaN := XNaN;
  neg := Exact.neg;
  add := Exact.add;
  sub := Exact.sub;
  mul := Exact.mul;
  div := Exact.div;
  ltb := Exact.ltb;
  leb := Exact.leb;
  eqb := Exact.eqb;
  isFinite := Exact.isFinite;
  Math_floor := Exact.floor;
  Math_ceil := Exact.ceil;
  Math_round := Exact.round;
  toBigInt := Exact.toBigInt
}.

(** ** IEEE 754 binary64 *)

Module Binary64.

(** The double nearest to the integer [z] (ties to even); exact when
    [|z| <= 2^53]. *)
Definition of_Z (z : Z) : float :=
  SF2Prim (binary_normalize prec emax z 0 false).

(** A finite double is [n / d] for the integers [n] and [d > 0]
    returned here. *)
Definition fraction (x : float) : option (Z * Z) :=
  match Prim2SF x with
  | S754_zero _ => Some (0, 1)
  | S754_finite s m e =>
      let n := if s then Z.neg m else Z.pos m in
      if 0 <=? e then Some (n * 2 ^ e, 1) else Some (n, 2 ^ (- e))
  | _ => None
  end.

(** An integer result that is zero keeps the sign of the argument, as
    IEEE 754 rounding to an integer does. *)
Definition integral (x : float) (z : Z) : float :=
  if z =? 0 then (if PrimFloat.get_sign x then PrimFloat.neg_zero else PrimFloat.zero)
  else of_Z z.

Definition floor (x : float) : float :=
  match fraction x with
  | Some (n, d) => if d =? 1 then x else integral x (n / d)
  | None => x
  end.

Definition ceil (x : float) : float :=
  match fraction x with
  | Some (n, d) => if d =? 1 then x else integral x (- ((- n) / d))
  | None => x
  end.

Definition round (x : float) : float :=
  match fraction x with
  | Some (n, d) => if d =? 1 then x else integral x ((2 * n + d) / (2 * d))
  | None => x
  end.

Definition toBigInt (x : float) : option Z :=
  match fraction x with
  | Some (n, d) => if n mod d =? 0 then Some (n / d) else None
  | None => None
  end.

End Binary64.

#[global] Instance Binary64Number : JsNumber float := {
  lit := Binary64.of_Z;
  NaN := PrimFloat.nan;
  neg := PrimFloat.opp;
  add := PrimFloat.add;
  sub := PrimFloat.sub;
  mul := PrimFloat.mul;
  div := PrimFloat.div;
  ltb := PrimFloat.ltb;
  leb := PrimFloat.leb;
  eqb := PrimFloat.eqb;
  isFinite := PrimFloat.is_finite;
  Math_floor := Binary64.floor;
  Math_ceil := Binary64.ceil;
  Math_round := Binary64.round;
  toBigInt := Binary64.toBigInt
}.


(* ================================================================== *)
(** * JavaScript values and calls *)

(** The values the calculator meets: [undefined], [null] and Numbers. *)
Inductive jsval (num : Type) : Type :=
| VUndef
| VNull
| VNum (x : num).

Arguments VUndef {num}.
Arguments VNull {num}.
Arguments VNum {num} x.

(** A call throws an [Error] with a message, or returns. *)
Inductive outcome (A : Type) : Type :=
| Throw (message : string)
| Return (a : A).

Arguments Throw {A} message.
Arguments Return {A} a.

Definition bind {A B : Type} (c : outcome A) (k : A -> outcome B) : outcome B :=
  match c with
  | Throw m => Throw m
  | Return a => k a
  end.

Notation "x <- c ;; k" := (bind c (fun x => k))
  (at level 61, c at next level, right associativity).

(* ================================================================== *)
(** * src/computeRgp.js *)

(** The [options] argument of [computeNewRgpFromInputs].  [guardRailsPct]
    and [jitterRange] are two-element arrays when present. *)
Record Options (num : Type) : Type := mkOptions {
  guardRailsEnabled : bool;
  guardRailsPct : option (jsval num * jsval num);
  roundStep : jsval num;
  minRgpMist : jsval num;
  maxRgpMist : jsval num;
  jitterRange : option (num * num)
}.

Arguments mkOptions {num}.
Arguments guardRailsEnabled {num}.
Arguments guardRailsPct {num}.
Arguments roundStep {num}.
Arguments minRgpMist {num}.
Arguments maxRgpMist {num}.
Arguments jitterRange {num}.

(** The [inputs] echo of the result. *)
Record Inputs (num : Type) : Type := mkInputs {
  in_targetAvgTxUsd : jsval num;
  in_compShare : jsval num;
  in_compCostUsd : jsval num;
  in_currentRgp : jsval num;
  in_guardRailsEnabled : bool;
  in_guardRailsPct : jsval num * jsval num;
  in_roundStep : jsval num;
  in_minRgpMist : jsval num;
  in_maxRgpMist : jsval num;
  in_jitterRange : num * num
}.

(** The [calc] trace of the result. *)
Record Calc (num : Type) : Type := mkCalc {
  C_target : num;
  k : num;
  R_raw : num;
  clampMin : jsval num;
  clampMax : jsval num;
  R_clamped : jsval num;
  jitter : num;
  R_final : num
}.

Record RgpResult (num : Type) : Type := mkRgpResult {
  inputs : Inputs num;
  calc : Calc num;
  proposedRgpMist : num
}.

Arguments mkInputs {num}.
Arguments in_targetAvgTxUsd {num}.
Arguments in_compShare {num}.
Arguments in_compCostUsd {num}.
Arguments in_currentRgp {num}.
Arguments in_guardRailsEnabled {num}.
Arguments in_guardRailsPct {num}.
Arguments in_roundStep {num}.
Arguments in_minRgpMist {num}.
Arguments in_maxRgpMist {num}.
Arguments in_jitterRange {num}.
Arguments mkCalc {num}.
Arguments C_target {num}.
Arguments k {num}.
Arguments R_raw {num}.
Arguments clampMin {num}.
Arguments clampMax {num}.
Arguments R_clamped {num}.
Arguments jitter {num}.
Arguments R_final {num}.
Arguments mkRgpResult {num}.
Arguments inputs {num}.
Arguments calc {num}.
Arguments proposedRgpMist {num}.

Section ComputeRgp.

Context {num : Type} `{JsNumber num}.

(** ** Operators *)

(** [ToNumber]: the conversion the arithmetic and relational operators
    apply to an operand. *)
Definition ToNumber (v : jsval num) : num :=
  match v with
  | VUndef => NaN
  | VNull => lit 0
  | VNum x => x
  end.

(** [a < b], [a > b], [a <= b]. *)
Definition js_lt (a b : jsval num) : bool := ltb (ToNumber a) (ToNumber b).
Definition js_gt (a b : jsval num) : bool := ltb (ToNumber b) (ToNumber a).
Definition js_le (a b : jsval num) : bool := leb (ToNumber a) (ToNumber b).

(** [a === b]. *)
Definition strict_eq (a b : jsval num) : bool :=
  match a, b with
  | VUndef, VUndef => true
  | VNull, VNull => true
  | VNum x, VNum y => eqb x y
  | _, _ => false
  end.

(** [v !== undefined] and [v == null]. *)
Definition not_undefined (v : jsval num) : bool :=
  match v with VUndef => false | _ => true end.

Definition is_nullish (v : jsval num) : bool :=
  match v with VUndef | VNull => true | VNum _ => false end.

(** [v ?? d]. *)
Definition coalesce (v : jsval num) (d : num) : jsval num :=
  if is_nullish v then VNum d else v.

(** [Number.isFinite(v)]: false for what is not a Number. *)
Definition Number_isFinite (v : jsval num) : bool :=
  match v with VNum x => isFinite x | _ => false end.

(** [Math.max(a, b)] and [Math.min(a, b)]; NaN if an argument is.  Which
    zero is returned when both are zeros is not observable here. *)
Definition Math_max (a b : num) : num :=
  if isNaN a || isNaN b then NaN else if ltb a b then b else a.

Definition Math_min (a b : num) : num :=
  if isNaN a || isNaN b then NaN else if ltb b a then b else a.

(** ** Helpers *)

(** [roundToStep(x, step = 10)]. *)
Definition roundToStep (x : num) (step : jsval num) : num :=
  let step := if not_undefined step then step else VNum (lit 10) in
  if negb (isFinite x) || js_le step (VNum (lit 0)) then x
  else mul (Math_round (div x (ToNumber step))) (ToNumber step).

(** [clamp(x, lo, hi)]. *)
Definition clamp (x lo hi : jsval num) : jsval num :=
  if not_undefined lo && js_lt x lo then lo
  else if not_undefined hi && js_gt x hi then hi
  else x.

(** ** chooseJitter *)

(** [randInt(a, b)], for the value [u] that [Math.random()] returns:
    [Math.floor(u * (b - a + 1)) + a]. *)
Definition randInt (u a b : num) : num :=
  add (Math_floor (mul u (add (sub b a) (lit 1)))) a.

(** [chooseJitter(R_clamped, clampMin, clampMax, baseLow, baseHigh)].
    Every path calls [randInt] at most once, so one draw [u] of
    [Math.random()] determines the result. *)
Definition chooseJitter (u : num) (R_clamped clampMin clampMax : jsval num)
    (baseLow baseHigh : num) : num :=
  if is_nullish clampMin || is_nullish clampMax then
    randInt u (neg baseLow) baseHigh
  else if Number_isFinite clampMin && strict_eq R_clamped clampMin then
    randInt u (lit 0) baseHigh
  else if Number_isFinite clampMax && strict_eq R_clamped clampMax then
    randInt u (neg baseLow) (lit 0)
  else
    let lowRoom := Math_ceil (sub (ToNumber clampMin) (ToNumber R_clamped)) in
    let highRoom := Math_floor (sub (ToNumber clampMax) (ToNumber R_clamped)) in
    let lo := Math_max (neg baseLow) lowRoom in
    let hi := Math_min baseHigh highRoom in
    if ltb hi lo then lit 0 else randInt u lo hi.



(** ** computeNewRgpFromInputs *)

(** [guardRailsPct?.[0] ?? -20] and [guardRailsPct?.[1] ?? 40]. *)
Definition lowPct (options : Options num) : jsval num :=
  coalesce (match guardRailsPct options with
            | Some (a, _) => a
            | None => VUndef
            end) (lit (-20)).

Definition highPct (options : Options num) : jsval num :=
  coalesce (match guardRailsPct options with
            | Some (_, b) => b
            | None => VUndef
            end) (lit 40).

(** [currentRgp * (1 + pct / 100)]. *)
Definition band (currentRgp : num) (pct : jsval num) : num :=
  mul currentRgp (add (lit 1) (div (ToNumber pct) (lit 100))).

(** The guard-rail bounds [(clampMin, clampMax)] for the current RGP
    (lines 100-106 of [computeNewRgpFromInputs]). *)
Definition guardRails (currentRgp : num) (options : Options num)
    : jsval num * jsval num :=
  if guardRailsEnabled options then
    (VNum (band currentRgp (lowPct options)),
     VNum (band currentRgp (highPct options)))
  else (VNull, VNull).

(** Jitter, rounding and the absolute bounds, from the clamped proposal
    (lines 116-120 of [computeNewRgpFromInputs]). *)
Definition finalize (R_clamped : jsval num) (drawn : num) (options : Options num)
    : num :=
  let R_afterJitter := add (ToNumber R_clamped) drawn in
  let R_final := roundToStep R_afterJitter (roundStep options) in
  let R_final :=
    if Number_isFinite (minRgpMist options)
    then Math_max R_final (ToNumber (minRgpMist options)) else R_final in
  let R_final :=
    if Number_isFinite (maxRgpMist options)
    then Math_min R_final (ToNumber (maxRgpMist options)) else R_final in
  Math_max (lit 1) (Math_round R_final).

(** [computeNewRgpFromInputs(targetAvgTxUsd, compShare, compCostUsd,
    currentRgp, options)], with the draw [u] of [Math.random()]. *)
Definition computeNewRgpFromInputs
    (targetAvgTxUsd compShare compCostUsd currentRgp : jsval num)
    (options : Options num) (u : num) : outcome (RgpResult num) :=
  if negb (Number_isFinite targetAvgTxUsd) || js_le targetAvgTxUsd (VNum (lit 0)) then
    Throw "Invalid TARGET_AVG_TX_USD (must be a positive number)"
  else if negb (Number_isFinite compShare) || js_le compShare (VNum (lit 0))
          || js_gt compShare (VNum (lit 1)) then
    Throw "Invalid avgCompShare (must be in (0,1])"
  else if negb (Number_isFinite compCostUsd) || js_le compCostUsd (VNum (lit 0)) then
    Throw "Invalid avgComputationCostPerTx_USD (must be > 0)"
  else if negb (Number_isFinite currentRgp) || js_le currentRgp (VNum (lit 0)) then
    Throw "Invalid current RGP (must be > 0)"
  else
    let C_target := mul (ToNumber compShare) (ToNumber targetAvgTxUsd) in
    let k := div C_target (ToNumber compCostUsd) in
    let R_raw := mul (ToNumber currentRgp) k in
    let '(clampMin, clampMax) := guardRails (ToNumber currentRgp) options in
    let R_clamped := clamp (VNum R_raw) clampMin clampMax in
    let '(baseLow, baseHigh) :=
      match jitterRange options with
      | Some r => r
      | None => (lit 5, lit 5)
      end in
    let drawn := chooseJitter u R_clamped clampMin clampMax baseLow baseHigh in
    let R_final := finalize R_clamped drawn options in
    Return
      {| inputs :=
           {| in_targetAvgTxUsd := targetAvgTxUsd;
              in_compShare := compShare;
              in_compCostUsd := compCostUsd;
              in_currentRgp := currentRgp;
              in_guardRailsEnabled := guardRailsEnabled options;
              in_guardRailsPct :=
                match guardRailsPct options with
                | Some p => p
                | None => (VNum (lit (-20)), VNum (lit 40))
                end;
              in_roundStep :=
                if Number_isFinite (roundStep options)
                   && js_gt (roundStep options) (VNum (lit 0))
                then roundStep options else VNum (lit 10);
              in_minRgpMist :=
                if Number_isFinite (minRgpMist options)
                then minRgpMist options else VNull;
              in_maxRgpMist :=
                if Number_isFinite (maxRgpMist options)
                then maxRgpMist options else VNull;
              in_jitterRange := (baseLow, baseHigh) |};
         calc :=
           {| C_target := C_target;
              k := k;
              R_raw := R_raw;
              clampMin := clampMin;
              clampMax := clampMax;
              R_clamped := R_clamped;
              jitter := drawn;
              R_final := R_final |};
         proposedRgpMist := R_final |}.

(** ** The domain of the four numeric inputs *)

(** [v] is a finite Number above zero. *)
Definition is_positive (v : jsval num) : bool :=
  Number_isFinite v && js_gt v (VNum (lit 0)).

(** [v] is a finite Number of the interval (0, 1]. *)
Definition unit_share (v : jsval num) : bool :=
  is_positive v && js_le v (VNum (lit 1)).

(** The target, the computation share, the computation cost and the
    current RGP are in their domains. *)
Definition valid_inputs (targetAvgTxUsd compShare compCostUsd currentRgp : jsval num)
    : bool :=
  is_positive targetAvgTxUsd && unit_share compShare
  && is_positive compCostUsd && is_positive currentRgp.

(** One of the four is outside its domain, in the words of the
    specification: not finite or at most 0; for the share, also above 1. *)
Definition not_positive (v : jsval num) : bool :=
  negb (Number_isFinite v) || js_le v (VNum (lit 0)).

Definition invalid_inputs (targetAvgTxUsd compShare compCostUsd currentRgp : jsval num)
    : bool :=
  not_positive targetAvgTxUsd
  || (not_positive compShare || js_gt compShare (VNum (lit 1)))
  || not_positive compCostUsd || not_positive currentRgp.

(** The base magnitudes [(baseLow, baseHigh)] the jitter is drawn with. *)
Definition jitterBase (options : Options num) : num * num :=
  match jitterRange options with
  | Some r => r
  | None => (lit 5, lit 5)
  end.

(** The configuration holds no NaN and no infinity: the two percentages
    are finite Numbers where present, the rounding step is a finite Number
    or absent, and the jitter magnitudes are finite. *)
Definition finite_or_absent (v : jsval num) : bool :=
  is_nullish v || Number_isFinite v.

Definition finite_options (options : Options num) : bool :=
  match guardRailsPct options with
  | Some (a, b) => finite_or_absent a && finite_or_absent b
  | None => true
  end
  && finite_or_absent (roundStep options)
  && match jitterRange options with
     | Some (a, b) => isFinite a && isFinite b
     | None => true
     end.

(** The core formula, read off the trace of a result:
    [C_target = s * T], [k = C_target / C], [R_raw = R_now * k]. *)
Definition core_formula (T s C R_now : jsval num) (r : RgpResult num) : Prop :=
  C_target (calc r) = mul (ToNumber s) (ToNumber T)
  /\ k (calc r) = div (C_target (calc r)) (ToNumber C)
  /\ R_raw (calc r) = mul (ToNumber R_now) (k (calc r)).

End ComputeRgp.

(** ** The scenario of the specification

    [R_now = 500], [s = 0.6], [C = 0.002] USD, [T = 0.004] USD.  A decimal
    literal denotes the double nearest to it, in JavaScript as here. *)

Set Warnings "-inexact-float".

Module Scenario64.
Definition T : jsval float := VNum 0.004%float.
Definition s : jsval float := VNum 0.6%float.
Definition C : jsval float := VNum 0.002%float.
Definition R_now : jsval float := VNum 500%float.
Definition one_point_two : float := 1.2%float.
End Scenario64.

(** The default policy of [computeRgp()]: guard rails of -40% and +40%,
    with a rounding step of 10 and jitter magnitudes of 5. *)
Definition options64 : Options float :=
  {| guardRailsEnabled := true;
     guardRailsPct := Some (VNum (-40)%float, VNum 40%float);
     roundStep := VNum 10%float;
     minRgpMist := VUndef;
     maxRgpMist := VUndef;
     jitterRange := Some (5%float, 5%float) |}.


Definition optionsExact : Options xnum :=
  {| guardRailsEnabled := true;
     guardRailsPct := Some (VNum (XFin (-40)), VNum (XFin 40));
     roundStep := VNum (XFin 10);
     minRgpMist := VUndef;
     maxRgpMist := VUndef;
     jitterRange := Some (XFin 5, XFin 5) |}.

(** The same options with the guard rails switched off. *)
Definition without_guard_rails {num : Type} (options : Options num) : Options num :=
  {| guardRailsEnabled := false;
     guardRailsPct := guardRailsPct options;
     roundStep := roundStep options;
     minRgpMist := minRgpMist options;
     maxRgpMist := maxRgpMist options;
     jitterRange := jitterRange options |}.

(** The same options with another percentage band. *)
Definition with_guard_rails {num : Type} (low high : num) (options : Options num)
    : Options num :=
  {| guardRailsEnabled := true;
     guardRailsPct := Some (VNum low, VNum high);
     roundStep := roundStep options;
     minRgpMist := minRgpMist options;
     maxRgpMist := maxRgpMist options;
     jitterRange := jitterRange options |}.



(** The same options with absolute bounds. *)
Definition with_bounds {num : Type} (min max : jsval num) (options : Options num)
    : Options num :=
  {| guardRailsEnabled := guardRailsEnabled options;
     guardRailsPct := guardRailsPct options;
     roundStep := roundStep options;
     minRgpMist := min;
     maxRgpMist := max;
     jitterRange := jitterRange options |}.

(** The default policy with an absolute minimum of 100 and an absolute
    maximum of 550. *)
Definition bounded64 : Options float :=
  with_bounds (VNum (lit 100)) (VNum (lit 550)) options64.

Module ScenarioExact.
Definition T : jsval xnum := VNum (XFin 0.004).
Definition s : jsval xnum := VNum (XFin 0.6).
Definition C : jsval xnum := VNum (XFin 0.002).
Definition R_now : jsval xnum := VNum (XFin 500).
End ScenarioExact.

(* ================================================================== *)
(** * BigInt and strings *)

Local Open Scope string_scope.
Local Open Scope Z_scope.

(** [a / b], [a % b] and [a ** b] on BigInts. *)
Definition BigInt_div (a b : Z) : outcome Z :=
  if b =? 0 then Throw "RangeError: Division by zero" else Return (Z.quot a b).

Definition BigInt_rem (a b : Z) : outcome Z :=
  if b =? 0 then Throw "RangeError: Division by zero" else Return (Z.rem a b).

Definition BigInt_pow (a b : Z) : outcome Z :=
  if b <? 0 then Throw "RangeError: Exponent must be non-negative" else Return (a ^ b).

(** The decimal digits of [n >= 0], most significant first, in front of
    [acc]: one digit, and up to [fuel] more.  A number below [2 ^ (fuel + 1)]
    is written in full. *)
Fixpoint digits_onto (fuel : nat) (n : Z) (acc : string) : string :=
  let acc := String (ascii_of_nat (48 + Z.to_nat (n mod 10))) acc in
  match fuel with
  | O => acc
  | S fuel => if n <? 10 then acc else digits_onto fuel (n / 10) acc
  end.

Definition digits (n : Z) : string :=
  digits_onto (Z.to_nat (Z.log2 n)) n "".

(** [n.toString()] for a BigInt [n]. *)
Definition BigInt_toString (n : Z) : string :=
  if n <? 0 then "-" ++ digits (- n) else digits n.

Fixpoint zeros (n : nat) : string :=
  match n with
  | O => ""
  | S n => String "0" (zeros n)
  end.

(** [s.padStart(n, '0')]. *)
Definition padStart0 (s : string) (n : Z) : string :=
  zeros (Z.to_nat n - String.length s) ++ s.

(** The number a string of decimal digits denotes, and whether a string
    consists of decimal digits: the reading of [divBigIntToDecimalString]'s
    output in the statements below. *)
Definition digit_value (c : ascii) : Z := Z.of_nat (nat_of_ascii c) - 48.

Fixpoint digits_value_from (acc : Z) (s : string) : Z :=
  match s with
  | EmptyString => acc
  | String c s => digits_value_from (10 * acc + digit_value c) s
  end.

Definition digits_value (s : string) : Z := digits_value_from 0 s.

Fixpoint all_digits (s : string) : bool :=
  match s with
  | EmptyString => true
  | String c s => (0 <=? digit_value c) && (digit_value c <=? 9) && all_digits s
  end.

(* ================================================================== *)
(** * src/metrics.js *)

Definition MIST_PER_SUI : Z := 1000000000.

(** [divBigIntToDecimalString(numer, denom, decimals)]; [decimals] is an
    integer Number, which [BigInt(decimals)] converts. *)
Definition divBigIntToDecimalString (numer denom decimals : Z) : outcome string :=
  if denom =? 0 then Return "NaN"
  else
    let neg := xorb (numer <? 0) (denom <? 0) in
    let numer := if numer <? 0 then - numer else numer in
    let denom := if denom <? 0 then - denom else denom in
    scale <- BigInt_pow 10 decimals ;;
    q <- BigInt_div (numer * scale) denom ;;
    intPart <- BigInt_div q scale ;;
    fracPart <- BigInt_rem q scale ;;
    Return ((if neg then "-" else "") ++ BigInt_toString intPart ++ "."
            ++ padStart0 (BigInt_toString fracPart) decimals).

(** [mistToSuiString(mist, decimals)]. *)
Definition mistToSuiString (mist decimals : Z) : outcome string :=
  divBigIntToDecimalString mist MIST_PER_SUI decimals.

(** [percentFromBigInt(numer, denom, decimals)]; [None] is [null]. *)
Definition percentFromBigInt (numer denom : option Z) (decimals : Z) : outcome string :=
  match denom, numer with
  | None, _ | _, None => Return "N/A"
  | Some d, Some n =>
      if d =? 0 then Return "N/A"
      else s <- divBigIntToDecimalString (n * 100) d decimals ;; Return (s ++ "%")
  end.

(** A field of the GraphQL response that carries a BigInt: absent, or a
    string. *)
Inductive field : Type :=
| FUndef
| FNull
| FStr (s : string).

(** [rollingGasSummary] of a checkpoint. *)
Record GasSummary : Type := mkGasSummary {
  computationCost : field;
  storageCost : field;
  storageRebate : field
}.

(** An epoch node of the response: [checkpoints] is
    [node?.checkpoints?.nodes ?? []], each entry the [rollingGasSummary] of
    that checkpoint when it has one.  The two timestamps, which only label the
    metric and select its price, are left out. *)
Record EpochNode (num : Type) : Type := mkEpochNode {
  epochId : jsval num;
  totalTransactions : jsval num;
  totalStakeRewards : field;
  checkpoints : list (option GasSummary)
}.

Arguments mkEpochNode {num}.
Arguments epochId {num}.
Arguments totalTransactions {num}.
Arguments totalStakeRewards {num}.
Arguments checkpoints {num}.

(** The metric [extractEpoch] returns. *)
Record EpochMetric (num : Type) : Type := mkEpochMetric {
  m_epochId : jsval num;
  txCount : num;
  totalGasFee : Z;
  comp : Z;
  avgTotalPerTx : Z;
  avgCompPerTx : Z;
  compSharePct : string;
  gasOverRewardsPct : string
}.

Arguments mkEpochMetric {num}.
Arguments m_epochId {num}.
Arguments txCount {num}.
Arguments totalGasFee {num}.
Arguments comp {num}.
Arguments avgTotalPerTx {num}.
Arguments avgCompPerTx {num}.
Arguments compSharePct {num}.
Arguments gasOverRewardsPct {num}.

(** The [overall] object of [summarize]: the count, the mean transaction
    count and the four means taken in BigInt arithmetic.  The means that
    [averageNumbers] takes over USD prices and percentages are left out. *)
Record Overall (num : Type) : Type := mkOverall {
  epochsIncluded : Z;
  avgTotalTransactions : num;
  avgTotalGasPerEpoch_SUI : string;
  avgComputationPerEpoch_SUI : string;
  avgTotalCostPerTx_SUI : string;
  avgComputationCostPerTx_SUI : string
}.

Arguments mkOverall {num}.
Arguments epochsIncluded {num}.
Arguments avgTotalTransactions {num}.
Arguments avgTotalGasPerEpoch_SUI {num}.
Arguments avgComputationPerEpoch_SUI {num}.
Arguments avgTotalCostPerTx_SUI {num}.
Arguments avgComputationCostPerTx_SUI {num}.

Record Summary (num : Type) : Type := mkSummary {
  rows : list (EpochMetric num);
  overall : option (Overall num)
}.

Arguments mkSummary {num}.
Arguments rows {num}.
Arguments overall {num}.

(** What [collectMetrics] returns: the per-epoch rows and the summary. *)
Record Payload (num : Type) : Type := mkPayload {
  perEpoch : list (EpochMetric num);
  p_overall : Overall num
}.

Arguments mkPayload {num}.
Arguments perEpoch {num}.
Arguments p_overall {num}.

Section Metrics.

Context {num : Type} `{JsNumber num}.

(** [BigInt(s)] for a string [s]: the integer it spells, or a SyntaxError
    ([None]).  A builtin of the language, and a parameter here. *)
Variable BigInt_of_string : string -> option Z.

(** [toBigIntOrNull(v)]. *)
Definition toBigIntOrNull (v : field) : option Z :=
  match v with
  | FUndef | FNull => None
  | FStr s => BigInt_of_string s
  end.

(** [extractEpoch(node)]: [Return None] is the skipped epoch ([null]). *)
Definition extractEpoch (node : EpochNode num) : outcome (option (EpochMetric num)) :=
  match checkpoints node with
  | [] => Return None
  | None :: _ => Return None
  | Some r :: _ =>
      let comp := toBigIntOrNull (computationCost r) in
      let stor := toBigIntOrNull (storageCost r) in
      let rebate := toBigIntOrNull (storageRebate r) in
      let txCount := ToNumber (coalesce (totalTransactions node) (lit 0)) in
      let stakeRewards := toBigIntOrNull (totalStakeRewards node) in
      match comp, stor, rebate with
      | Some comp, Some stor, Some rebate =>
          if negb (isFinite txCount) || leb txCount (lit 0) then Return None
          else
            let BigInt_txCount :=
              match toBigInt txCount with
              | Some n => Return n
              | None => Throw "RangeError: not an integer"
              end in
            let totalGasFee := comp + stor - rebate in
            n <- BigInt_txCount ;;
            avgTotalPerTx <- BigInt_div totalGasFee n ;;
            n <- BigInt_txCount ;;
            avgCompPerTx <- BigInt_div comp n ;;
            compSharePct <-
              (if 0 <? totalGasFee
               then percentFromBigInt (Some comp) (Some totalGasFee) 2
               else Return "N/A") ;;
            gasOverRewardsPct <-
              (match stakeRewards with
               | Some s =>
                   if negb (s =? 0) && (0 <? s)
                   then percentFromBigInt (Some totalGasFee) (Some s) 2
                   else Return "N/A"
               | None => Return "N/A"
               end) ;;
            Return (Some {| m_epochId := epochId node;
                            txCount := txCount;
                            totalGasFee := totalGasFee;
                            comp := comp;
                            avgTotalPerTx := avgTotalPerTx;
                            avgCompPerTx := avgCompPerTx;
                            compSharePct := compSharePct;
                            gasOverRewardsPct := gasOverRewardsPct |})
      | _, _, _ => Return None
      end
  end.

(** [rows.filter(Boolean)]. *)
Fixpoint filter_Boolean {A : Type} (rows : list (option A)) : list A :=
  match rows with
  | [] => []
  | None :: rows => filter_Boolean rows
  | Some x :: rows => x :: filter_Boolean rows
  end.

Definition sum_Z {A : Type} (f : A -> Z) (r : list A) : Z :=
  fold_left (fun s x => s + f x) r 0.

Definition sum_num {A : Type} (f : A -> num) (r : list A) : num :=
  fold_left (fun s x => add s (f x)) r (lit 0).

(** [summarize(rows)]. *)
Definition summarize (rows : list (option (EpochMetric num))) : outcome (Summary num) :=
  let r := filter_Boolean rows in
  let length := Z.of_nat (List.length r) in
  if length =? 0 then Return {| rows := r; overall := None |}
  else
    let avgTx := Math_round (div (sum_num txCount r) (lit length)) in
    avgTotalGasPerEpoch <- BigInt_div (sum_Z totalGasFee r) length ;;
    avgCompPerEpoch <- BigInt_div (sum_Z comp r) length ;;
    avgTotalPerTxSimple <- BigInt_div (sum_Z avgTotalPerTx r) length ;;
    avgCompPerTxSimple <- BigInt_div (sum_Z avgCompPerTx r) length ;;
    s1 <- mistToSuiString avgTotalGasPerEpoch 6 ;;
    s2 <- mistToSuiString avgCompPerEpoch 6 ;;
    s3 <- mistToSuiString avgTotalPerTxSimple 9 ;;
    s4 <- mistToSuiString avgCompPerTxSimple 9 ;;
    Return {| rows := r;
              overall := Some {| epochsIncluded := length;
                                 avgTotalTransactions := avgTx;
                                 avgTotalGasPerEpoch_SUI := s1;
                                 avgComputationPerEpoch_SUI := s2;
                                 avgTotalCostPerTx_SUI := s3;
                                 avgComputationCostPerTx_SUI := s4 |} |}.

(** [nodes.map(extractEpoch)]: the first call that throws ends the map. *)
Fixpoint map_extractEpoch (nodes : list (EpochNode num))
    : outcome (list (option (EpochMetric num))) :=
  match nodes with
  | [] => Return []
  | n :: nodes =>
      e <- extractEpoch n ;;
      es <- map_extractEpoch nodes ;;
      Return (e :: es)
  end.

(** [collectMetrics()], from the point where the GraphQL request has
    returned: [response] is what [postGraphQL] did, and a returned [None]
    stands for data whose [epochs.nodes] is not an array.  The price map
    and the latest reference gas price, which do not decide whether a
    payload is produced, are left out, and so are the table of formatted
    rows and the dump of the payload to the file that METRICS_OUT_JSON
    names: [fs.writeFileSync] is outside any [try], so the code can still
    throw where this function returns. *)
Definition collectMetrics (response : outcome (option (list (EpochNode num))))
    : outcome (Payload num) :=
  nodes <- response ;;
  match nodes with
  | None => Throw "response missing epochs.nodes array"
  | Some nodes =>
      extracted <- map_extractEpoch nodes ;;
      let extracted := filter_Boolean extracted in
      if Z.of_nat (List.length extracted) =? 0
      then Throw "no usable epochs — nothing to compute"
      else
        s <- summarize (List.map Some extracted) ;;
        match overall s with
        | None => Throw "TypeError: Cannot read properties of null"
        | Some o => Return {| perEpoch := extracted; p_overall := o |}
        end
  end.

End Metrics.

(** [BigInt(s)] on the strings the GraphQL service sends: an optional sign
    and decimal digits. *)
Definition decimal_BigInt (s : string) : option Z :=
  match s with
  | EmptyString => Some 0
  | String "-" t =>
      if all_digits t && negb (String.length t =? 0)%nat
      then Some (- digits_value t) else None
  | String "+" t =>
      if all_digits t && negb (String.length t =? 0)%nat
      then Some (digits_value t) else None
  | _ => if all_digits s then Some (digits_value s) else None
  end.

(** ** Sample epoch records *)

(** An epoch of 4 transactions with costs of 1000000, 500000 and a rebate
    of 300000 MIST. *)
Definition epoch_typical : EpochNode float :=
  {| epochId := VNum 812%float;
     totalTransactions := VNum 4%float;
     totalStakeRewards := FStr "1000000000000";
     checkpoints :=
       [Some {| computationCost := FStr "1000000";
                storageCost := FStr "500000";
                storageRebate := FStr "300000" |}] |}.

(** An epoch of 2 transactions whose storage rebate, 4000000001 MIST, is
    above the sum of its computation cost, 1000000000, and its storage cost,
    2000000000. *)
Definition epoch_rebate : EpochNode float :=
  {| epochId := VNum 813%float;
     totalTransactions := VNum 2%float;
     totalStakeRewards := FStr "1000000000000";
     checkpoints :=
       [Some {| computationCost := FStr "1000000000";
                storageCost := FStr "2000000000";
                storageRebate := FStr "4000000001" |}] |}.

(** An epoch whose summary is missing, and one with no transaction. *)
Definition epoch_no_summary : EpochNode float :=
  {| epochId := VNum 814%float;
     totalTransactions := VNum 4%float;
     totalStakeRewards := FNull;
     checkpoints := [None] |}.

Definition epoch_no_transaction : EpochNode float :=
  {| epochId := VNum 815%float;
     totalTransactions := VNum 0%float;
     totalStakeRewards := FNull;
     checkpoints :=
       [Some {| computationCost := FStr "1000000";
                storageCost := FStr "500000";
                storageRebate := FStr "300000" |}] |}.

(** An epoch whose transaction count is not an integer. *)
Definition epoch_fractional : EpochNode float :=
  {| epochId := VNum 816%float;
     totalTransactions := VNum 1.5%float;
     totalStakeRewards := FNull;
     checkpoints :=
       [Some {| computationCost := FStr "1000000";
                storageCost := FStr "500000";
                storageRebate := FStr "300000" |}] |}.

(** ** Predicates of the proofs *)

(** The sign of a double that is not NaN. *)
Definition SFsigned (s : bool) (f : spec_float) : Prop :=
  match f with
  | S754_zero s' | S754_infinity s' | S754_finite s' _ _ => s' = s
  | S754_nan => False
  end.

(** The value of a double that is not NaN, in units of 2^-1074, the least
    positive double: an integer.  An infinity is given a value beyond that
    of every finite double, so that doubles compare as their values do. *)
Definition SFvalue (x : spec_float) : Z :=
  match x with
  | S754_zero _ => 0
  | S754_infinity s => if s then - 2 ^ 2100 else 2 ^ 2100
  | S754_nan => 0
  | S754_finite s m e => (if s then Z.neg m else Z.pos m) * 2 ^ (e + 1074)
  end.

(** A zero or a finite double. *)
Definition SFfinite (x : spec_float) : Prop :=
  match x with S754_finite _ _ _ | S754_zero _ => True | _ => False end.

(** The double [x] is the integer [z]. *)
Definition integer64 (x : float) (z : Z) : Prop :=
  SFfinite (Prim2SF x) /\ SFvalue (Prim2SF x) = z * 2 ^ 1074.

(** Where the quotient [N / D] of two integers is between its integer part
    and the next integer: the location that the rounding of [SpecFloat]
    reads. *)
Definition location_of (N D : Z) : location :=
  if N mod D =? 0 then loc_Exact else loc_Inexact (2 * (N mod D) ?= D).

(* ================================================================== *)
(** * The configuration, the top-level calls and the remaining helpers

    What the definitions above leave out of the repository: the readers of
    the environment and [computeRgp] of [src/computeRgp.js]; the helpers of
    [src/metrics.js] that deal with prices, averages and the latest epoch;
    [getSuiDailyPriceMap] of [src/suiPriceHistory.js]; and [runOnceMainnet]
    of [main.js] with its helpers.  The network requests, the clock and the
    transaction are not modelled: what they returned is an argument. *)

(** ** Values of the environment and of JSON *)

(** A value that [JSON.parse] returns. *)
#[warnings="-register-all"] Inductive json (num : Type) : Type :=
| JNull
| JBool (b : bool)
| JNum (x : num)
| JStr (s : string)
| JArr (items : list (json num))
| JObj (members : list (string * json num)).

Arguments JNull {num}.
Arguments JBool {num} b.
Arguments JNum {num} x.
Arguments JStr {num} s.
Arguments JArr {num} items.
Arguments JObj {num} members.

(** [try { return c } catch { return d }]. *)
Definition try_catch {A : Type} (c : outcome A) (d : A) : A :=
  match c with
  | Throw _ => d
  | Return a => a
  end.

(** [v || ''] for [v = process.env[name]]. *)
Definition or_empty (v : option string) : string :=
  match v with
  | None => ""
  | Some s => s
  end.

(** [words.includes(v)] for an array of strings. *)
Definition includes (words : list string) (v : string) : bool :=
  existsb (String.eqb v) words.

(** What [computeRgp] reads of the payload of [collectMetrics]:
    [payload.latestEpoch.epochId] and the three fields of
    [payload.overallForRgp].  A field is [undefined] when it, or an object on
    the way to it, is missing. *)
Record MetricsForRgp (num : Type) : Type := mkMetricsForRgp {
  latestEpoch_epochId : jsval num;
  lastEpochReferenceGasPrice : jsval num;
  avgCompShare : jsval num;
  avgComputationCostPerTx_USD : jsval num
}.

Arguments mkMetricsForRgp {num}.
Arguments latestEpoch_epochId {num}.
Arguments lastEpochReferenceGasPrice {num}.
Arguments avgCompShare {num}.
Arguments avgComputationCostPerTx_USD {num}.

(** What [computeRgp] returns: [epoch] and the result of
    [computeNewRgpFromInputs]. *)
Record RgpComputation (num : Type) : Type := mkRgpComputation {
  epoch : jsval num;
  result : RgpResult num
}.

Arguments mkRgpComputation {num}.
Arguments epoch {num}.
Arguments result {num}.

(** A node of the response as [getLatestEpochRGP] reads it: [epochId], a
    Number, and [referenceGasPrice], which the service sends as a string. *)
Record RawNode (num : Type) : Type := mkRawNode {
  raw_epochId : jsval num;
  referenceGasPrice : field
}.

Arguments mkRawNode {num}.
Arguments raw_epochId {num}.
Arguments referenceGasPrice {num}.

(** What [getLatestEpochRGP] returns. *)
Record LatestEpoch (num : Type) : Type := mkLatestEpoch {
  latest_epochId : jsval num;
  latest_referenceGasPrice : jsval num
}.

Arguments mkLatestEpoch {num}.
Arguments latest_epochId {num}.
Arguments latest_referenceGasPrice {num}.

(** A row of [getTokenPriceHistory]. *)
Record PriceRow (num : Type) : Type := mkPriceRow {
  date : string;
  priceUsd : num
}.

Arguments mkPriceRow {num}.
Arguments date {num}.
Arguments priceUsd {num}.

(** A call that [runOnceMainnet] makes to the outside: a gauge pushed to
    the Pushgateway, or the transaction that sets the gas price. *)
Inductive call (num : Type) : Type :=
| PushGauge (name : string) (value : jsval num)
| UpdateGasPrice (network rpc privateKey OpCapId gasBudget : string) (gasPrice : num).

Arguments PushGauge {num} name value.
Arguments UpdateGasPrice {num} network rpc privateKey OpCapId gasBudget gasPrice.

(** What [runOnceMainnet] returns; a field it does not set is [None]. *)
Record RunResult (num : Type) : Type := mkRunResult {
  run_proposedRgpMist : num;
  dryRun : option bool;
  updatedOnChain : option bool
}.

Arguments mkRunResult {num}.
Arguments run_proposedRgpMist {num}.
Arguments dryRun {num}.
Arguments updatedOnChain {num}.

Section TopLevel.

Context {num : Type} `{JsNumber num}.

(** Builtins of the language, parameters here: [Number(s)] for a string
    [s]; [s.toLowerCase()] and [s.trim()]; [JSON.parse(s)], which throws a
    SyntaxError; and [Number(v)] for an array or an object [v], which
    converts it to a primitive first and can throw a TypeError. *)
Variable Number_of_string : string -> num.
Variable String_toLowerCase : string -> string.
Variable String_trim : string -> string.
Variable JSON_parse : string -> outcome (json num).
Variable Number_of_object : json num -> outcome num.

(** [process.env]: the value of a variable, when it is set. *)
Variable env : string -> option string.

(** [Number(v)] for a value of JSON. *)
Definition Number_of_json (v : json num) : outcome num :=
  match v with
  | JNull => Return (lit 0)
  | JBool b => Return (lit (if b then 1 else 0))
  | JNum x => Return x
  | JStr s => Return (Number_of_string s)
  | JArr _ | JObj _ => Number_of_object v
  end.

(** ** src/computeRgp.js: reading the configuration *)

(** [parseNumberEnv(name, def)]. *)
Definition parseNumberEnv (name : string) (def : jsval num) : jsval num :=
  match env name with
  | None => def
  | Some v =>
      let n := Number_of_string v in
      if isFinite n then VNum n else def
  end.

(** [parseBoolEnv(name, def)]. *)
Definition parseBoolEnv (name : string) (def : bool) : bool :=
  let v := String_trim (String_toLowerCase (or_empty (env name))) in
  if includes ["1"; "true"; "yes"; "on"] v then true
  else if includes ["0"; "false"; "no"; "off"] v then false
  else def.

(** [parseGuardRailsEnv(name, def)]. *)
Definition parseGuardRailsEnv (name : string) (def : num * num) : num * num :=
  try_catch
    (match env name with
     | None => Return def
     | Some raw =>
         if String.eqb raw "" then Return def
         else
           arr <- JSON_parse raw ;;
           match arr with
           | JArr [arr0; arr1] =>
               low <- Number_of_json arr0 ;;
               high <- Number_of_json arr1 ;;
               if negb (isFinite low) || negb (isFinite high) then Return def
               else Return (low, high)
           | _ => Return def
           end
     end)
    def.

(** [parseJitterRangeEnv(name, def)]. *)
Definition parseJitterRangeEnv (name : string) (def : num * num) : num * num :=
  try_catch
    (match env name with
     | None => Return def
     | Some raw =>
         if String.eqb raw "" then Return def
         else
           arr <- JSON_parse raw ;;
           match arr with
           | JArr [arr0; arr1] =>
               n0 <- Number_of_json arr0 ;;
               let a := Math_max (lit 0) (Math_floor n0) in
               n1 <- Number_of_json arr1 ;;
               let b := Math_max (lit 0) (Math_floor n1) in
               if negb (isFinite a) || negb (isFinite b) then Return def
               else Return (a, b)
           | _ => Return def
           end
     end)
    def.

(** ** src/computeRgp.js: computeRgp *)

(** [v ?? null] and [v ?? undefined]. *)
Definition or_null (v : jsval num) : jsval num :=
  if is_nullish v then VNull else v.

Definition or_undefined (v : jsval num) : jsval num :=
  if is_nullish v then VUndef else v.

(** The options that [computeRgp] reads from the environment and hands to
    [computeNewRgpFromInputs] (steps 2 to 4). *)
Definition optionsFromEnv : Options num :=
  let guardRailsEnabled := parseBoolEnv "RGP_GUARD_RAILS_ENABLED" true in
  let guardRailsPct := parseGuardRailsEnv "RGP_GUARD_RAILS" (lit (-40), lit 40) in
  let roundStep := parseNumberEnv "RGP_ROUND_STEP" (VNum (lit 1)) in
  let minRgpMist := parseNumberEnv "RGP_MIN_MIST" VUndef in
  let maxRgpMist := parseNumberEnv "RGP_MAX_MIST" VUndef in
  let jitterRange := parseJitterRangeEnv "RGP_JITTER_RANGE" (lit (-10), lit 10) in
  let pre_minRgpMist := if Number_isFinite minRgpMist then minRgpMist else VNull in
  let pre_maxRgpMist := if Number_isFinite maxRgpMist then maxRgpMist else VNull in
  {| guardRailsEnabled := guardRailsEnabled;
     guardRailsPct := Some (VNum (fst guardRailsPct), VNum (snd guardRailsPct));
     roundStep := roundStep;
     minRgpMist := or_undefined pre_minRgpMist;
     maxRgpMist := or_undefined pre_maxRgpMist;
     jitterRange := Some jitterRange |}.

(** [computeRgp()], for the outcome [payload] of [collectMetrics()] and the
    draw [u] of [Math.random()]. *)
Definition computeRgp (payload : outcome (MetricsForRgp num)) (u : num)
    : outcome (RgpComputation num) :=
  payload <- payload ;;
  let currentRgp := lastEpochReferenceGasPrice payload in
  let compShare := avgCompShare payload in
  let compCostUsd := avgComputationCostPerTx_USD payload in
  let epoch := or_null (latestEpoch_epochId payload) in
  let targetAvgTxUsd := parseNumberEnv "TARGET_AVG_TX_USD" (VNum NaN) in
  result <- computeNewRgpFromInputs targetAvgTxUsd compShare compCostUsd currentRgp
              optionsFromEnv u ;;
  Return {| epoch := epoch; result := result |}.

(** ** src/metrics.js: the remaining helpers *)

(** [averageNumbers(nums)]. *)
Definition averageNumbers (nums : list num) : num :=
  let xs := filter isFinite nums in
  if (List.length xs =? 0)%nat then NaN
  else div (fold_left add xs (lit 0)) (lit (Z.of_nat (List.length xs))).

(** [Number(v)] for a field of the response. *)
Definition Number_of_field (v : field) : num :=
  match v with
  | FUndef => NaN
  | FNull => lit 0
  | FStr s => Number_of_string s
  end.

(** [v == null] for a field of the response. *)
Definition field_is_nullish (v : field) : bool :=
  match v with
  | FUndef | FNull => true
  | FStr _ => false
  end.

(** The node has an [epochId] and a [referenceGasPrice]: the loop of
    [getLatestEpochRGP] does not [continue] past it.  A node that is [null]
    is [None]. *)
Definition has_reference_price (n : option (RawNode num)) : bool :=
  match n with
  | None => false
  | Some n => negb (is_nullish (raw_epochId n) || field_is_nullish (referenceGasPrice n))
  end.

(** One turn of the loop of [getLatestEpochRGP]. *)
Definition later_epoch (latest : option (RawNode num)) (n : option (RawNode num))
    : option (RawNode num) :=
  if has_reference_price n then
    match latest, n with
    | Some l, Some n' =>
        if ltb (ToNumber (raw_epochId l)) (ToNumber (raw_epochId n')) then n
        else latest
    | _, _ => n
    end
  else latest.

(** [getLatestEpochRGP(rawNodes)]; [rawNodes || []] is the list. *)
Definition getLatestEpochRGP (rawNodes : list (option (RawNode num)))
    : LatestEpoch num :=
  match fold_left later_epoch rawNodes None with
  | None => {| latest_epochId := VNull; latest_referenceGasPrice := VNull |}
  | Some latest =>
      let rgpNum := Number_of_field (referenceGasPrice latest) in
      {| latest_epochId := VNum (ToNumber (raw_epochId latest));
         latest_referenceGasPrice := if isFinite rgpNum then VNum rgpNum else VNull |}
  end.

(** ** src/suiPriceHistory.js *)

(** [map[key] = value] and [map[key]] on the object that
    [getSuiDailyPriceMap] builds, whose keys are dates: the entries in the
    order of their first assignment. *)
Fixpoint price_set (map : list (string * num)) (key : string) (value : num)
    : list (string * num) :=
  match map with
  | [] => [(key, value)]
  | (k, v) :: map' =>
      if String.eqb k key then (k, value) :: map'
      else (k, v) :: price_set map' key value
  end.

Fixpoint price_get (map : list (string * num)) (key : string) : option num :=
  match map with
  | [] => None
  | (k, v) :: map' => if String.eqb k key then Some v else price_get map' key
  end.

(** [getSuiDailyPriceMap(days)], for the rows that [getTokenPriceHistory]
    resolved to. *)
Definition getSuiDailyPriceMap (rows : list (PriceRow num)) : list (string * num) :=
  fold_left (fun map r => price_set map (date r) (priceUsd r)) rows [].

(** ** main.js *)

(** [bool(name, def)]. *)
Definition main_bool (name : string) (def : bool) : bool :=
  let v := String_trim (String_toLowerCase (or_empty (env name))) in
  if includes ["1"; "true"; "yes"; "on"] v then true
  else if includes ["0"; "false"; "no"; "off"] v then false
  else def.

(** [req(name)]. *)
Definition req (name : string) : outcome string :=
  match env name with
  | None => Throw ("Missing required env: " ++ name)
  | Some v =>
      if String.eqb v "" || String.eqb (String_trim v) ""
      then Throw ("Missing required env: " ++ name)
      else Return v
  end.

(** [opt(name, def)]. *)
Definition opt (name : string) (def : option string) : option string :=
  match env name with
  | None => def
  | Some v => Some v
  end.

(** The two gauges that [runOnceMainnet] pushes, inside one [try]: the
    second is not pushed when the first push fails, and a failure is logged
    and dropped.  The result is the list of the calls made. *)
Definition pushGauges (pushGauge : call num -> outcome unit)
    (proposed : num) (currentRgp : jsval num) : list (call num) :=
  let first := PushGauge "sui_reference_gas_price_proposed_mist" (VNum proposed) in
  let second := PushGauge "sui_reference_gas_price_current_mist" currentRgp in
  match pushGauge first with
  | Throw _ => [first]
  | Return _ => [first; second]
  end.

(** [!!ok] for what [updateGasPrice] resolved to: [true], [false] or, when
    the transaction did not succeed, [undefined] ([None]). *)
Definition truthy (ok : option bool) : bool :=
  match ok with
  | Some b => b
  | None => false
  end.

(** [runOnceMainnet()], for the outcome [computed] of [computeRgp()] and
    the answers [pushGauge] and [updateGasPrice] of the outside: the calls
    made, in order, and the outcome. *)
Definition runOnceMainnet (computed : outcome (RgpComputation num))
    (pushGauge : call num -> outcome unit)
    (updateGasPrice : call num -> option bool)
    : list (call num) * outcome (RunResult num) :=
  match computed with
  | Throw message => ([], Throw message)
  | Return computed =>
      let proposed := proposedRgpMist (result computed) in
      if negb (isFinite proposed) || leb proposed (lit 0)
      then ([], Throw "Proposed RGP is invalid.")
      else
        let pushed :=
          pushGauges pushGauge proposed (in_currentRgp (inputs (result computed))) in
        let DRY_RUN := main_bool "DRY_RUN" false in
        let UPDATE_ONCHAIN := main_bool "UPDATE_ONCHAIN" false in
        if DRY_RUN
        then (pushed, Return {| run_proposedRgpMist := proposed;
                                dryRun := Some true;
                                updatedOnChain := None |})
        else if negb UPDATE_ONCHAIN
        then (pushed, Return {| run_proposedRgpMist := proposed;
                                dryRun := Some false;
                                updatedOnChain := None |})
        else
          match
            (rpc <- req "MAINNET_RPC_URL" ;;
             privateKey <- req "MAINNET_OPERATION_PRIVATE_KEY" ;;
             opCapId <- req "MAINNET_OPERATION_CAP_ID" ;;
             gasBudget <- req "MAINNET_GAS_BUDGET" ;;
             Return (UpdateGasPrice "mainnet" rpc privateKey opCapId gasBudget proposed))
          with
          | Throw message => (pushed, Throw message)
          | Return update =>
              let ok := updateGasPrice update in
              ((pushed ++ [update])%list,
               Return {| run_proposedRgpMist := proposed;
                         dryRun := None;
                         updatedOnChain := Some (truthy ok) |})
          end
  end.

End TopLevel.

(* ================================================================== *)
(** * src/metrics.js: prices and the inputs of the calculator *)

(** A node of the response, whole: what [extractEpoch] reads of it, its two
    timestamps and its reference gas price. *)
Record ResponseNode (num : Type) : Type := mkResponseNode {
  node : EpochNode num;
  startTimestamp : field;
  endTimestamp : field;
  node_referenceGasPrice : field
}.

Arguments mkResponseNode {num}.
Arguments node {num}.
Arguments startTimestamp {num}.
Arguments endTimestamp {num}.
Arguments node_referenceGasPrice {num}.

(** The metric of [extractEpoch] with its two dates; [None] is [null]. *)
Record DatedMetric (num : Type) : Type := mkDatedMetric {
  metric : EpochMetric num;
  startDate : option string;
  endDate : option string
}.

Arguments mkDatedMetric {num}.
Arguments metric {num}.
Arguments startDate {num}.
Arguments endDate {num}.

(** A row of [attachPrice]; [None] is 'N/A'. *)
Record PricedMetric (num : Type) : Type := mkPricedMetric {
  dated : DatedMetric num;
  price_usd : option num;
  avgTotalPerTx_USD : option num;
  avgCompPerTx_USD : option num
}.

Arguments mkPricedMetric {num}.
Arguments dated {num}.
Arguments price_usd {num}.
Arguments avgTotalPerTx_USD {num}.
Arguments avgCompPerTx_USD {num}.

(** What [fetchMarketChart] resolves to, as [getTokenPriceHistory] reads
    it: [success], which can be absent; [message]; and [data.prices], an array
    of pairs of a timestamp and a price when it is there. *)
Record MarketChart (num : Type) : Type := mkMarketChart {
  success : option bool;
  message : option string;
  data_prices : option (list (num * num))
}.

Arguments mkMarketChart {num}.
Arguments success {num}.
Arguments message {num}.
Arguments data_prices {num}.

(** [s.replace('%', '')]: the first percent sign is taken out. *)
Fixpoint replace_percent (s : string) : string :=
  match s with
  | EmptyString => EmptyString
  | String c s' => if Ascii.eqb c "%" then s' else String c (replace_percent s')
  end.

Section Prices.

Context {num : Type} `{JsNumber num}.

(** Builtins, parameters here: [BigInt(s)] and [Number(s)] for a string
    [s], and [new Date(s).toISOString()], which throws a RangeError on what
    is not a date. *)
Variable BigInt_of_string : string -> option Z.
Variable Number_of_string : string -> num.
Variable Date_toISOString : string -> outcome string.

(** [new Date(ts).toISOString()] for a Number [ts], a builtin too. *)
Variable Date_of_number_toISOString : num -> outcome string.

(** [isoDateOnly(s)]. *)
Definition isoDateOnly (s : field) : option string :=
  match s with
  | FUndef | FNull => None
  | FStr s =>
      if String.eqb s "" then None
      else try_catch (iso <- Date_toISOString s ;; Return (Some (substring 0 10 iso))) None
  end.

(** [mistToSuiNumber(mist)]. *)
Definition mistToSuiNumber (mist : Z) : outcome num :=
  s <- divBigIntToDecimalString mist MIST_PER_SUI 9 ;;
  Return (Number_of_string s).

(** [pctToNum(s)] of [summarize]. *)
Definition pctToNum (s : string) : num :=
  if String.eqb s "N/A" then NaN else Number_of_string (replace_percent s).

(** [extractEpoch(node)] with the two dates of the metric. *)
Definition extractEpoch_dated (n : ResponseNode num) : outcome (option (DatedMetric num)) :=
  m <- extractEpoch BigInt_of_string (node n) ;;
  Return (option_map
            (fun m => {| metric := m;
                         startDate := isoDateOnly (startTimestamp n);
                         endDate := isoDateOnly (endTimestamp n) |})
            m).

Fixpoint map_extractEpoch_dated (nodes : list (ResponseNode num))
    : outcome (list (option (DatedMetric num))) :=
  match nodes with
  | [] => Return []
  | n :: nodes =>
      e <- extractEpoch_dated n ;;
      es <- map_extractEpoch_dated nodes ;;
      Return (e :: es)
  end.

(** [(date && priceMap[date])]: [null] or [undefined] is [None]. *)
Definition price_on (priceMap : list (string * num)) (d : option string) : option num :=
  match d with
  | None => None
  | Some d => price_get priceMap d
  end.

(** One row of [attachPrice(rows, priceMap)]. *)
Definition attachPrice_row (priceMap : list (string * num)) (r : DatedMetric num)
    : outcome (PricedMetric num) :=
  let p :=
    match price_on priceMap (endDate r) with
    | Some p => Some p
    | None => price_on priceMap (startDate r)
    end in
  match p with
  | None =>
      Return {| dated := r; price_usd := None;
                avgTotalPerTx_USD := None; avgCompPerTx_USD := None |}
  | Some priceNum =>
      total <- mistToSuiNumber (avgTotalPerTx (metric r)) ;;
      comp <- mistToSuiNumber (avgCompPerTx (metric r)) ;;
      Return {| dated := r; price_usd := Some priceNum;
                avgTotalPerTx_USD := Some (mul total priceNum);
                avgCompPerTx_USD := Some (mul comp priceNum) |}
  end.

(** [attachPrice(rows, priceMap)]. *)
Fixpoint attachPrice (rows : list (DatedMetric num)) (priceMap : list (string * num))
    : outcome (list (PricedMetric num)) :=
  match rows with
  | [] => Return []
  | r :: rows =>
      x <- attachPrice_row priceMap r ;;
      xs <- attachPrice rows priceMap ;;
      Return (x :: xs)
  end.

(** The computation cost of a row in USD, as [summarize] takes it again:
    [typeof x.price_usd === 'number' ? mistToSuiNumber(x.avgCompPerTx) *
    x.price_usd : NaN]. *)
Definition compPerTx_USD (x : PricedMetric num) : outcome num :=
  match price_usd x with
  | Some price =>
      comp <- mistToSuiNumber (avgCompPerTx (metric (dated x))) ;;
      Return (mul comp price)
  | None => Return NaN
  end.

Fixpoint map_compPerTx_USD (r : list (PricedMetric num)) : outcome (list num) :=
  match r with
  | [] => Return []
  | x :: r =>
      v <- compPerTx_USD x ;;
      vs <- map_compPerTx_USD r ;;
      Return (v :: vs)
  end.

(** [overall._num.avgCompShare] and
    [overall._num.avgComputationCostPerTx_USD] of [summarize(rows)], for
    rows none of which is [null]. *)
Definition avgCompShare_of (r : list (PricedMetric num)) : num :=
  let avgCompSharePct :=
    averageNumbers (List.map (fun x => pctToNum (compSharePct (metric (dated x)))) r) in
  if isFinite avgCompSharePct then div avgCompSharePct (lit 100) else NaN.

Definition avgComputationCostPerTx_USD_of (r : list (PricedMetric num)) : outcome num :=
  usd <- map_compPerTx_USD r ;;
  let avgCompPerTxUSD := averageNumbers usd in
  Return (if isFinite avgCompPerTxUSD then avgCompPerTxUSD else NaN).

(** The node as [getLatestEpochRGP] reads it. *)
Definition raw_node (n : ResponseNode num) : option (RawNode num) :=
  Some {| raw_epochId := epochId (node n);
          referenceGasPrice := node_referenceGasPrice n |}.

(** [collectMetrics()], as far as [payload.latestEpoch] and
    [payload.overallForRgp] go, from the point where the two requests have
    returned: [prices] are the rows of [getTokenPriceHistory], [response] is
    what [postGraphQL] did.  The dump of the payload to the file that
    METRICS_OUT_JSON names is left out: it can only add a throw. *)
Definition collectMetrics_forRgp (prices : list (PriceRow num))
    (response : outcome (option (list (ResponseNode num))))
    : outcome (MetricsForRgp num) :=
  let priceMap := getSuiDailyPriceMap prices in
  nodes <- response ;;
  match nodes with
  | None => Throw "response missing epochs.nodes array"
  | Some nodes =>
      extracted <- map_extractEpoch_dated nodes ;;
      let extracted := filter_Boolean extracted in
      if Z.of_nat (List.length extracted) =? 0
      then Throw "no usable epochs — nothing to compute"
      else
        withPrice <- attachPrice extracted priceMap ;;
        s <- summarize (List.map (fun x => Some (metric (dated x))) withPrice) ;;
        costUsd <- avgComputationCostPerTx_USD_of withPrice ;;
        let latest := getLatestEpochRGP Number_of_string (List.map raw_node nodes) in
        match overall s with
        | None => Throw "TypeError: Cannot read properties of null"
        | Some _ =>
            Return {| latestEpoch_epochId := latest_epochId latest;
                      lastEpochReferenceGasPrice := latest_referenceGasPrice latest;
                      avgCompShare := VNum (avgCompShare_of withPrice);
                      avgComputationCostPerTx_USD := VNum costUsd |}
        end
  end.

(** ** src/suiPriceHistory.js: getTokenPriceHistory *)

(** [prices.map(([ts, price]) => ...)]: the first date that throws ends the
    map. *)
Fixpoint price_rows (prices : list (num * num)) : outcome (list (PriceRow num)) :=
  match prices with
  | [] => Return []
  | (ts, price) :: prices =>
      iso <- Date_of_number_toISOString ts ;;
      rows <- price_rows prices ;;
      Return ({| date := substring 0 10 iso; priceUsd := price |} :: rows)
  end.

(** [getTokenPriceHistory(tokenId, days, vsCurrency)], for what
    [fetchMarketChart] did: [None] is a response that is [null] or
    [undefined]. *)
Definition getTokenPriceHistory (resp : outcome (option (MarketChart num)))
    : list (PriceRow num) :=
  try_catch
    (resp <- resp ;;
     match resp with
     | None => Throw "Unknown error from CoinGecko"
     | Some resp =>
         match success resp with
         | Some false =>
             Throw (match message resp with
                    | Some msg =>
                        if String.eqb msg "" then "Unknown error from CoinGecko"
                        else msg
                    | None => "Unknown error from CoinGecko"
                    end)
         | _ =>
             match data_prices resp with
             | None | Some [] => Return []
             | Some prices => price_rows prices
             end
         end
     end)
    [].

End Prices.

(* ================================================================== *)
(** * Predicates of the statements *)

(** [s] is a decimal string with [decimals] digits after the point that
    reads as the integer [v] when the point is dropped: [v / 10^decimals] is
    the number it denotes. *)
Definition reads_as (s : string) (decimals v : Z) : Prop :=
  exists (negative : bool) (I F : string),
    s = (if negative then "-" else "") ++ I ++ "." ++ F
    /\ all_digits I = true /\ all_digits F = true
    /\ String.length F = Z.to_nat decimals
    /\ (if negative then -1 else 1) * (digits_value I * 10 ^ decimals + digits_value F) = v.

(** The call sets the gas price on chain. *)
Definition is_update {num : Type} (c : call num) : bool :=
  match c with
  | UpdateGasPrice _ _ _ _ _ _ => true
  | PushGauge _ _ => false
  end.

(** What the loop of [getLatestEpochRGP] keeps, for the nodes [seen] so
    far: nothing when no node has a reference price, and otherwise a node
    that has one, whose epoch is not below that of any other. *)
Definition latest_of (seen : list (option (RawNode xnum)))
    (latest : option (RawNode xnum)) : Prop :=
  match latest with
  | None => forall n, In n seen -> has_reference_price n = false
  | Some l =>
      In (Some l) seen /\ has_reference_price (Some l) = true
      /\ forall n, In (Some n) seen -> has_reference_price (Some n) = true ->
                   leb (ToNumber (raw_epochId n)) (ToNumber (raw_epochId l)) = true
  end.

(** The row of an epoch that has no price. *)
Definition unpriced {num : Type} (r : DatedMetric num) : PricedMetric num :=
  {| dated := r; price_usd := None; avgTotalPerTx_USD := None; avgCompPerTx_USD := None |}.

(** The epoch has no price: the map has none for its end date and none for
    its start date. *)
Definition no_price {num : Type} (priceMap : list (string * num)) (r : DatedMetric num)
    : Prop :=
  price_on priceMap (endDate r) = None /\ price_on priceMap (startDate r) = None.

(* ================================================================== *)
(** * Sample builtins, environments and responses *)

(** [s.toLowerCase()] and [s.trim()] on strings of ASCII characters. *)
Definition ascii_toLowerCase_char (c : ascii) : ascii :=
  let n := nat_of_ascii c in
  if ((65 <=? n) && (n <=? 90))%nat then ascii_of_nat (n + 32) else c.

Fixpoint ascii_toLowerCase (s : string) : string :=
  match s with
  | EmptyString => EmptyString
  | String c s => String (ascii_toLowerCase_char c) (ascii_toLowerCase s)
  end.

Definition ascii_is_space (c : ascii) : bool :=
  let n := nat_of_ascii c in
  ((9 <=? n) && (n <=? 13) || (n =? 32))%nat.

Fixpoint trim_start (s : string) : string :=
  match s with
  | EmptyString => EmptyString
  | String c s' => if ascii_is_space c then trim_start s' else s
  end.

Fixpoint trim_end (s : string) : string :=
  match s with
  | EmptyString => EmptyString
  | String c s' =>
      match trim_end s' with
      | EmptyString => if ascii_is_space c then EmptyString else String c EmptyString
      | t => String c t
      end
  end.

Definition ascii_trim (s : string) : string := trim_end (trim_start s).

(** [Number(s)] on strings of decimal digits. *)
Definition Number_of_digits (s : string) : xnum := XFin (inject_Z (digits_value s)).

(** Nodes of a response: epoch 811 with a reference gas price of 750, a
    [null] node, epoch 813 without a reference gas price, and epoch 812 with
    one of 740. *)
Definition latest_sample : list (option (RawNode xnum)) :=
  [Some {| raw_epochId := VNum (XFin 811); referenceGasPrice := FStr "750" |};
   None;
   Some {| raw_epochId := VNum (XFin 813); referenceGasPrice := FNull |};
   Some {| raw_epochId := VNum (XFin 812); referenceGasPrice := FStr "740" |}].

(** [Number(s)], [JSON.parse(s)] and [Number(v)] on the strings and the
    values of the samples. *)
Definition sample_Number (s : string) : float :=
  if String.eqb s "0.004" then 0.004%float
  else if String.eqb s "0.008" then 0.008%float
  else if String.eqb s "0" then 0%float
  else if String.eqb s "550" then 550%float
  else if String.eqb s "500" then 500%float
  else if String.eqb s "83.33" then 83.33%float
  else if String.eqb s "0.000300000" then 0.0003%float
  else if String.eqb s "0.000250000" then 0.00025%float
  else PrimFloat.nan.

Definition sample_JSON_parse (s : string) : outcome (json float) :=
  if String.eqb s "[3.7, 12]" then Return (JArr [JNum 3.7%float; JNum 12%float])
  else if String.eqb s "[-60, 25]" then Return (JArr [JNum (-60)%float; JNum 25%float])
  else Throw "SyntaxError".

Definition sample_Number_of_object (v : json float) : outcome float :=
  match v with
  | JArr [] => Return 0%float
  | JArr [JNum x] => Return x
  | _ => Return PrimFloat.nan
  end.

(** [new Date(s).toISOString()] on timestamps that are in the form it
    gives. *)
Definition sample_Date (s : string) : outcome string := Return s.

(** An environment that requests an on-chain update. *)
Definition env_update (name : string) : option string :=
  if String.eqb name "UPDATE_ONCHAIN" then Some " True "
  else if String.eqb name "MAINNET_RPC_URL" then Some "https://fullnode.mainnet.sui.io"
  else if String.eqb name "MAINNET_OPERATION_PRIVATE_KEY" then Some "AQID"
  else if String.eqb name "MAINNET_OPERATION_CAP_ID" then Some "0x7"
  else if String.eqb name "MAINNET_GAS_BUDGET" then Some "10000000"
  else if String.eqb name "TARGET_AVG_TX_USD" then Some "0.004"
  else if String.eqb name "RGP_JITTER_RANGE" then Some "[3.7, 12]"
  else None.

(** An environment that sets nothing. *)
Definition env_empty (name : string) : option string := None.

(** An environment that sets the target and nothing else. *)
Definition env_target (name : string) : option string :=
  if String.eqb name "TARGET_AVG_TX_USD" then Some "0.004" else None.

(** An environment that sets a target twice as high and nothing else. *)
Definition env_target_high (name : string) : option string :=
  if String.eqb name "TARGET_AVG_TX_USD" then Some "0.008" else None.

(** The same environment with an absolute maximum of 550 MIST. *)
Definition env_target_max (name : string) : option string :=
  if String.eqb name "RGP_MAX_MIST" then Some "550" else env_target name.

(** An environment that sets the target and switches the guard rails off. *)
Definition env_rails_off (name : string) : option string :=
  if String.eqb name "RGP_GUARD_RAILS_ENABLED" then Some "OFF" else env_target name.

(** Metrics of the latest epoch, 812: a reference gas price of 500 MIST, a
    computation share of 0.6 and a computation cost of 0.002 USD. *)
Definition metrics64 : MetricsForRgp float :=
  {| latestEpoch_epochId := VNum 812%float;
     lastEpochReferenceGasPrice := VNum 500%float;
     avgCompShare := VNum 0.6%float;
     avgComputationCostPerTx_USD := VNum 0.002%float |}.

(** What [computeRgp] returns on these metrics in the environment that
    requests an update, for a draw of 0.5. *)
Definition computed64 : outcome (RgpComputation float) :=
  computeRgp sample_Number ascii_toLowerCase ascii_trim sample_JSON_parse
    sample_Number_of_object env_update (Return metrics64) 0.5%float.

(** A Pushgateway that is down, and a transaction that succeeds. *)
Definition push_fails (c : call float) : outcome unit := Throw "push failed".

Definition update_succeeds (c : call float) : option bool := Some true.

(** Daily prices as the price service returns them: one point for each
    day, and a last point, for the current day again, at the time of the
    request. *)
Definition prices_sample : list (PriceRow float) :=
  [{| date := "2025-03-01"; priceUsd := 2.75%float |};
   {| date := "2025-03-02"; priceUsd := 2.5%float |};
   {| date := "2025-03-02"; priceUsd := 2.625%float |}].

(** The typical epoch as a node of the response. *)
Definition response_typical : ResponseNode float :=
  {| node := epoch_typical;
     startTimestamp := FStr "2025-03-01T08:00:00.000Z";
     endTimestamp := FStr "2025-03-02T08:00:00.000Z";
     node_referenceGasPrice := FStr "500" |}.

(** The metric of the typical epoch with its dates. *)
Definition dated_sample : DatedMetric float :=
  {| metric := {| m_epochId := VNum 812%float;
                  txCount := 4%float;
                  totalGasFee := 1200000;
                  comp := 1000000;
                  avgTotalPerTx := 300000;
                  avgCompPerTx := 250000;
                  compSharePct := "83.33%";
                  gasOverRewardsPct := "0.00%" |};
     startDate := Some "2025-03-01";
     endDate := Some "2025-03-02" |}.



(* ================================================================== *)
(** * Properties *)


(* ------------------------------------------------------------------ *)
(** ** Boolean comparisons of rationals *)

Local Open Scope Q_scope.

Lemma Qlt_bool_iff (x y : Q) : Qlt_bool x y = true <-> x < y.
Proof.
  unfold Qlt_bool. rewrite negb_true_iff. split; intro Hxy.
  - apply Qnot_le_lt. intro Hle. apply Qle_bool_iff in Hle. congruence.
  - destruct (Qle_bool y x) eqn:E; trivial.
    apply Qle_bool_iff in E. exfalso. apply (Qlt_not_le x y); assumption.
Qed.

Lemma Qlt_bool_false (x y : Q) : Qlt_bool x y = false <-> y <= x.
Proof.
  unfold Qlt_bool. rewrite negb_false_iff. apply Qle_bool_iff.
Qed.

Lemma Qle_bool_false (x y : Q) : Qle_bool x y = false <-> y < x.
Proof.
  rewrite <- Qlt_bool_iff. unfold Qlt_bool. rewrite negb_true_iff. reflexivity.
Qed.

Lemma Qeq_bool_false (x y : Q) : Qeq_bool x y = false <-> ~ x == y.
Proof.
  rewrite <- Qeq_bool_iff. destruct (Qeq_bool x y); split; congruence.
Qed.

Local Close Scope Q_scope.

(** Boolean comparisons of rationals, in the goal and the hypotheses, as
    propositions; the literals 0 and 1; the cases of an extended rational. *)
Ltac qprop :=
  repeat match goal with
  | H : Qlt_bool _ _ = true |- _ => apply Qlt_bool_iff in H
  | H : Qlt_bool _ _ = false |- _ => apply Qlt_bool_false in H
  | H : Qle_bool _ _ = true |- _ => apply Qle_bool_iff in H
  | H : Qle_bool _ _ = false |- _ => apply Qle_bool_false in H
  | H : Qeq_bool _ _ = true |- _ => apply Qeq_bool_iff in H
  | H : Qeq_bool _ _ = false |- _ => apply Qeq_bool_false in H
  | |- Qlt_bool _ _ = true => apply Qlt_bool_iff
  | |- Qlt_bool _ _ = false => apply Qlt_bool_false
  | |- Qle_bool _ _ = true => apply Qle_bool_iff
  | |- Qle_bool _ _ = false => apply Qle_bool_false
  | |- Qeq_bool _ _ = true => apply Qeq_bool_iff
  | |- Qeq_bool _ _ = false => apply Qeq_bool_false
  end.

Ltac qnum :=
  change (inject_Z 0) with 0%Q in *; change (inject_Z 1) with 1%Q in *.

Ltac xcases :=
  repeat match goal with
  | x : xnum |- _ => destruct x
  | b : bool |- _ => destruct b
  end; cbn in *; try discriminate; try reflexivity.

Ltac qif :=
  repeat match goal with
  | |- context [Qeq_bool ?a ?b] => let E := fresh "E" in destruct (Qeq_bool a b) eqn:E; cbn
  | |- context [Qlt_bool ?a ?b] => let E := fresh "E" in destruct (Qlt_bool a b) eqn:E; cbn
  | |- context [Qle_bool ?a ?b] => let E := fresh "E" in destruct (Qle_bool a b) eqn:E; cbn
  end.

(* ------------------------------------------------------------------ *)
(** ** The laws in exact arithmetic *)

#[global] Instance ExactLaws : JsNumberLaws xnum.
Proof.
  constructor; unfold isNaN; cbn.
  - intros x y Hxy; xcases; qprop; lra.
  - intros x y Hxy; xcases; qprop; lra.
  - intros x y Hxy; xcases; qprop; lra.
  - intros x y Hx Hy Hxy; xcases; qprop; lra.
  - intros x Hx; xcases; qprop; lra.
  - assert (Hn : forall x : xnum, x <> XNaN -> negb (Exact.eqb x x) = false).
    { intros x Hx; xcases; try congruence. rewrite negb_false_iff. apply Qeq_bool_refl. }
    intros x y Hle; split; apply Hn; intros ->; [| destruct x]; discriminate Hle.
  - intros x Hx; xcases. rewrite negb_false_iff. apply Qeq_bool_refl.
  - reflexivity.
  - reflexivity.
  - reflexivity.
  - intros x y Hx Hp Hy; xcases; unfold Qneg_bool; qif; qprop; qnum;
      try reflexivity; try lra; try nra.
  - intros x y Hx Hy Hp; xcases.
    + unfold Qneg_bool; qif; qprop; qnum; try reflexivity; lra.
    + destruct (Qeq_bool q 0) eqn:E; cbn; qprop; qnum; try lra.
      apply Qle_shift_div_l; lra.
  - intros x n Hn Hp; xcases.
    destruct (Qeq_bool (inject_Z (Qfloor q)) q) eqn:E; try discriminate.
    injection Hn as <-. qprop; qnum.
    assert (Hlt : (inject_Z 0 < inject_Z (Qfloor q))%Q) by (qnum; lra).
    rewrite <- Zlt_Qlt in Hlt. exact Hlt.
Qed.

(** [Math.round] is monotone and fixes the integers. *)
Lemma round_le_integer (w : Q) (z : Z) :
  (w <= inject_Z z)%Q -> (Qfloor (w + (1 # 2)) <= z)%Z.
Proof.
  intros Hw.
  assert (Hlt : (inject_Z (Qfloor (w + (1 # 2))) < inject_Z (z + 1))%Q).
  { apply Qle_lt_trans with (w + (1 # 2))%Q; [apply Qfloor_le|].
    rewrite inject_Z_plus. qnum. lra. }
  rewrite <- Zlt_Qlt in Hlt. lia.
Qed.

Lemma round_ge_integer (w : Q) (z : Z) :
  (inject_Z z <= w)%Q -> (z <= Qfloor (w + (1 # 2)))%Z.
Proof.
  intros Hw. rewrite <- (Qfloor_Z z). apply Qfloor_resp_le. lra.
Qed.

#[global] Instance ExactArithmeticLaws : JsArithmeticLaws xnum.
Proof.
  constructor; unfold isNaN; cbn.
  - intros x y z Hxy Hyz; xcases; qprop; lra.
  - reflexivity.
  - intros a b _ Hab _. qprop. now rewrite <- Zlt_Qlt.
  - intros x y Hx Hy Hp; xcases; qprop; qnum.
    + destruct (Qeq_bool q 0) eqn:E; qprop; [lra|].
      cbn. now destruct (Qneg_bool q).
    + destruct (Qeq_bool q 0) eqn:E; qprop; [lra|].
      cbn. now destruct (Qneg_bool q).
    + rewrite negb_false_iff. apply Qeq_bool_refl.
  - intros x y Hx Hy Hp; xcases; qprop; qnum;
      try (now destruct (Qneg_bool q)).
    destruct (Qeq_bool q 0) eqn:E; qprop; [lra|].
    cbn. rewrite negb_false_iff. apply Qeq_bool_refl.
  - intros x; xcases. f_equal. rewrite !Qeq_bool_refl. reflexivity.
  - intros x z _ Hx; xcases; qprop.
    rewrite <- Zle_Qle. now apply round_le_integer.
  - intros x z _ Hx; xcases; qprop.
    rewrite <- Zle_Qle. now apply round_ge_integer.
  - intros x Hx; xcases; qprop. apply Qfloor_le.
  - intros x Hx; xcases; qprop. apply Qle_ceiling.
  - intros x y Hx Hy; xcases. rewrite negb_false_iff. apply Qeq_bool_refl.
Qed.

(* ------------------------------------------------------------------ *)
(** ** The laws in binary64 *)

Local Open Scope Z_scope.

Lemma SFcompare_antisym (a b : spec_float) :
  SFcompare b a = option_map CompOpp (SFcompare a b).
Proof.
  destruct a as [sa|sa| |sa ma ea], b as [sb|sb| |sb mb eb]; simpl; trivial;
    try (destruct sa; reflexivity); try (destruct sb; reflexivity);
    try (destruct sa, sb; reflexivity).
  change (Pos.compare_cont Eq mb ma) with (Pos.compare mb ma).
  change (Pos.compare_cont Eq ma mb) with (Pos.compare ma mb).
  rewrite (Z.compare_antisym ea eb), (Pos.compare_antisym ma mb).
  destruct sa, sb; simpl; trivial;
    destruct (ea ?= eb)%Z; simpl; trivial;
    destruct (ma ?= mb)%positive; reflexivity.
Qed.

Lemma SFcompare_refl (a : spec_float) :
  a <> S754_nan -> SFcompare a a = Some Eq.
Proof.
  destruct a as [s|s| |s m e]; simpl; try congruence; intros _.
  - destruct s; reflexivity.
  - destruct s; rewrite Z.compare_refl; fold (Pos.compare m m);
      rewrite Pos.compare_refl; reflexivity.
Qed.

Lemma SFcompare_some (a b : spec_float) :
  a <> S754_nan -> b <> S754_nan -> exists c, SFcompare a b = Some c.
Proof.
  destruct a, b; simpl; try congruence; intros _ _; eexists; reflexivity.
Qed.

Lemma SFcompare_not_nan (a b : spec_float) (c : comparison) :
  SFcompare a b = Some c -> a <> S754_nan /\ b <> S754_nan.
Proof.
  destruct a, b; simpl; try congruence; intros _; split; congruence.
Qed.

Lemma b64_isNaN_false (x : float) :
  isNaN x = false <-> Prim2SF x <> S754_nan.
Proof.
  unfold isNaN; cbn. rewrite negb_false_iff, eqb_spec. unfold SFeqb. split.
  - intros Hc Hn. rewrite Hn in Hc. discriminate.
  - intros Hn. rewrite (SFcompare_refl _ Hn). reflexivity.
Qed.

Lemma Prim2SF_zero : Prim2SF (Binary64.of_Z 0) = S754_zero false.
Proof. vm_compute. reflexivity. Qed.

Lemma Prim2SF_infinity : Prim2SF PrimFloat.infinity = S754_infinity false.
Proof. vm_compute. reflexivity. Qed.

(** A double above zero: positive and finite, or +Infinity. *)
Lemma b64_positive (x : float) :
  PrimFloat.ltb (Binary64.of_Z 0) x = true ->
  (exists m e, Prim2SF x = S754_finite false m e) \/ Prim2SF x = S754_infinity false.
Proof.
  rewrite ltb_spec, Prim2SF_zero. unfold SFltb.
  destruct (Prim2SF x) as [s|s| |s m e]; simpl; try discriminate.
  - destruct s; try discriminate. now right.
  - destruct s; try discriminate. left. now exists m, e.
Qed.

Lemma b64_finite_not_infinity (x : float) (s : bool) :
  PrimFloat.is_finite x = true -> Prim2SF x <> S754_infinity s.
Proof.
  unfold PrimFloat.is_finite, PrimFloat.is_infinity.
  rewrite negb_true_iff, orb_false_iff. intros [_ Hi] Hx.
  rewrite eqb_spec, abs_spec, Hx, Prim2SF_infinity in Hi. discriminate.
Qed.

Lemma b64_nonneg (x : float) :
  PrimFloat.leb (Binary64.of_Z 0) x = true <->
  (exists s, Prim2SF x = S754_zero s) \/ SFsigned false (Prim2SF x).
Proof.
  rewrite leb_spec, Prim2SF_zero. unfold SFleb.
  destruct (Prim2SF x) as [s|s| |s m e]; simpl.
  - split; trivial. intros _. left. now exists s.
  - destruct s; split; trivial; try discriminate; auto.
    intros [[s Hs]|Hs]; discriminate.
  - split; try discriminate. intros [[s Hs]|[]]. discriminate.
  - destruct s; split; trivial; try discriminate; auto.
    intros [[s Hs]|Hs]; discriminate.
Qed.

Lemma iter_pos_invariant {A : Type} (P : A -> Prop) (f : A -> A) :
  (forall a, P a -> P (f a)) -> forall n a, P a -> P (iter_pos f n a).
Proof.
  intros Hf. induction n as [n IH|n IH|]; simpl; intros a Ha; auto.
Qed.

Lemma shr_1_nonneg (mrs : shr_record) : 0 <= shr_m mrs -> 0 <= shr_m (shr_1 mrs).
Proof.
  destruct mrs as [m r s]. simpl. destruct m as [|[p|p|]|[p|p|]]; simpl; lia.
Qed.

Lemma shr_fexp_nonneg (m e : Z) (l : location) :
  0 <= m -> 0 <= shr_m (fst (shr_fexp prec emax m e l)).
Proof.
  intros Hm. unfold shr_fexp, shr.
  assert (H0 : 0 <= shr_m (shr_record_of_loc m l)) by (destruct l as [|[]]; exact Hm).
  destruct (fexp prec emax (Zdigits2 m + e) - e) as [|p|p]; simpl; trivial.
  apply iter_pos_invariant; trivial. exact shr_1_nonneg.
Qed.

Lemma round_nearest_even_nonneg (m : Z) (l : location) :
  0 <= m -> 0 <= round_nearest_even m l.
Proof.
  intros Hm. destruct l as [|[]]; simpl; trivial; try lia.
  destruct (Z.even m); lia.
Qed.

Lemma binary_round_aux_signed (s : bool) (m e : Z) (l : location) :
  0 <= m -> SFsigned s (binary_round_aux prec emax s m e l).
Proof.
  intros Hm. unfold binary_round_aux.
  pose proof (shr_fexp_nonneg m e l Hm) as H1.
  destruct (shr_fexp prec emax m e l) as [mrs' e']. simpl in H1.
  pose proof (shr_fexp_nonneg _ e' loc_Exact
                (round_nearest_even_nonneg _ (loc_of_shr_record mrs') H1)) as H2.
  destruct (shr_fexp prec emax _ e' loc_Exact) as [mrs'' e'']. simpl in H2.
  destruct (shr_m mrs'') as [|p|p]; simpl; trivial; try lia.
  destruct (e'' <=? _); simpl; reflexivity.
Qed.

Lemma SFmul_signed (m : positive) (e : Z) (y : spec_float) :
  SFsigned false y ->
  SFsigned false (SFmul prec emax (S754_finite false m e) y).
Proof.
  destruct y as [s|s| |s m' e']; simpl; try tauto; intros ->; trivial.
  apply binary_round_aux_signed. lia.
Qed.

Lemma SFdiv_signed (x : spec_float) (m : positive) (e : Z) :
  SFsigned false x ->
  SFsigned false (SFdiv prec emax x (S754_finite false m e)).
Proof.
  destruct x as [s|s| |s m' e']; simpl; try tauto; intros ->; trivial.
  unfold SFdiv_core_binary.
  set (m1 := match _ - _ - _ with Z0 => _ | Zpos _ => _ | Zneg _ => _ end).
  assert (H1 : 0 <= m1).
  { subst m1. destruct (_ - _ - _) as [|p|p]; try lia. apply Z.shiftl_nonneg. lia. }
  pose proof (Z.div_pos m1 (Z.pos m) H1 ltac:(lia)) as Hq.
  unfold Z.div in Hq. destruct (Z.div_eucl m1 (Z.pos m)) as [q r]. simpl in Hq.
  apply binary_round_aux_signed. exact Hq.
Qed.
Lemma b64_toBigInt_pos (x : float) (n : Z) :
  Binary64.toBigInt x = Some n ->
  PrimFloat.leb x (Binary64.of_Z 0) = false -> 0 < n.
Proof.
  unfold Binary64.toBigInt, Binary64.fraction.
  rewrite leb_spec, Prim2SF_zero. unfold SFleb.
  destruct (Prim2SF x) as [s|s| |s m e]; cbn [SFcompare]; try discriminate.
  destruct s; try discriminate. intros Hn _.
  destruct (0 <=? e) eqn:He.
  - apply Z.leb_le in He.
    destruct (_ mod 1 =? 0); try discriminate.
    assert (Hq : n = Z.pos m * 2 ^ e / 1) by congruence.
    rewrite Z.div_1_r in Hq.
    pose proof (Z.pow_pos_nonneg 2 e ltac:(lia) He). nia.
  - apply Z.leb_gt in He.
    destruct (Z.pos m mod 2 ^ (- e) =? 0) eqn:Hd; try discriminate.
    assert (Hq : n = Z.pos m / 2 ^ (- e)) by congruence.
    apply Z.eqb_eq in Hd.
    pose proof (Z.pow_pos_nonneg 2 (- e) ltac:(lia) ltac:(lia)) as Hp.
    pose proof (Z.div_mod (Z.pos m) (2 ^ (- e)) ltac:(lia)) as Hdm.
    rewrite Hd in Hdm. nia.
Qed.

#[global] Instance Binary64Laws : JsNumberLaws float.
Proof.
  constructor.
  - intros x y. cbn. rewrite ltb_spec, leb_spec. unfold SFltb, SFleb.
    rewrite (SFcompare_antisym (Prim2SF x) (Prim2SF y)).
    destruct (SFcompare (Prim2SF x) (Prim2SF y)) as [[]|]; simpl; congruence.
  - intros x y. cbn. rewrite ltb_spec, leb_spec. unfold SFltb, SFleb.
    rewrite (SFcompare_antisym (Prim2SF x) (Prim2SF y)).
    destruct (SFcompare (Prim2SF x) (Prim2SF y)) as [[]|]; simpl; congruence.
  - intros x y. cbn. rewrite ltb_spec, leb_spec. unfold SFltb, SFleb.
    destruct (SFcompare (Prim2SF x) (Prim2SF y)) as [[]|]; simpl; congruence.
  - intros x y Hx Hy. apply b64_isNaN_false in Hx, Hy.
    cbn. rewrite ltb_spec, leb_spec. unfold SFltb, SFleb.
    rewrite (SFcompare_antisym (Prim2SF x) (Prim2SF y)).
    destruct (SFcompare_some _ _ Hx Hy) as [c ->].
    destruct c; simpl; congruence.
  - intros x Hx. apply b64_isNaN_false in Hx.
    cbn. rewrite leb_spec. unfold SFleb. rewrite (SFcompare_refl _ Hx). reflexivity.
  - intros x y. cbn. rewrite leb_spec. unfold SFleb.
    destruct (SFcompare (Prim2SF x) (Prim2SF y)) as [c|] eqn:Hc; try discriminate.
    intros _. apply SFcompare_not_nan in Hc.
    split; apply b64_isNaN_false; tauto.
  - intros x. unfold isNaN. cbn. unfold PrimFloat.is_finite, PrimFloat.is_nan.
    rewrite negb_true_iff, orb_false_iff. tauto.
  - vm_compute. reflexivity.
  - vm_compute. reflexivity.
  - vm_compute. reflexivity.
  - intros x y Hx Hp Hy. cbn in *.
    destruct (b64_positive x Hp) as [(m & e & Hm)|Hi];
      [| now apply b64_finite_not_infinity with (s := false) in Hx].
    apply b64_nonneg. apply b64_nonneg in Hy.
    rewrite mul_spec, Hm. unfold SF64mul.
    destruct Hy as [[s Hs]|Hs].
    + left. rewrite Hs. simpl. eauto.
    + right. now apply SFmul_signed.
  - intros x y Hx Hy Hp. cbn in *.
    destruct (b64_positive y Hp) as [(m & e & Hm)|Hi];
      [| now apply b64_finite_not_infinity with (s := false) in Hy].
    apply b64_nonneg. apply b64_nonneg in Hx.
    rewrite div_spec, Hm. unfold SF64div.
    destruct Hx as [[s Hs]|Hs].
    + left. rewrite Hs. simpl. eauto.
    + right. now apply SFdiv_signed.
  - exact b64_toBigInt_pos.
Qed.

(* ------------------------------------------------------------------ *)
(** ** The order of binary64 by value *)

Lemma pow2_pos (k : Z) : 0 <= k -> 0 < 2 ^ k.
Proof. intros. apply Z.pow_pos_nonneg; lia. Qed.

Lemma pow2_1074_pos : 0 < 2 ^ 1074.
Proof. apply pow2_pos. lia. Qed.

Lemma digits2_pos_size (p : positive) : digits2_pos p = Pos.size p.
Proof. induction p; cbn; congruence. Qed.

(** A mantissa of [d] binary digits is in [2^(d-1), 2^d). *)
Lemma digits2_pos_bounds (p : positive) :
  2 ^ (Z.pos (digits2_pos p) - 1) <= Z.pos p < 2 ^ Z.pos (digits2_pos p).
Proof.
  rewrite digits2_pos_size. split.
  - pose proof (Pos.size_le p) as H.
    assert (E : Z.pos (2 ^ Pos.size p) = 2 ^ Z.pos (Pos.size p)) by apply Pos2Z.inj_pow.
    assert (2 ^ Z.pos (Pos.size p) = 2 * 2 ^ (Z.pos (Pos.size p) - 1)).
    { rewrite <- Z.pow_succ_r by lia. f_equal. lia. }
    lia.
  - pose proof (Pos.size_gt p) as H.
    assert (E : Z.pos (2 ^ Pos.size p) = 2 ^ Z.pos (Pos.size p)) by apply Pos2Z.inj_pow.
    lia.
Qed.

(** The mantissa and the exponent of a finite double: the exponent is in
    [-1074, 971], the mantissa is below 2^53, and at least 2^52 unless the
    exponent is the least. *)
Lemma bounded_spec (m : positive) (e : Z) :
  bounded prec emax m e = true ->
  - 1074 <= e <= 971
  /\ Z.pos m < 2 ^ 53
  /\ (- 1074 < e -> 2 ^ 52 <= Z.pos m).
Proof.
  unfold bounded, canonical_mantissa, fexp, emin, prec, emax.
  rewrite andb_true_iff, Z.eqb_eq, Z.leb_le. intros [Hc He].
  pose proof (digits2_pos_bounds m) as [Hlo Hhi].
  set (d := Z.pos (digits2_pos m)) in *.
  assert (Hd : d <= 53 /\ (-1074 < e -> d = 53) /\ -1074 <= e) by lia.
  destruct Hd as (Hd1 & Hd2 & Hd3).
  split; [lia|]. split.
  - assert (2 ^ d <= 2 ^ 53) by (apply Z.pow_le_mono_r; lia). lia.
  - intros H. rewrite (Hd2 H) in Hlo. exact Hlo.
Qed.

(** The magnitude of a finite double is below that of the infinities. *)
Lemma finite_magnitude (m : positive) (e : Z) :
  bounded prec emax m e = true ->
  0 < Z.pos m * 2 ^ (e + 1074) < 2 ^ 2100.
Proof.
  intros Hb. destruct (bounded_spec m e Hb) as (He & Hm & _).
  pose proof (pow2_pos (e + 1074) ltac:(lia)) as Hp.
  split; [nia|].
  assert (2 ^ (e + 1074) <= 2 ^ 2045) by (apply Z.pow_le_mono_r; lia).
  assert (E : 2 ^ 2100 = 2 ^ 53 * 2 ^ 2045 * 2 ^ 2).
  { rewrite <- !Z.pow_add_r by lia. reflexivity. }
  assert (0 < 2 ^ 2045) by (apply pow2_pos; lia).
  nia.
Qed.

(** Two finite doubles of the same sign compare as their magnitudes. *)
Lemma magnitude_compare (m1 m2 : positive) (e1 e2 : Z) :
  bounded prec emax m1 e1 = true -> bounded prec emax m2 e2 = true ->
  match e1 ?= e2 with
  | Lt => Lt
  | Gt => Gt
  | Eq => Pos.compare_cont Eq m1 m2
  end = (Z.pos m1 * 2 ^ (e1 + 1074) ?= Z.pos m2 * 2 ^ (e2 + 1074)).
Proof.
  intros H1 H2.
  destruct (bounded_spec m1 e1 H1) as (He1 & Hm1 & Hn1).
  destruct (bounded_spec m2 e2 H2) as (He2 & Hm2 & Hn2).
  destruct (Z.compare_spec e1 e2) as [E|E|E]; symmetry.
  - subst e2. change (Pos.compare_cont Eq m1 m2) with (Z.pos m1 ?= Z.pos m2).
    pose proof (pow2_pos (e1 + 1074) ltac:(lia)).
    destruct (Z.compare_spec (Z.pos m1) (Z.pos m2)) as [F|F|F].
    + rewrite F. apply Z.compare_refl.
    + apply Z.compare_lt_iff. nia.
    + apply Z.compare_gt_iff. nia.
  - apply Z.compare_lt_iff.
    pose proof (pow2_pos (e1 + 1074) ltac:(lia)).
    assert (2 * 2 ^ (e1 + 1074) <= 2 ^ (e2 + 1074)).
    { rewrite <- Z.pow_succ_r by lia. apply Z.pow_le_mono_r; lia. }
    specialize (Hn2 ltac:(lia)).
    change (2 ^ 53) with (2 * 2 ^ 52) in Hm1. nia.
  - apply Z.compare_gt_iff.
    pose proof (pow2_pos (e2 + 1074) ltac:(lia)).
    assert (2 * 2 ^ (e2 + 1074) <= 2 ^ (e1 + 1074)).
    { rewrite <- Z.pow_succ_r by lia. apply Z.pow_le_mono_r; lia. }
    specialize (Hn1 ltac:(lia)).
    change (2 ^ 53) with (2 * 2 ^ 52) in Hm2. nia.
Qed.

(** Doubles that are not NaN compare as their values. *)
Lemma SFcompare_value (x y : spec_float) :
  valid_binary x = true -> valid_binary y = true ->
  x <> S754_nan -> y <> S754_nan ->
  SFcompare x y = Some (SFvalue x ?= SFvalue y).
Proof.
  intros Hx Hy Nx Ny.
  destruct x as [sx|sx| |sx mx ex], y as [sy|sy| |sy my ey];
    try congruence; cbn in Hx, Hy.
  - reflexivity.
  - cbn. destruct sy; reflexivity.
  - cbn [SFcompare SFvalue]. pose proof (finite_magnitude my ey Hy).
    destruct sy; f_equal; symmetry.
    + apply Z.compare_gt_iff. change (Z.neg my) with (- Z.pos my). lia.
    + apply Z.compare_lt_iff. lia.
  - cbn. destruct sx; reflexivity.
  - cbn. destruct sx, sy; reflexivity.
  - cbn [SFcompare SFvalue]. pose proof (finite_magnitude my ey Hy).
    destruct sx; f_equal; symmetry.
    + apply Z.compare_lt_iff. destruct sy; change (Z.neg my) with (- Z.pos my); lia.
    + apply Z.compare_gt_iff. destruct sy; change (Z.neg my) with (- Z.pos my); lia.
  - cbn [SFcompare SFvalue]. pose proof (finite_magnitude mx ex Hx).
    destruct sx; f_equal; symmetry.
    + apply Z.compare_lt_iff. change (Z.neg mx) with (- Z.pos mx). lia.
    + apply Z.compare_gt_iff. lia.
  - cbn [SFcompare SFvalue]. pose proof (finite_magnitude mx ex Hx).
    destruct sy; f_equal; symmetry.
    + apply Z.compare_gt_iff. destruct sx; change (Z.neg mx) with (- Z.pos mx); lia.
    + apply Z.compare_lt_iff. destruct sx; change (Z.neg mx) with (- Z.pos mx); lia.
  - cbn [SFcompare SFvalue].
    pose proof (finite_magnitude mx ex Hx). pose proof (finite_magnitude my ey Hy).
    destruct sx, sy; f_equal.
    + change (Z.neg mx) with (- Z.pos mx). change (Z.neg my) with (- Z.pos my).
      rewrite !Z.mul_opp_l, Z.compare_opp.
      rewrite <- (magnitude_compare my mx ey ex Hy Hx).
      rewrite (Z.compare_antisym ex ey).
      destruct (ex ?= ey); cbn [CompOpp]; trivial.
      rewrite (Pos.compare_cont_antisym mx my Eq). reflexivity.
    + symmetry. apply Z.compare_lt_iff. change (Z.neg mx) with (- Z.pos mx). lia.
    + symmetry. apply Z.compare_gt_iff. change (Z.neg my) with (- Z.pos my). lia.
    + apply magnitude_compare; trivial.
Qed.

Lemma b64_leb_value (x y : float) :
  PrimFloat.leb x y = true <->
  Prim2SF x <> S754_nan /\ Prim2SF y <> S754_nan
  /\ SFvalue (Prim2SF x) <= SFvalue (Prim2SF y).
Proof.
  rewrite leb_spec. unfold SFleb. split.
  - destruct (SFcompare (Prim2SF x) (Prim2SF y)) as [c|] eqn:Hc; try discriminate.
    destruct (SFcompare_not_nan _ _ _ Hc) as [Hx Hy].
    rewrite (SFcompare_value _ _ (Prim2SF_valid x) (Prim2SF_valid y) Hx Hy) in Hc.
    injection Hc as Hc. intros H. split; trivial. split; trivial.
    unfold Z.le. rewrite Hc. destruct c; discriminate.
  - intros (Hx & Hy & Hle).
    rewrite (SFcompare_value _ _ (Prim2SF_valid x) (Prim2SF_valid y) Hx Hy).
    unfold Z.le in Hle.
    destruct (SFvalue (Prim2SF x) ?= SFvalue (Prim2SF y)); congruence.
Qed.

Lemma b64_ltb_value (x y : float) :
  PrimFloat.ltb x y = true <->
  Prim2SF x <> S754_nan /\ Prim2SF y <> S754_nan
  /\ SFvalue (Prim2SF x) < SFvalue (Prim2SF y).
Proof.
  rewrite ltb_spec. unfold SFltb. split.
  - destruct (SFcompare (Prim2SF x) (Prim2SF y)) as [c|] eqn:Hc; try discriminate.
    destruct (SFcompare_not_nan _ _ _ Hc) as [Hx Hy].
    rewrite (SFcompare_value _ _ (Prim2SF_valid x) (Prim2SF_valid y) Hx Hy) in Hc.
    injection Hc as Hc. intros H. split; trivial. split; trivial.
    unfold Z.lt. rewrite Hc. destruct c; congruence.
  - intros (Hx & Hy & Hlt).
    rewrite (SFcompare_value _ _ (Prim2SF_valid x) (Prim2SF_valid y) Hx Hy).
    unfold Z.lt in Hlt. now rewrite Hlt.
Qed.

Lemma SFfinite_not_nan (x : spec_float) : SFfinite x -> x <> S754_nan.
Proof. destruct x; cbn; congruence || tauto. Qed.

Lemma SFsigned_not_nan (s : bool) (x : spec_float) : SFsigned s x -> x <> S754_nan.
Proof. destruct x; cbn; congruence || tauto. Qed.

Lemma b64_is_finite (x : float) : SFfinite (Prim2SF x) -> PrimFloat.is_finite x = true.
Proof.
  unfold PrimFloat.is_finite, PrimFloat.is_nan, PrimFloat.is_infinity.
  rewrite !eqb_spec, abs_spec, Prim2SF_infinity. unfold SFeqb.
  destruct (Prim2SF x) as [s|s| |s m e]; cbn; try tauto; intros _.
  - rewrite Z.compare_refl. fold (Pos.compare m m). rewrite Pos.compare_refl.
    destruct s; reflexivity.
Qed.

Lemma b64_leb_refl (x : float) : isNaN x = false -> PrimFloat.leb x x = true.
Proof.
  intros Hx. apply b64_isNaN_false in Hx. apply b64_leb_value. repeat split; trivial. lia.
Qed.

(* ------------------------------------------------------------------ *)
(** ** Integers in binary64 *)

(** Rounding leaves a mantissa that is already in canonical form. *)
Lemma binary_round_aux_canonical (s : bool) (m : positive) (e : Z) :
  bounded prec emax m e = true ->
  binary_round_aux prec emax s (Z.pos m) e loc_Exact = S754_finite s m e.
Proof.
  intros Hb. pose proof Hb as Hb'. unfold bounded in Hb'.
  apply andb_true_iff in Hb'. destruct Hb' as [Hc He].
  unfold canonical_mantissa in Hc. apply Z.eqb_eq in Hc.
  unfold binary_round_aux, shr_fexp. cbn [Zdigits2 shr_record_of_loc].
  rewrite Hc, Z.sub_diag. cbn [shr shr_m loc_of_shr_record round_nearest_even Zdigits2
                                 shr_record_of_loc].
  rewrite Hc, Z.sub_diag. cbn [shr shr_m]. rewrite He. reflexivity.
Qed.

Lemma iter_xO_value (p k : positive) :
  Z.pos (Pos.iter xO p k) = Z.pos p * 2 ^ Z.pos k.
Proof.
  induction k as [|k IH] using Pos.peano_ind.
  - cbn. lia.
  - rewrite Pos.iter_succ, Pos2Z.inj_xO, IH, Pos2Z.inj_succ, Z.pow_succ_r by lia. lia.
Qed.

Lemma iter_xO_digits (p k : positive) :
  Z.pos (digits2_pos (Pos.iter xO p k)) = Z.pos (digits2_pos p) + Z.pos k.
Proof.
  induction k as [|k IH] using Pos.peano_ind.
  - cbn. lia.
  - rewrite Pos.iter_succ. cbn [digits2_pos]. rewrite Pos2Z.inj_succ, IH. lia.
Qed.

(** An integer below 2^53 in magnitude is a double. *)
Lemma binary_round_integer (s : bool) (p : positive) :
  Z.pos p < 2 ^ 53 ->
  exists m e,
    binary_round prec emax s p 0 = S754_finite s m e
    /\ bounded prec emax m e = true
    /\ Z.pos m * 2 ^ (e + 1074) = Z.pos p * 2 ^ 1074.
Proof.
  intros Hp. pose proof (digits2_pos_bounds p) as [Hlo Hhi].
  set (d := Z.pos (digits2_pos p)) in *.
  assert (Hd : 1 <= d <= 53).
  { split; [subst d; lia|].
    destruct (Z_lt_le_dec 53 d) as [H|H]; trivial.
    assert (2 ^ 53 <= 2 ^ (d - 1)) by (apply Z.pow_le_mono_r; lia). lia. }
  unfold binary_round.
  assert (Hf : fexp prec emax (Z.pos (digits2_pos p) + 0) = d - 53).
  { fold d. unfold fexp, emin, prec, emax. lia. }
  rewrite Hf. unfold shl_align. rewrite Z.sub_0_r.
  destruct (d - 53) as [|k|k] eqn:Hk; try lia.
  - exists p, 0. split; [|split; [|reflexivity]].
    + apply binary_round_aux_canonical.
      unfold bounded, canonical_mantissa. rewrite Hf. reflexivity.
    + unfold bounded, canonical_mantissa. rewrite Hf. reflexivity.
  - exists (Pos.iter xO p k), (Z.neg k).
    pose proof (Pos2Z.opp_pos k) as Hneg.
    assert (Hb : bounded prec emax (Pos.iter xO p k) (Z.neg k) = true).
    { unfold bounded, canonical_mantissa. rewrite iter_xO_digits. fold d.
      apply andb_true_iff. split.
      - apply Z.eqb_eq. unfold fexp, emin, prec, emax. lia.
      - apply Z.leb_le. unfold prec, emax. lia. }
    split; [|split]; trivial.
    + now apply binary_round_aux_canonical.
    + rewrite iter_xO_value.
      replace 1074 with (Z.pos k + (Z.neg k + 1074)) at 2 by lia.
      rewrite (Z.pow_add_r 2 (Z.pos k) (Z.neg k + 1074)) by lia. ring.
Qed.

(** The double of an integer below 2^53 in magnitude has that value. *)
Lemma of_Z_value (z : Z) :
  - 2 ^ 53 < z < 2 ^ 53 ->
  SFfinite (Prim2SF (Binary64.of_Z z))
  /\ SFvalue (Prim2SF (Binary64.of_Z z)) = z * 2 ^ 1074.
Proof.
  intros Hz.
  unfold Binary64.of_Z. destruct z as [|p|p]; cbn [binary_normalize].
  - rewrite Prim2SF_SF2Prim by reflexivity. cbn. auto.
  - destruct (binary_round_integer false p ltac:(lia)) as (m & e & -> & Hb & Hv).
    rewrite Prim2SF_SF2Prim by exact Hb. cbn [SFfinite SFvalue]. auto.
  - destruct (binary_round_integer true p ltac:(lia)) as (m & e & -> & Hb & Hv).
    rewrite Prim2SF_SF2Prim by exact Hb. cbn [SFfinite SFvalue].
    split; trivial. change (Z.neg m) with (- Z.pos m). change (Z.neg p) with (- Z.pos p).
    lia.
Qed.

Lemma Prim2SF_pos_zero : Prim2SF PrimFloat.zero = S754_zero false.
Proof. vm_compute. reflexivity. Qed.

Lemma Prim2SF_neg_zero : Prim2SF PrimFloat.neg_zero = S754_zero true.
Proof. vm_compute. reflexivity. Qed.

(** The value of the integer that [Binary64.integral] returns. *)
Lemma integral_value (x : float) (r : Z) :
  - 2 ^ 53 < r < 2 ^ 53 ->
  SFfinite (Prim2SF (Binary64.integral x r))
  /\ SFvalue (Prim2SF (Binary64.integral x r)) = r * 2 ^ 1074.
Proof.
  intros Hr. unfold Binary64.integral.
  destruct (Z.eqb_spec r 0) as [->|_].
  - destruct (PrimFloat.get_sign x);
      rewrite ?Prim2SF_pos_zero, ?Prim2SF_neg_zero; cbn; auto.
  - now apply of_Z_value.
Qed.

(** A double that is not an integer is [n / 2^k] with [k > 0], and is
    below 2^53 in magnitude. *)
Lemma fraction_spec (x : float) (n d : Z) :
  Binary64.fraction x = Some (n, d) -> d <> 1 ->
  2 <= d /\ - 2 ^ 53 < n < 2 ^ 53
  /\ SFvalue (Prim2SF x) * d = n * 2 ^ 1074
  /\ Prim2SF x <> S754_nan.
Proof.
  unfold Binary64.fraction. pose proof (Prim2SF_valid x) as Hv.
  destruct (Prim2SF x) as [s|s| |s m e]; try discriminate.
  - intros [= <- <-]. congruence.
  - cbn in Hv. destruct (bounded_spec m e Hv) as (He & Hm & _).
    destruct (Z.leb_spec 0 e) as [H0|H0]; intros [= <- <-]; try congruence. intros _.
    assert (Hd : 2 ^ 1 <= 2 ^ (- e)) by (apply Z.pow_le_mono_r; lia).
    change (2 ^ 1) with 2 in Hd.
    split; [exact Hd|]. split; [destruct s; lia|]. split; [|discriminate].
    cbn [SFvalue]. rewrite <- Z.mul_assoc, <- Z.pow_add_r by lia.
    f_equal. f_equal. lia.
Qed.

Lemma fraction_not_nan (x : float) (n d : Z) :
  Binary64.fraction x = Some (n, d) -> Prim2SF x <> S754_nan.
Proof.
  unfold Binary64.fraction. intros H Hn. rewrite Hn in H. discriminate.
Qed.

(** The floor, the ceiling and the nearest integer of a double that is not
    an integer are below 2^53 in magnitude. *)
Lemma fraction_quotient (x : float) (n d q : Z) :
  Binary64.fraction x = Some (n, d) -> d <> 1 ->
  q = n / d \/ q = - ((- n) / d) \/ q = (2 * n + d) / (2 * d) ->
  - 2 ^ 53 < q < 2 ^ 53.
Proof.
  intros Hf Hd Hq. destruct (fraction_spec x n d Hf Hd) as (Hd2 & Hn & _).
  assert (H53 : 0 < 2 ^ 53) by (apply Z.pow_pos_nonneg; lia).
  destruct Hq as [-> | [-> | ->]].
  - split.
    + apply Z.lt_le_trans with (- 2 ^ 53 + 1); [lia|]. apply Z.div_le_lower_bound; nia.
    + apply Z.div_lt_upper_bound; nia.
  - assert (- 2 ^ 53 < (- n) / d < 2 ^ 53); [|lia]. split.
    + apply Z.lt_le_trans with (- 2 ^ 53 + 1); [lia|]. apply Z.div_le_lower_bound; nia.
    + apply Z.div_lt_upper_bound; nia.
  - split.
    + apply Z.lt_le_trans with (- 2 ^ 53 + 1); [lia|]. apply Z.div_le_lower_bound; nia.
    + apply Z.div_lt_upper_bound; nia.
Qed.

(* ------------------------------------------------------------------ *)
(** ** Rounding to an integer in binary64 *)

Lemma b64_round_le (x : float) (z : Z) :
  - 2 ^ 53 < z < 2 ^ 53 ->
  PrimFloat.leb x (Binary64.of_Z z) = true ->
  PrimFloat.leb (Binary64.round x) (Binary64.of_Z z) = true.
Proof.
  intros Hz Hle. unfold Binary64.round.
  destruct (Binary64.fraction x) as [[n d]|] eqn:Hf; trivial.
  destruct (Z.eqb_spec d 1) as [_|Hd]; trivial.
  destruct (fraction_spec x n d Hf Hd) as (Hd2 & Hn & Hv & _).
  destruct (of_Z_value z Hz) as (Hzf & Hzv).
  apply b64_leb_value in Hle. destruct Hle as (_ & _ & Hle). rewrite Hzv in Hle.
  pose proof pow2_1074_pos as Hp.
  assert (Hnz : n <= z * d) by nia.
  set (r := (2 * n + d) / (2 * d)).
  assert (Hr : r < z + 1) by (apply Z.div_lt_upper_bound; nia).
  destruct (integral_value x r) as [Hrf Hrv].
  { apply (fraction_quotient x n d r Hf Hd). auto. }
  apply b64_leb_value. split; [now apply SFfinite_not_nan|].
  split; [now apply SFfinite_not_nan|]. rewrite Hrv, Hzv. nia.
Qed.

Lemma b64_round_ge (x : float) (z : Z) :
  - 2 ^ 53 < z < 2 ^ 53 ->
  PrimFloat.leb (Binary64.of_Z z) x = true ->
  PrimFloat.leb (Binary64.of_Z z) (Binary64.round x) = true.
Proof.
  intros Hz Hle. unfold Binary64.round.
  destruct (Binary64.fraction x) as [[n d]|] eqn:Hf; trivial.
  destruct (Z.eqb_spec d 1) as [_|Hd]; trivial.
  destruct (fraction_spec x n d Hf Hd) as (Hd2 & Hn & Hv & _).
  destruct (of_Z_value z Hz) as (Hzf & Hzv).
  apply b64_leb_value in Hle. destruct Hle as (_ & _ & Hle). rewrite Hzv in Hle.
  pose proof pow2_1074_pos as Hp.
  assert (Hnz : z * d <= n) by nia.
  set (r := (2 * n + d) / (2 * d)).
  assert (Hr : z <= r) by (apply Z.div_le_lower_bound; nia).
  destruct (integral_value x r) as [Hrf Hrv].
  { apply (fraction_quotient x n d r Hf Hd). auto. }
  apply b64_leb_value. split; [now apply SFfinite_not_nan|].
  split; [now apply SFfinite_not_nan|]. rewrite Hrv, Hzv. nia.
Qed.

Lemma b64_round_isNaN (x : float) : isNaN (Binary64.round x) = isNaN x.
Proof.
  unfold Binary64.round.
  destruct (Binary64.fraction x) as [[n d]|] eqn:Hf; trivial.
  destruct (Z.eqb_spec d 1) as [_|Hd]; trivial.
  pose proof (fraction_not_nan x n d Hf) as Hx. apply b64_isNaN_false in Hx.
  rewrite Hx. apply b64_isNaN_false. apply SFfinite_not_nan.
  apply integral_value. apply (fraction_quotient x n d _ Hf Hd). auto.
Qed.

Lemma b64_floor_le (x : float) :
  isNaN (Binary64.floor x) = false -> PrimFloat.leb (Binary64.floor x) x = true.
Proof.
  unfold Binary64.floor.
  destruct (Binary64.fraction x) as [[n d]|] eqn:Hf; [|apply b64_leb_refl].
  destruct (Z.eqb_spec d 1) as [_|Hd]; [apply b64_leb_refl|]. intros _.
  destruct (fraction_spec x n d Hf Hd) as (Hd2 & Hn & Hv & Hx).
  destruct (integral_value x (n / d)) as [Hrf Hrv].
  { apply (fraction_quotient x n d _ Hf Hd). auto. }
  apply b64_leb_value. split; [now apply SFfinite_not_nan|]. split; [exact Hx|].
  rewrite Hrv. pose proof pow2_1074_pos as Hp.
  pose proof (Z.mul_div_le n d ltac:(lia)) as Hq. nia.
Qed.

Lemma b64_ceil_ge (x : float) :
  isNaN (Binary64.ceil x) = false -> PrimFloat.leb x (Binary64.ceil x) = true.
Proof.
  unfold Binary64.ceil.
  destruct (Binary64.fraction x) as [[n d]|] eqn:Hf; [|apply b64_leb_refl].
  destruct (Z.eqb_spec d 1) as [_|Hd]; [apply b64_leb_refl|]. intros _.
  destruct (fraction_spec x n d Hf Hd) as (Hd2 & Hn & Hv & Hx).
  destruct (integral_value x (- ((- n) / d))) as [Hrf Hrv].
  { apply (fraction_quotient x n d _ Hf Hd). auto. }
  apply b64_leb_value. split; [exact Hx|]. split; [now apply SFfinite_not_nan|].
  rewrite Hrv. pose proof pow2_1074_pos as Hp.
  pose proof (Z.mul_div_le (- n) d ltac:(lia)) as Hq. nia.
Qed.

(* ------------------------------------------------------------------ *)
(** ** Products and quotients that are not NaN *)

Lemma b64_positive_finite (y : float) :
  PrimFloat.is_finite y = true -> PrimFloat.ltb (Binary64.of_Z 0) y = true ->
  exists m e, Prim2SF y = S754_finite false m e.
Proof.
  intros Hf Hp. destruct (b64_positive y Hp) as [H|H]; trivial.
  now apply b64_finite_not_infinity with (s := false) in Hf.
Qed.

Lemma b64_mul_not_NaN (x y : float) :
  isNaN x = false -> PrimFloat.is_finite y = true ->
  PrimFloat.ltb (Binary64.of_Z 0) y = true -> isNaN (PrimFloat.mul x y) = false.
Proof.
  intros Hx Hf Hp. destruct (b64_positive_finite y Hf Hp) as (m & e & Hy).
  apply b64_isNaN_false in Hx. apply b64_isNaN_false.
  rewrite mul_spec, Hy. unfold SF64mul.
  destruct (Prim2SF x) as [s|s| |s mx ex]; cbn [SFmul]; try discriminate; try congruence.
  apply (SFsigned_not_nan (xorb s false)). apply binary_round_aux_signed. lia.
Qed.

Lemma b64_div_not_NaN (x y : float) :
  isNaN x = false -> PrimFloat.is_finite y = true ->
  PrimFloat.ltb (Binary64.of_Z 0) y = true -> isNaN (PrimFloat.div x y) = false.
Proof.
  intros Hx Hf Hp. destruct (b64_positive_finite y Hf Hp) as (m & e & Hy).
  apply b64_isNaN_false in Hx. apply b64_isNaN_false.
  rewrite div_spec, Hy. unfold SF64div.
  destruct (Prim2SF x) as [s|s| |s mx ex]; cbn [SFdiv]; try discriminate; try congruence.
  unfold SFdiv_core_binary.
  set (m1 := match _ - _ - _ with Z0 => _ | Zpos _ => _ | Zneg _ => _ end).
  assert (H1 : 0 <= m1).
  { subst m1. destruct (_ - _ - _) as [|p|p]; try lia. apply Z.shiftl_nonneg. lia. }
  pose proof (Z.div_pos m1 (Z.pos m) H1 ltac:(lia)) as Hq.
  unfold Z.div in Hq. destruct (Z.div_eucl m1 (Z.pos m)) as [q r]. simpl in Hq.
  apply (SFsigned_not_nan (xorb s false)). apply binary_round_aux_signed. exact Hq.
Qed.

(** The sum of two finite doubles is not NaN. *)
Lemma b64_finite (x : float) : PrimFloat.is_finite x = true -> SFfinite (Prim2SF x).
Proof.
  intros Hx.
  pose proof (isFinite_not_NaN (num := float) x Hx) as Hn.
  apply b64_isNaN_false in Hn.
  pose proof (b64_finite_not_infinity x true Hx).
  pose proof (b64_finite_not_infinity x false Hx).
  destruct (Prim2SF x) as [s|s| |s m e]; cbn; trivial; try congruence.
  destruct s; congruence.
Qed.

Lemma SFadd_not_nan (x y : spec_float) :
  SFfinite x -> SFfinite y -> SFadd prec emax x y <> S754_nan.
Proof.
  intros Hx Hy.
  destruct x as [sx|sx| |sx mx ex]; try contradiction;
    destruct y as [sy|sy| |sy my ey]; try contradiction; cbn [SFadd];
    try discriminate.
  - destruct sx, sy; discriminate.
  - destruct (cond_Zopp sx (Z.pos (fst (shl_align mx ex (Z.min ex ey))))
              + cond_Zopp sy (Z.pos (fst (shl_align my ey (Z.min ex ey)))))
      as [|p|p]; cbn [binary_normalize]; [discriminate| |];
      unfold binary_round;
      destruct (shl_align p (Z.min ex ey)
                  (fexp prec emax (Z.pos (digits2_pos p) + Z.min ex ey))) as [mz ez];
      eapply SFsigned_not_nan; apply binary_round_aux_signed; lia.
Qed.

Lemma b64_add_not_NaN (x y : float) :
  PrimFloat.is_finite x = true -> PrimFloat.is_finite y = true ->
  isNaN (PrimFloat.add x y) = false.
Proof.
  intros Hx Hy. apply b64_isNaN_false. rewrite add_spec.
  apply SFadd_not_nan; now apply b64_finite.
Qed.

#[global] Instance Binary64ArithmeticLaws : JsArithmeticLaws float.
Proof.
  constructor.
  - intros x y z Hxy Hyz. cbn in *.
    apply b64_leb_value in Hxy, Hyz. apply b64_leb_value.
    destruct Hxy as (Hx & Hy & H1). destruct Hyz as (_ & Hz & H2).
    repeat split; trivial. lia.
  - intros z Hz. cbn. apply b64_is_finite. now apply of_Z_value.
  - intros a b Ha Hab Hb. cbn. apply b64_ltb_value.
    destruct (of_Z_value a ltac:(lia)) as (Haf & Hav).
    destruct (of_Z_value b ltac:(lia)) as (Hbf & Hbv).
    split; [now apply SFfinite_not_nan|]. split; [now apply SFfinite_not_nan|].
    rewrite Hav, Hbv. pose proof pow2_1074_pos. nia.
  - exact b64_mul_not_NaN.
  - exact b64_div_not_NaN.
  - exact b64_round_isNaN.
  - exact b64_round_le.
  - exact b64_round_ge.
  - exact b64_floor_le.
  - exact b64_ceil_ge.
  - exact b64_add_not_NaN.
Qed.

(* ------------------------------------------------------------------ *)
(** ** A draw from a range of one integer, in binary64 *)

Lemma iter_pos_iter {A : Type} (f : A -> A) (n : positive) (x : A) :
  iter_pos f n x = Pos.iter f x n.
Proof.
  revert x. induction n as [n IH|n IH|]; intros x; cbn [iter_pos Pos.iter].
  - rewrite !IH, <- !Pos.iter_swap. reflexivity.
  - now rewrite !IH.
  - reflexivity.
Qed.

(** Shifting out the zeros that were shifted in is exact. *)
Lemma shr_iter_xO (m k : positive) :
  iter_pos shr_1 k {| shr_m := Z.pos (Pos.iter xO m k); shr_r := false; shr_s := false |}
  = {| shr_m := Z.pos m; shr_r := false; shr_s := false |}.
Proof.
  rewrite iter_pos_iter. induction k as [|k IH] using Pos.peano_ind.
  - reflexivity.
  - rewrite !Pos.iter_succ, <- Pos.iter_swap. cbn [shr_1 orb]. exact IH.
Qed.

Lemma binary_round_aux_shifted (s : bool) (m k : positive) (e : Z) :
  bounded prec emax m e = true ->
  binary_round_aux prec emax s (Z.pos (Pos.iter xO m k)) (e - Z.pos k) loc_Exact
  = S754_finite s m e.
Proof.
  intros Hb. pose proof Hb as Hb'. unfold bounded in Hb'.
  apply andb_true_iff in Hb'. destruct Hb' as [Hc He].
  unfold canonical_mantissa in Hc. apply Z.eqb_eq in Hc.
  unfold binary_round_aux, shr_fexp. cbn [Zdigits2 shr_record_of_loc].
  rewrite iter_xO_digits.
  replace (Z.pos (digits2_pos m) + Z.pos k + (e - Z.pos k))
    with (Z.pos (digits2_pos m) + e) by lia.
  rewrite Hc. replace (e - (e - Z.pos k)) with (Z.pos k) by lia.
  cbn [shr]. rewrite shr_iter_xO.
  cbn [shr_m loc_of_shr_record round_nearest_even Zdigits2 shr_record_of_loc].
  replace (e - Z.pos k + Z.pos k) with e by lia.
  rewrite Hc, Z.sub_diag. cbn [shr shr_m]. rewrite He. reflexivity.
Qed.

Lemma Prim2SF_one : Prim2SF (Binary64.of_Z 1) = S754_finite false 4503599627370496 (-52).
Proof. vm_compute. reflexivity. Qed.

Lemma Prim2SF_ten : Prim2SF (Binary64.of_Z 10) = S754_finite false 5629499534213120 (-49).
Proof. vm_compute. reflexivity. Qed.

(** Multiplying a finite double by 1 returns it. *)
Lemma b64_mul_one (u : float) :
  SFfinite (Prim2SF u) -> PrimFloat.mul u (Binary64.of_Z 1) = u.
Proof.
  intros Hu. apply Prim2SF_inj. rewrite mul_spec, Prim2SF_one. unfold SF64mul.
  pose proof (Prim2SF_valid u) as Hv.
  destruct (Prim2SF u) as [s|s| |s m e]; cbn [SFfinite] in Hu; try tauto.
  - cbn. now destruct s.
  - cbn [SFmul]. cbn in Hv.
    assert (E : (m * 4503599627370496)%positive = Pos.iter xO m 52).
    { apply Pos2Z.inj. rewrite iter_xO_value, Pos2Z.inj_mul. reflexivity. }
    rewrite E. replace (xorb s false) with s by now destruct s.
    change (e + -52) with (e - 52). now apply binary_round_aux_shifted.
Qed.

(** The floor of a double of [0, 1) is a zero. *)
Lemma b64_floor_unit (u : float) :
  PrimFloat.leb (Binary64.of_Z 0) u = true ->
  PrimFloat.ltb u (Binary64.of_Z 1) = true ->
  SFfinite (Prim2SF u) /\ exists s, Prim2SF (Binary64.floor u) = S754_zero s.
Proof.
  intros H0 H1. apply b64_leb_value in H0. apply b64_ltb_value in H1.
  destruct H0 as (_ & Hu & H0). destruct H1 as (_ & _ & H1).
  rewrite Prim2SF_zero in H0. cbn [SFvalue] in H0.
  destruct (of_Z_value 1 ltac:(split; reflexivity)) as (_ & Hone).
  rewrite Hone in H1. clear Hone.
  pose proof pow2_1074_pos as Hp.
  unfold Binary64.floor, Binary64.fraction.
  pose proof (Prim2SF_valid u) as Hv.
  destruct (Prim2SF u) as [s|s| |s m e] eqn:Eu; try congruence.
  - cbn. split; trivial. exists s. exact Eu.
  - exfalso. cbn [SFvalue] in *.
    assert (2 ^ 1074 < 2 ^ 2100) by (apply Z.pow_lt_mono_r; lia).
    destruct s; lia.
  - cbn in Hv. destruct (bounded_spec m e Hv) as (He & _ & _).
    cbn [SFvalue] in *.
    pose proof (pow2_pos (e + 1074) ltac:(lia)) as Hpe.
    destruct s; [exfalso; change (Z.neg m) with (- Z.pos m) in H0; nia|].
    split; [exact Logic.I|].
    destruct (Z.leb_spec 0 e) as [Hnn|Hneg].
    + exfalso.
      assert (2 ^ 1074 <= 2 ^ (e + 1074)) by (apply Z.pow_le_mono_r; lia). nia.
    + assert (Hd : 2 ^ 1 <= 2 ^ (- e)) by (apply Z.pow_le_mono_r; lia).
      change (2 ^ 1) with 2 in Hd.
      destruct (Z.eqb_spec (2 ^ (- e)) 1) as [E|_]; [lia|].
      assert (Hsmall : Z.pos m / 2 ^ (- e) = 0).
      { apply Z.div_small. split; [lia|].
        assert (E : 2 ^ 1074 = 2 ^ (- e) * 2 ^ (e + 1074)).
        { rewrite <- Z.pow_add_r by lia. f_equal. lia. }
        nia. }
      rewrite Hsmall. unfold Binary64.integral. cbn [Z.eqb].
      destruct (PrimFloat.get_sign u);
        rewrite ?Prim2SF_pos_zero, ?Prim2SF_neg_zero; eauto.
Qed.

(** A zero added to a finite double that is not a zero returns it. *)
Lemma b64_zero_add (y z : float) (s sz : bool) (m : positive) (e : Z) :
  Prim2SF y = S754_zero s -> Prim2SF z = S754_finite sz m e ->
  PrimFloat.add y z = z.
Proof.
  intros Hy Hz. apply Prim2SF_inj. rewrite add_spec, Hy, Hz. reflexivity.
Qed.

(** A double that is at least zero and not above zero is a zero. *)
Lemma b64_zero (x : float) :
  PrimFloat.leb (Binary64.of_Z 0) x = true ->
  PrimFloat.ltb (Binary64.of_Z 0) x = false ->
  exists s, Prim2SF x = S754_zero s.
Proof.
  rewrite leb_spec, ltb_spec, Prim2SF_zero. unfold SFleb, SFltb.
  destruct (Prim2SF x) as [s|s| |s m e]; cbn; try discriminate; eauto;
    destruct s; discriminate.
Qed.

(** A draw from the range whose two ends are 10 is 10: the product of the
    draw by the width 1 is the draw, and its floor is a zero. *)
Lemma b64_randInt_ten (u : float) :
  PrimFloat.leb (Binary64.of_Z 0) u = true ->
  PrimFloat.ltb u (Binary64.of_Z 1) = true ->
  randInt u (neg (lit (-10))) (lit 10) = Binary64.of_Z 10.
Proof.
  intros H0 H1. destruct (b64_floor_unit u H0 H1) as (Hu & s & Hs).
  unfold randInt.
  change (add (sub (lit 10) (neg (lit (-10)))) (lit 1)) with (Binary64.of_Z 1).
  change (mul u (Binary64.of_Z 1)) with (PrimFloat.mul u (Binary64.of_Z 1)).
  rewrite (b64_mul_one u Hu).
  change (neg (lit (-10))) with (Binary64.of_Z 10).
  exact (b64_zero_add _ _ s _ _ _ Hs Prim2SF_ten).
Qed.

(* ------------------------------------------------------------------ *)
(** ** Rounding to nearest *)

Lemma fexp_b64 (x : Z) : fexp prec emax x = Z.max (x - 53) (- 1074).
Proof. reflexivity. Qed.

(** One shift to the right halves the mantissa and keeps what is lost in
    the round bit and the sticky bit. *)
Lemma shr_1_spec (m : Z) (r s : bool) :
  0 <= m ->
  shr_1 {| shr_m := m; shr_r := r; shr_s := s |}
  = {| shr_m := m / 2; shr_r := Z.odd m; shr_s := r || s |}.
Proof.
  intros Hm. rewrite <- Z.div2_div.
  destruct m as [|p|p]; [reflexivity| |lia].
  destruct p as [p|p|]; reflexivity.
Qed.

Lemma shr_record_of_loc_spec (m : Z) (l : location) :
  shr_m (shr_record_of_loc m l) = m
  /\ loc_of_shr_record (shr_record_of_loc m l) = l.
Proof. destruct l as [|[]]; split; reflexivity. Qed.

(** The record of [N / D] shifted once is the record of [N / (2 D)]. *)
Lemma shr_1_location (N D : Z) :
  0 <= N -> 0 < D ->
  shr_1 (shr_record_of_loc (N / D) (location_of N D))
  = shr_record_of_loc (N / (D * 2)) (location_of N (D * 2)).
Proof.
  intros HN HD.
  assert (Hdiv : N / (D * 2) = N / D / 2) by (rewrite Z.div_div; lia).
  assert (Hmod : N mod (D * 2) = N mod D + D * ((N / D) mod 2))
    by (apply Z.rem_mul_r; lia).
  pose proof (Z.mod_pos_bound N D HD) as Hr.
  assert (Hm : 0 <= N / D) by (apply Z.div_pos; lia).
  unfold location_of. rewrite Hmod, Hdiv, Zmod_odd.
  destruct (Z.eqb_spec (N mod D) 0) as [E|E].
  - cbn [shr_record_of_loc]. rewrite shr_1_spec by exact Hm. rewrite E.
    destruct (Z.odd (N / D)).
    + destruct (Z.eqb_spec (0 + D * 1) 0); [lia|].
      destruct (Z.compare_spec (2 * (0 + D * 1)) (D * 2)); try lia. reflexivity.
    + destruct (Z.eqb_spec (0 + D * 0) 0); [|lia]. reflexivity.
  - destruct (Z.compare_spec (2 * (N mod D)) D) as [H|H|H];
      cbn [shr_record_of_loc]; rewrite shr_1_spec by exact Hm;
      destruct (Z.odd (N / D));
      match goal with
      | |- context [?a =? 0] => destruct (Z.eqb_spec a 0); [lia|]
      end;
      match goal with
      | |- context [?a ?= ?b] => destruct (Z.compare_spec a b); try lia
      end; reflexivity.
Qed.

Lemma iter_shr_1_location (k : positive) (N D : Z) :
  0 <= N -> 0 < D ->
  iter_pos shr_1 k (shr_record_of_loc (N / D) (location_of N D))
  = shr_record_of_loc (N / (D * 2 ^ Z.pos k)) (location_of N (D * 2 ^ Z.pos k)).
Proof.
  intros HN HD. rewrite iter_pos_iter.
  induction k as [|k IH] using Pos.peano_ind.
  - cbn [Pos.iter]. rewrite shr_1_location by assumption.
    now replace (D * 2 ^ 1) with (D * 2) by lia.
  - rewrite Pos.iter_succ, IH.
    assert (0 < 2 ^ Z.pos k) by (apply pow2_pos; lia).
    rewrite shr_1_location by nia.
    replace (D * 2 ^ Z.pos (Pos.succ k)) with (D * 2 ^ Z.pos k * 2); [reflexivity|].
    rewrite Pos2Z.inj_succ, Z.pow_succ_r by lia. ring.
Qed.

(** Rounding to nearest moves by half a unit at most. *)
Lemma round_nearest_even_location (N D : Z) :
  0 <= N -> 0 < D ->
  0 <= round_nearest_even (N / D) (location_of N D)
  /\ - D <= 2 * (round_nearest_even (N / D) (location_of N D) * D - N) <= D.
Proof.
  intros HN HD.
  pose proof (Z.div_mod N D ltac:(lia)) as E.
  pose proof (Z.mod_pos_bound N D HD) as Hr.
  assert (Hm : 0 <= N / D) by (apply Z.div_pos; lia).
  unfold location_of, round_nearest_even.
  destruct (Z.eqb_spec (N mod D) 0) as [E0|E0]; [split; [lia|nia]|].
  destruct (Z.compare_spec (2 * (N mod D)) D) as [H|H|H].
  - destruct (Z.even (N / D)); split; try lia; nia.
  - split; [lia|nia].
  - split; [lia|nia].
Qed.

(** The double that [binary_round_aux] returns for the quotient [N / D] at
    the exponent [e]: its mantissa at the exponent [e'] of the result is
    within half a unit of the quotient. *)
Lemma binary_round_aux_nearest (s : bool) (N D e : Z) :
  0 <= N -> 0 < D ->
  let e' := fexp prec emax (Zdigits2 (N / D) + e) in
  e <= e' -> e' <= 970 ->
  exists q,
    0 <= q
    /\ - (D * 2 ^ (e' - e)) <= 2 * (q * (D * 2 ^ (e' - e)) - N) <= D * 2 ^ (e' - e)
    /\ ((q = 0
         /\ binary_round_aux prec emax s (N / D) e (location_of N D) = S754_zero s)
        \/ exists mz ez,
             binary_round_aux prec emax s (N / D) e (location_of N D)
             = S754_finite s mz ez
             /\ Z.pos mz * 2 ^ (ez - e') = q /\ e' <= ez <= 971).
Proof.
  intros HN HD e' He He'.
  assert (Hemin : - 1074 <= e') by (subst e'; rewrite fexp_b64; lia).
  assert (Hp : 0 < 2 ^ (e' - e)) by (apply pow2_pos; lia).
  set (D' := D * 2 ^ (e' - e)) in *.
  assert (HD' : 0 < D') by (subst D'; nia).
  assert (Hshift : shr (shr_record_of_loc (N / D) (location_of N D)) e (e' - e)
                   = (shr_record_of_loc (N / D') (location_of N D'), e')).
  { unfold shr. subst D'. destruct (e' - e) as [|k|k] eqn:Ek; try lia.
    - replace (D * 2 ^ 0) with D by lia. f_equal. lia.
    - rewrite iter_shr_1_location by assumption. f_equal. lia. }
  assert (Hm : 0 <= N / D) by (apply Z.div_pos; lia).
  (* the quotient at the exponent of the result is below 2^53 *)
  assert (Hbound : N < 2 ^ 53 * D').
  { assert (Hd : N / D < 2 ^ (53 + (e' - e))).
    { destruct (N / D) as [|p|p] eqn:Ep; [apply pow2_pos; lia| |lia].
      pose proof (digits2_pos_bounds p) as [_ Hhi].
      cbn [Zdigits2] in e'. 
      assert (Z.pos (digits2_pos p) <= 53 + (e' - e))
        by (subst e'; rewrite fexp_b64; lia).
      assert (2 ^ Z.pos (digits2_pos p) <= 2 ^ (53 + (e' - e)))
        by (apply Z.pow_le_mono_r; lia).
      lia. }
    rewrite Z.pow_add_r in Hd by lia.
    pose proof (Z.div_mod N D ltac:(lia)) as E.
    pose proof (Z.mod_pos_bound N D HD) as Hr.
    subst D'. nia. }
  destruct (round_nearest_even_location N D' HN HD') as (Hq0 & Hq).
  unfold binary_round_aux, shr_fexp. fold e'. rewrite Hshift.
  destruct (shr_record_of_loc_spec (N / D') (location_of N D')) as [-> ->].
  set (q := round_nearest_even (N / D') (location_of N D')) in *.
  assert (Hq53 : q <= 2 ^ 53) by nia.
  exists q. split; [exact Hq0|]. split; [exact Hq|].
  destruct q as [|p|p] eqn:Eq; [left| right|lia].
  - split; [reflexivity|]. cbn [Zdigits2 shr_record_of_loc].
    rewrite fexp_b64. unfold shr.
    destruct (Z.max (0 + e' - 53) (-1074) - e') eqn:Ek; try lia; reflexivity.
  - cbn [Zdigits2 shr_record_of_loc].
    pose proof (digits2_pos_bounds p) as [Hlo Hhi].
    destruct (Z.eq_dec (Z.pos p) (2 ^ 53)) as [E53|N53].
    + assert (Ed : Z.pos (digits2_pos p) = 54).
      { injection E53 as ->. reflexivity. }
      rewrite Ed, fexp_b64.
      replace (Z.max (54 + e' - 53) (-1074) - e') with 1 by lia.
      cbn [shr iter_pos]. rewrite shr_1_spec by lia. cbn [shr_m].
      rewrite E53. change (2 ^ 53 / 2) with (Z.pos 4503599627370496).
      cbn match.
      replace (e' + 1 <=? emax - prec) with true
        by (symmetry; apply Z.leb_le; unfold emax, prec; lia).
      exists 4503599627370496%positive, (e' + 1). split; [reflexivity|].
      replace (e' + 1 - e') with 1 by lia. split; [reflexivity | lia].
    + assert (Hd : Z.pos (digits2_pos p) <= 53).
      { destruct (Z_lt_le_dec 53 (Z.pos (digits2_pos p))) as [H|H]; [|exact H].
        assert (2 ^ 53 <= 2 ^ (Z.pos (digits2_pos p) - 1))
          by (apply Z.pow_le_mono_r; lia). lia. }
      rewrite fexp_b64. unfold shr.
      destruct (Z.max (Z.pos (digits2_pos p) + e' - 53) (-1074) - e') eqn:Ek; try lia;
        cbn [shr_m];
        (replace (e' <=? emax - prec) with true
            by (symmetry; apply Z.leb_le; unfold emax, prec; lia));
        exists p, e'; (split; [reflexivity|]); rewrite Z.sub_diag; split; lia.
Qed.

(* ------------------------------------------------------------------ *)
(** ** Sums of integers in binary64 *)

(** Comparing at the scale of the least double. *)
Lemma pow2_scale_lt (a b x y c : Z) :
  c <= x -> c <= y -> - 1074 <= x -> - 1074 <= y ->
  a * 2 ^ (x - c) < b * 2 ^ (y - c) ->
  a * 2 ^ (x + 1074) < b * 2 ^ (y + 1074).
Proof.
  intros Hx Hy Hx' Hy' H.
  destruct (Z_le_gt_dec (- 1074) c) as [Hc|Hc].
  - pose proof (pow2_pos (c + 1074) ltac:(lia)) as Hp.
    replace (x + 1074) with (x - c + (c + 1074)) by lia.
    replace (y + 1074) with (y - c + (c + 1074)) by lia.
    rewrite (Z.pow_add_r 2 (x - c)), (Z.pow_add_r 2 (y - c)), !Z.mul_assoc by lia.
    now apply Z.mul_lt_mono_pos_r.
  - pose proof (pow2_pos (- 1074 - c) ltac:(lia)) as Hp.
    replace (x - c) with (x + 1074 + (- 1074 - c)) in H by lia.
    replace (y - c) with (y + 1074 + (- 1074 - c)) in H by lia.
    rewrite (Z.pow_add_r 2 (x + 1074)), (Z.pow_add_r 2 (y + 1074)), !Z.mul_assoc
      in H by lia.
    now apply Z.mul_lt_mono_pos_r in H.
Qed.

(** A number of the form [p * 2^e] that is an integer below 2^53 is a
    double, and [binary_round] returns it. *)
Lemma binary_round_exact (s : bool) (p : positive) (e A : Z) :
  - 1074 <= e ->
  Z.pos p * 2 ^ (e + 1074) = A * 2 ^ 1074 -> A < 2 ^ 53 ->
  exists m' e',
    binary_round prec emax s p e = S754_finite s m' e'
    /\ Z.pos m' * 2 ^ (e' + 1074) = A * 2 ^ 1074.
Proof.
  intros He HA HA53.
  pose proof pow2_1074_pos as H1074.
  pose proof (pow2_pos (e + 1074) ltac:(lia)) as Hpe.
  pose proof (digits2_pos_bounds p) as [Hlo Hhi].
  set (d := Z.pos (digits2_pos p)) in *.
  assert (Hd1 : 1 <= d) by (subst d; lia).
  assert (Hde : d + e <= 53).
  { destruct (Z_lt_le_dec 53 (d + e)) as [H|H]; [exfalso|exact H].
    assert (2 ^ (53 + 1074) <= 2 ^ (d - 1 + (e + 1074)))
      by (apply Z.pow_le_mono_r; lia).
    rewrite !Z.pow_add_r in H0 by lia. nia. }
  unfold binary_round. fold d. rewrite fexp_b64.
  set (ef := Z.max (d + e - 53) (- 1074)).
  assert (Hef : ef <= 0 /\ - 1074 <= ef) by (subst ef; lia).
  unfold shl_align.
  destruct (ef - e) as [|k|k] eqn:Ek.
  - (* already at the exponent of the result *)
    assert (Hb : bounded prec emax p e = true).
    { unfold bounded, canonical_mantissa. fold d. rewrite fexp_b64. fold ef.
      apply andb_true_iff. split; [apply Z.eqb_eq; lia|].
      apply Z.leb_le. unfold emax, prec. lia. }
    exists p, e. split; [now apply binary_round_aux_canonical | exact HA].
  - (* the exponent is below that of the result: the bits shifted out are zeros *)
    assert (E1 : Z.pos p / 1 = Z.pos p) by apply Z.div_1_r.
    assert (Eloc : location_of (Z.pos p) 1 = loc_Exact).
    { unfold location_of. now rewrite Z.mod_1_r. }
    pose proof (binary_round_aux_nearest s (Z.pos p) 1 e ltac:(lia) ltac:(lia)) as Hn.
    cbn zeta in Hn. rewrite E1, Eloc in Hn. cbn [Zdigits2] in Hn. fold d in Hn.
    rewrite fexp_b64 in Hn. fold ef in Hn.
    destruct (Hn ltac:(lia) ltac:(lia)) as (q & Hq0 & Hq & Hres). clear Hn.
    assert (Ek' : ef = e + Z.pos k) by lia.
    replace (ef - e) with (Z.pos k) in Hq by lia.
    pose proof (pow2_pos (Z.pos k) ltac:(lia)) as Hpk.
    (* p is a multiple of 2^k *)
    assert (Hmul : Z.pos p = A * 2 ^ (- ef) * 2 ^ Z.pos k).
    { assert (E : 2 ^ 1074 = 2 ^ (- ef) * 2 ^ Z.pos k * 2 ^ (e + 1074)).
      { rewrite <- !Z.pow_add_r by lia. f_equal. lia. }
      rewrite E in HA. nia. }
    assert (Eq : q = A * 2 ^ (- ef)) by nia.
    assert (HApos : 0 < A) by nia.
    pose proof (pow2_pos (- ef) ltac:(lia)) as Hpf.
    destruct Hres as [[Hz _] | (mz & ez & Hr & Hv & Hez)]; [nia|].
    exists mz, ez. split; [exact Hr|].
    replace (ez + 1074) with (ez - ef + (ef + 1074)) by lia.
    rewrite Z.pow_add_r, Z.mul_assoc, Hv, Eq by lia.
    rewrite <- Z.mul_assoc, <- Z.pow_add_r by lia. f_equal. f_equal. lia.
  - (* the exponent is above: the mantissa is shifted to the left *)
    pose proof (Pos2Z.neg_is_neg k) as Hk.
    assert (Hb : bounded prec emax (Pos.iter xO p k) ef = true).
    { unfold bounded, canonical_mantissa. rewrite iter_xO_digits. fold d.
      rewrite fexp_b64. apply andb_true_iff. split.
      - apply Z.eqb_eq. lia.
      - apply Z.leb_le. unfold emax, prec. lia. }
    exists (Pos.iter xO p k), ef. split; [now apply binary_round_aux_canonical|].
    rewrite iter_xO_value, <- HA, <- Z.mul_assoc, <- Z.pow_add_r by lia.
    f_equal. f_equal. lia.
Qed.

(** [binary_normalize] of an integer below 2^53 in magnitude that is given
    as [z * 2^e]. *)
Lemma binary_normalize_exact (z e A : Z) :
  - 1074 <= e -> z * 2 ^ (e + 1074) = A * 2 ^ 1074 -> - 2 ^ 53 < A < 2 ^ 53 ->
  SFfinite (binary_normalize prec emax z e false)
  /\ SFvalue (binary_normalize prec emax z e false) = A * 2 ^ 1074.
Proof.
  intros He HA HA53. pose proof pow2_1074_pos as H1074.
  pose proof (pow2_pos (e + 1074) ltac:(lia)) as Hpe.
  destruct z as [|p|p]; cbn [binary_normalize].
  - cbn [SFfinite SFvalue]. split; [exact Logic.I|].
    rewrite Z.mul_0_l in HA. exact HA.
  - destruct (binary_round_exact false p e A He HA ltac:(lia)) as (m' & e' & -> & Hv).
    cbn [SFfinite SFvalue]. auto.
  - change (Z.neg p) with (- Z.pos p) in HA. rewrite Z.mul_opp_l in HA.
    destruct (binary_round_exact true p e (- A) He) as (m' & e' & -> & Hv); try lia.
    cbn [SFfinite SFvalue]. split; [exact Logic.I|].
    change (Z.neg m') with (- Z.pos m'). rewrite Z.mul_opp_l in *. lia.
Qed.

(** The aligned mantissa of a double. *)
Lemma shl_align_value (m : positive) (e ez : Z) :
  ez <= e -> - 1074 <= ez ->
  Z.pos (fst (shl_align m e ez)) * 2 ^ (ez + 1074) = Z.pos m * 2 ^ (e + 1074).
Proof.
  intros H1 H2. unfold shl_align.
  destruct (ez - e) as [|k|k] eqn:Ek; cbn [fst]; try lia.
  - now replace ez with e by lia.
  - rewrite iter_xO_value, <- Z.mul_assoc, <- Z.pow_add_r by lia.
    f_equal. f_equal. lia.
Qed.

Lemma cond_Zopp_value (s : bool) (m : positive) (e : Z) :
  cond_Zopp s (Z.pos m) * 2 ^ (e + 1074)
  = SFvalue (S754_finite s (fst (shl_align m e e)) e).
Proof.
  unfold shl_align. rewrite Z.sub_diag. cbn. now destruct s.
Qed.

(** The sum of two finite doubles whose sum is an integer below 2^53 in
    magnitude is exact. *)
Lemma SFadd_exact (x y : spec_float) (A : Z) :
  valid_binary x = true -> valid_binary y = true ->
  SFfinite x -> SFfinite y ->
  SFvalue x + SFvalue y = A * 2 ^ 1074 -> - 2 ^ 53 < A < 2 ^ 53 ->
  SFfinite (SFadd prec emax x y)
  /\ SFvalue (SFadd prec emax x y) = A * 2 ^ 1074.
Proof.
  intros Hvx Hvy Hx Hy HA HA53.
  destruct x as [sx|sx| |sx mx ex]; try contradiction;
    destruct y as [sy|sy| |sy my ey]; try contradiction.
  - cbn [SFvalue] in HA. destruct sx, sy; cbn [SFadd SFfinite SFvalue];
      (split; [exact Logic.I | lia]).
  - cbn [SFadd]. split; [exact Logic.I|]. cbn [SFvalue] in *. lia.
  - cbn [SFadd]. split; [exact Logic.I|]. cbn [SFvalue] in *. lia.
  - cbn [SFadd]. cbn in Hvx, Hvy.
    destruct (bounded_spec mx ex Hvx) as (Hex & _ & _).
    destruct (bounded_spec my ey Hvy) as (Hey & _ & _).
    apply binary_normalize_exact; [lia| |exact HA53].
    rewrite Z.mul_add_distr_r, <- HA. cbn [SFvalue].
    pose proof (shl_align_value mx ex (Z.min ex ey) ltac:(lia) ltac:(lia)) as Ex.
    pose proof (shl_align_value my ey (Z.min ex ey) ltac:(lia) ltac:(lia)) as Ey.
    f_equal.
    + destruct sx; cbn [cond_Zopp].
      * change (Z.neg mx) with (- Z.pos mx). lia.
      * lia.
    + destruct sy; cbn [cond_Zopp].
      * change (Z.neg my) with (- Z.pos my). lia.
      * lia.
Qed.

Lemma SFopp_value (x : spec_float) :
  SFvalue (SFopp x) = - SFvalue x /\ (SFfinite x -> SFfinite (SFopp x))
  /\ valid_binary (SFopp x) = valid_binary x.
Proof.
  destruct x as [s|s| |s m e]; cbn [SFopp SFvalue SFfinite valid_binary];
    repeat split; trivial; destruct s; cbn [negb];
    rewrite ?Z.opp_involutive; trivial;
    change (Z.neg m) with (- Z.pos m); rewrite Z.mul_opp_l, ?Z.opp_involutive;
    reflexivity.
Qed.

Lemma SFsub_add (x y : spec_float) :
  SFfinite x -> SFfinite y ->
  SFvalue (SFsub prec emax x y) = SFvalue (SFadd prec emax x (SFopp y))
  /\ (SFfinite (SFadd prec emax x (SFopp y)) -> SFfinite (SFsub prec emax x y)).
Proof.
  intros Hx Hy.
  destruct x as [sx|sx| |sx mx ex]; try contradiction;
    destruct y as [sy|sy| |sy my ey]; try contradiction.
  - destruct sx, sy; cbn; auto.
  - cbn. auto.
  - cbn. auto.
  - cbn [SFsub SFadd SFopp]. 
    assert (E : forall a, cond_Zopp (negb sy) a = - cond_Zopp sy a)
      by (intros a; destruct sy; cbn; lia).
    rewrite E. rewrite <- Z.add_opp_r. auto.
Qed.


Lemma integer64_of_Z (z : Z) : - 2 ^ 53 < z < 2 ^ 53 -> integer64 (Binary64.of_Z z) z.
Proof. intros Hz. exact (of_Z_value z Hz). Qed.

Lemma integer64_add (x y : float) (a b : Z) :
  integer64 x a -> integer64 y b -> - 2 ^ 53 < a + b < 2 ^ 53 ->
  integer64 (PrimFloat.add x y) (a + b).
Proof.
  intros [Hx Hxv] [Hy Hyv] Hab. unfold integer64. rewrite add_spec.
  apply SFadd_exact; try apply Prim2SF_valid; trivial. lia.
Qed.

Lemma integer64_neg (x : float) (a : Z) :
  integer64 x a -> integer64 (PrimFloat.opp x) (- a).
Proof.
  intros [Hx Hxv]. unfold integer64. rewrite opp_spec.
  destruct (SFopp_value (Prim2SF x)) as (Hv & Hf & _). split; [auto | lia].
Qed.

Lemma integer64_sub (x y : float) (a b : Z) :
  integer64 x a -> integer64 y b -> - 2 ^ 53 < a - b < 2 ^ 53 ->
  integer64 (PrimFloat.sub x y) (a - b).
Proof.
  intros [Hx Hxv] [Hy Hyv] Hab. unfold integer64. rewrite sub_spec.
  destruct (SFsub_add (Prim2SF x) (Prim2SF y) Hx Hy) as [Ev Ef].
  destruct (SFopp_value (Prim2SF y)) as (Hov & Hof & Hoval).
  destruct (SFadd_exact (Prim2SF x) (SFopp (Prim2SF y)) (a - b)) as [Hf Hv];
    try apply Prim2SF_valid; auto; try lia.
  { rewrite Hoval. apply Prim2SF_valid. }
  unfold SF64sub. rewrite Ev. split; [apply Ef; exact Hf | exact Hv].
Qed.

(* ------------------------------------------------------------------ *)
(** ** The product of a draw and an integer *)

(** Rounding a product of two mantissas. *)
Lemma binary_round_aux_product (s : bool) (p : positive) (e : Z) :
  let e' := fexp prec emax (Z.pos (digits2_pos p) + e) in
  e <= e' -> e' <= 970 ->
  exists q,
    0 <= q
    /\ 2 * (q * 2 ^ (e' - e)) <= 2 * Z.pos p + 2 ^ (e' - e)
    /\ ((q = 0 /\ binary_round_aux prec emax s (Z.pos p) e loc_Exact = S754_zero s)
        \/ exists mz ez,
             binary_round_aux prec emax s (Z.pos p) e loc_Exact = S754_finite s mz ez
             /\ Z.pos mz * 2 ^ (ez - e') = q /\ e' <= ez <= 971).
Proof.
  intros e' He He'.
  assert (E1 : Z.pos p / 1 = Z.pos p) by apply Z.div_1_r.
  assert (Eloc : location_of (Z.pos p) 1 = loc_Exact).
  { unfold location_of. now rewrite Z.mod_1_r. }
  pose proof (binary_round_aux_nearest s (Z.pos p) 1 e ltac:(lia) ltac:(lia)) as Hn.
  cbn zeta in Hn. rewrite E1, Eloc in Hn. cbn [Zdigits2] in Hn. fold e' in Hn.
  destruct (Hn He He') as (q & Hq0 & Hq & Hres).
  exists q. split; [exact Hq0|]. split; [lia | exact Hres].
Qed.

(** The product of a double below 1 and a double [y] that is not
    subnormal is below [y] in magnitude. *)
Lemma SFmul_unit (su sy : bool) (mu my : positive) (eu ey : Z) :
  bounded prec emax mu eu = true -> bounded prec emax my ey = true ->
  Z.pos mu * 2 ^ (eu + 1074) < 2 ^ 1074 ->
  - 1074 < ey <= 970 ->
  SFmul prec emax (S754_finite su mu eu) (S754_finite sy my ey)
  = S754_zero (xorb su sy)
  \/ exists mz ez,
       SFmul prec emax (S754_finite su mu eu) (S754_finite sy my ey)
       = S754_finite (xorb su sy) mz ez
       /\ - 1074 <= ez
       /\ Z.pos mz * 2 ^ (ez + 1074) < Z.pos my * 2 ^ (ey + 1074).
Proof.
  intros Hbu Hby Hu Hey. cbn [SFmul].
  destruct (bounded_spec mu eu Hbu) as (Heu & Hmu & Hnu).
  destruct (bounded_spec my ey Hby) as (_ & Hmy & Hny).
  specialize (Hny ltac:(lia)).
  pose proof pow2_1074_pos as H1074.
  (* the exponent of a double below 1 *)
  assert (Heu53 : eu <= - 53).
  { destruct (Z.eq_dec eu (- 1074)) as [->|Hne]; [lia|].
    specialize (Hnu ltac:(lia)).
    destruct (Z_le_gt_dec eu (- 53)) as [H|H]; [exact H|exfalso].
    assert (2 ^ 1074 <= 2 ^ (52 + (eu + 1074))) by (apply Z.pow_le_mono_r; lia).
    rewrite Z.pow_add_r in H0 by lia.
    pose proof (pow2_pos (eu + 1074) ltac:(lia)). nia. }
  set (P := 2 ^ (- eu - 53)).
  assert (HP : 1 <= P) by (pose proof (pow2_pos (- eu - 53) ltac:(lia)); subst P; lia).
  assert (HPu : 2 ^ (- eu) = 2 ^ 53 * P).
  { subst P. rewrite <- Z.pow_add_r by lia. f_equal. lia. }
  assert (Hg : Z.pos mu + P <= 2 ^ 53 * P) by nia.
  (* the digits of the product *)
  set (N := (mu * my)%positive).
  assert (EN : Z.pos N = Z.pos mu * Z.pos my) by apply Pos2Z.inj_mul.
  pose proof (digits2_pos_bounds N) as [Hlo Hhi].
  set (d := Z.pos (digits2_pos N)) in *.
  assert (Hd53 : 53 <= d).
  { destruct (Z_lt_le_dec d 53) as [H|H]; [exfalso|exact H].
    assert (2 ^ d <= 2 ^ 52) by (apply Z.pow_le_mono_r; subst d; lia). nia. }
  assert (HNlt : Z.pos N < 2 ^ 53 * P * Z.pos my) by nia.
  assert (Hdu : d <= 53 - eu + 53).
  { destruct (Z_lt_le_dec (53 - eu + 53) d) as [H|H]; [exfalso|exact H].
    assert (2 ^ (53 + (- eu - 53) + 53) <= 2 ^ (d - 1)) by (apply Z.pow_le_mono_r; lia).
    rewrite !Z.pow_add_r in H0 by lia. fold P in H0. nia. }
  assert (Hdu' : d <= 53 - eu).
  { destruct (Z_lt_le_dec (53 - eu) d) as [H|H]; [exfalso|exact H].
    assert (2 ^ (53 + (- eu - 53) + 53) <= 2 ^ (d - 1)) by (apply Z.pow_le_mono_r; lia).
    rewrite !Z.pow_add_r in H0 by lia. fold P in H0. nia. }
  pose proof (binary_round_aux_product (xorb su sy) N (eu + ey)) as Hn.
  cbn zeta in Hn. fold d in Hn. rewrite fexp_b64 in Hn.
  set (e' := Z.max (d + (eu + ey) - 53) (- 1074)) in *.
  destruct (Hn ltac:(lia) ltac:(lia)) as (q & Hq0 & Hq & Hres). clear Hn.
  set (D' := 2 ^ (e' - (eu + ey))) in *.
  assert (HD' : 0 < D') by (apply pow2_pos; lia).
  (* half a unit of the result is less than what the draw leaves *)
  assert (Hhalf : D' < 2 * P * Z.pos my).
  { destruct (Z_le_gt_dec (- 1074) (d + (eu + ey) - 53)) as [H|H].
    - assert (E : 2 ^ (d - 1) = D' * 2 ^ 52).
      { subst D'. rewrite <- Z.pow_add_r by lia. f_equal. lia. }
      nia.
    - assert (E : D' * 2 ^ (ey + 1074) = 2 ^ 53 * P).
      { subst D' P. rewrite <- !Z.pow_add_r by lia. f_equal. lia. }
      assert (2 ^ 1 <= 2 ^ (ey + 1074)) by (apply Z.pow_le_mono_r; lia).
      change (2 ^ 1) with 2 in H0. nia. }
  assert (Hlt : q * D' < Z.pos my * 2 ^ (- eu)) by (rewrite HPu; nia).
  destruct Hres as [[_ Hz] | (mz & ez & Hr & Hv & Hez)]; [now left|].
  right. exists mz, ez. split; [exact Hr|]. split; [lia|].
  apply (pow2_scale_lt _ _ _ _ (eu + ey)); try lia.
  replace (ey - (eu + ey)) with (- eu) by lia.
  replace (ez - (eu + ey)) with (ez - e' + (e' - (eu + ey))) by lia.
  rewrite Z.pow_add_r, Z.mul_assoc, Hv by lia. exact Hlt.
Qed.

(** A double of [[0, 1)]. *)
Lemma b64_unit (u : float) :
  PrimFloat.leb (Binary64.of_Z 0) u = true ->
  PrimFloat.ltb u (Binary64.of_Z 1) = true ->
  (exists s, Prim2SF u = S754_zero s)
  \/ exists m e, Prim2SF u = S754_finite false m e
                 /\ Z.pos m * 2 ^ (e + 1074) < 2 ^ 1074.
Proof.
  intros H0 H1. apply b64_leb_value in H0. apply b64_ltb_value in H1.
  destruct H0 as (_ & Hu & H0). destruct H1 as (_ & _ & H1).
  rewrite Prim2SF_zero in H0. cbn [SFvalue] in H0.
  destruct (of_Z_value 1 ltac:(split; reflexivity)) as (_ & Hone).
  rewrite Hone in H1. clear Hone.
  pose proof pow2_1074_pos as Hp.
  pose proof (Prim2SF_valid u) as Hv.
  destruct (Prim2SF u) as [s|s| |s m e] eqn:Eu; try congruence.
  - left. now exists s.
  - exfalso. cbn [SFvalue] in *.
    assert (2 ^ 1074 < 2 ^ 2100) by (apply Z.pow_lt_mono_r; lia).
    destruct s; lia.
  - right. cbn in Hv. destruct (bounded_spec m e Hv) as (He & _ & _).
    cbn [SFvalue] in *.
    pose proof (pow2_pos (e + 1074) ltac:(lia)) as Hpe.
    destruct s; [exfalso; change (Z.neg m) with (- Z.pos m) in H0; nia|].
    exists m, e. split; [reflexivity | lia].
Qed.

(** A double that is an integer other than zero. *)
Lemma integer64_nonzero (y : float) (n : Z) :
  integer64 y n -> n <> 0 -> - 2 ^ 53 < n < 2 ^ 53 ->
  exists s m e,
    Prim2SF y = S754_finite s m e /\ bounded prec emax m e = true
    /\ - 1074 < e <= 970
    /\ Z.pos m * 2 ^ (e + 1074) = Z.abs n * 2 ^ 1074
    /\ s = (n <? 0).
Proof.
  intros [Hf Hv] Hn Hn53. pose proof pow2_1074_pos as Hp.
  pose proof (Prim2SF_valid y) as Hval.
  destruct (Prim2SF y) as [s|s| |s m e]; try contradiction.
  - cbn [SFvalue] in Hv. nia.
  - cbn in Hval. destruct (bounded_spec m e Hval) as (He & Hm & Hnorm).
    cbn [SFvalue] in Hv.
    pose proof (pow2_pos (e + 1074) ltac:(lia)) as Hpe.
    assert (Habs : Z.pos m * 2 ^ (e + 1074) = Z.abs n * 2 ^ 1074).
    { destruct s.
      - change (Z.neg m) with (- Z.pos m) in Hv. rewrite Z.mul_opp_l in Hv. nia.
      - nia. }
    assert (Hs : s = (n <? 0)).
    { destruct s; symmetry.
      - apply Z.ltb_lt. change (Z.neg m) with (- Z.pos m) in Hv.
        rewrite Z.mul_opp_l in Hv. nia.
      - apply Z.ltb_ge. nia. }
    assert (He1 : - 53 < e).
    { destruct (Z_lt_le_dec (- 53) e) as [H|H]; [exact H|exfalso].
      assert (2 ^ (53 + (e + 1074)) <= 2 ^ 1074) by (apply Z.pow_le_mono_r; lia).
      rewrite Z.pow_add_r in H0 by lia. nia. }
    assert (He2 : e <= 0).
    { destruct (Z_le_gt_dec e 0) as [H|H]; [exact H|exfalso].
      specialize (Hnorm ltac:(lia)).
      assert (2 ^ (1 + 1074) <= 2 ^ (e + 1074)) by (apply Z.pow_le_mono_r; lia).
      rewrite Z.pow_add_r in H0 by lia. nia. }
    exists s, m, e. repeat split; trivial; lia.
Qed.

(** The product of a draw of [[0, 1)] and an integer [n] is between 0 and
    [n], and is not [n] unless [n] is 0. *)
Lemma b64_mul_unit (u y : float) (n : Z) :
  PrimFloat.leb (Binary64.of_Z 0) u = true ->
  PrimFloat.ltb u (Binary64.of_Z 1) = true ->
  integer64 y n -> - 2 ^ 53 < n < 2 ^ 53 ->
  SFfinite (Prim2SF (PrimFloat.mul u y))
  /\ (0 < n -> 0 <= SFvalue (Prim2SF (PrimFloat.mul u y)) < n * 2 ^ 1074)
  /\ (n < 0 -> n * 2 ^ 1074 < SFvalue (Prim2SF (PrimFloat.mul u y)) <= 0)
  /\ (n = 0 -> SFvalue (Prim2SF (PrimFloat.mul u y)) = 0).
Proof.
  intros H0 H1 Hy Hn53. pose proof pow2_1074_pos as Hp.
  rewrite mul_spec. unfold SF64mul.
  destruct (Z.eq_dec n 0) as [->|Hn].
  - (* the integer is zero *)
    destruct Hy as [Hyf Hyv]. pose proof (Prim2SF_valid y) as Hval.
    assert (Hz : exists s, Prim2SF y = S754_zero s).
    { destruct (Prim2SF y) as [s|s| |s m e]; try contradiction; eauto.
      cbn in Hval. pose proof (finite_magnitude m e Hval) as Hmag.
      cbn [SFvalue] in Hyv. exfalso. destruct s.
      - change (Z.neg m) with (- Z.pos m) in Hyv. rewrite Z.mul_opp_l in Hyv. lia.
      - lia. }
    destruct Hz as [sy ->].
    destruct (b64_unit u H0 H1) as [[s ->] | (m & e & -> & _)]; cbn [SFmul SFfinite SFvalue];
      repeat split; trivial; lia.
  - destruct (integer64_nonzero y n Hy Hn Hn53) as (sy & my & ey & Ey & Hby & Hey & Hmag & Hs).
    rewrite Ey.
    destruct (b64_unit u H0 H1) as [[s ->] | (m & e & Eu & Hu)].
    + cbn [SFmul SFfinite SFvalue]. repeat split; trivial; lia.
    + pose proof (Prim2SF_valid u) as Hvu. rewrite Eu in Hvu |- *. cbn in Hvu.
      destruct (SFmul_unit false sy m my e ey Hvu Hby Hu Hey)
        as [-> | (mz & ez & -> & Hez & Hlt)].
      * cbn [SFfinite SFvalue]. repeat split; trivial; lia.
      * cbn [xorb SFfinite SFvalue].
        pose proof (pow2_pos (ez + 1074) ltac:(lia)) as Hpz.
        split; [exact Logic.I|]. rewrite Hmag in Hlt. subst sy.
        destruct (Z.ltb_spec n 0) as [Hneg|Hpos].
        -- change (Z.neg mz) with (- Z.pos mz). rewrite Z.mul_opp_l.
           repeat split; try lia; nia.
        -- repeat split; try lia; nia.
Qed.

(* ------------------------------------------------------------------ *)
(** ** Floors, ceilings and the order of integers in binary64 *)

Lemma fraction_value (x : float) (n d : Z) :
  Binary64.fraction x = Some (n, d) ->
  SFfinite (Prim2SF x) /\ 0 < d /\ SFvalue (Prim2SF x) * d = n * 2 ^ 1074.
Proof.
  unfold Binary64.fraction. pose proof (Prim2SF_valid x) as Hv.
  destruct (Prim2SF x) as [s|s| |s m e]; try discriminate.
  - intros [= <- <-]. cbn [SFfinite SFvalue]. repeat split; lia.
  - cbn in Hv. destruct (bounded_spec m e Hv) as (He & _ & _).
    cbn [SFfinite SFvalue].
    destruct (Z.leb_spec 0 e) as [H0|H0]; intros [= <- <-].
    + split; [exact Logic.I|]. split; [lia|].
      rewrite Z.pow_add_r by lia. ring.
    + split; [exact Logic.I|]. split; [apply pow2_pos; lia|].
      rewrite <- Z.mul_assoc, <- Z.pow_add_r by lia. f_equal. f_equal. lia.
Qed.

Lemma fraction_finite (x : float) :
  SFfinite (Prim2SF x) -> exists n d, Binary64.fraction x = Some (n, d).
Proof.
  unfold Binary64.fraction.
  destruct (Prim2SF x) as [s|s| |s m e]; try contradiction; intros _.
  - eauto.
  - destruct (0 <=? e); eauto.
Qed.

(** The floor of a finite double. *)
Lemma integer64_floor_of (x : float) :
  SFfinite (Prim2SF x) ->
  integer64 (Binary64.floor x) (SFvalue (Prim2SF x) / 2 ^ 1074).
Proof.
  intros Hx. pose proof pow2_1074_pos as Hp.
  destruct (fraction_finite x Hx) as (n & d & Hf).
  destruct (fraction_value x n d Hf) as (_ & Hd & Hv).
  unfold Binary64.floor. rewrite Hf.
  destruct (Z.eqb_spec d 1) as [->|Hd1].
  - split; [exact Hx|]. rewrite Z.mul_1_r in Hv. rewrite Hv.
    now rewrite Z.div_mul by lia.
  - assert (E : SFvalue (Prim2SF x) / 2 ^ 1074 = n / d).
    { symmetry. apply Z.div_unique_pos with (r := (n mod d) * 2 ^ 1074 / d).
      - pose proof (Z.mod_pos_bound n d Hd) as Hr.
        pose proof (Z.div_mod n d ltac:(lia)) as En.
        assert (Hex : (n mod d) * 2 ^ 1074 = d * (SFvalue (Prim2SF x) - n / d * 2 ^ 1074))
          by nia.
        rewrite Hex, Z.mul_comm, Z.div_mul by lia. nia.
      - pose proof (Z.mod_pos_bound n d Hd) as Hr.
        pose proof (Z.div_mod n d ltac:(lia)) as En.
        assert (Hex : (n mod d) * 2 ^ 1074 = d * (SFvalue (Prim2SF x) - n / d * 2 ^ 1074))
          by nia.
        rewrite Hex, (Z.mul_comm d), Z.div_mul by lia. ring. }
    rewrite E. apply integral_value.
    apply (fraction_quotient x n d _ Hf Hd1). auto.
Qed.










(* ------------------------------------------------------------------ *)
(** ** A draw from a range of integers, in binary64 *)

(** [randInt(a, b)] for integers [a] and [b] below 2^51 in magnitude and a
    draw of [[0, 1)]: an integer of [[a, b]] when [a <= b], and of
    [[b + 1, a]] otherwise. *)
Lemma integer64_randInt (u x y : float) (a b : Z) :
  PrimFloat.leb (Binary64.of_Z 0) u = true ->
  PrimFloat.ltb u (Binary64.of_Z 1) = true ->
  integer64 x a -> integer64 y b ->
  - 2 ^ 51 <= a <= 2 ^ 51 -> - 2 ^ 51 <= b <= 2 ^ 51 ->
  exists j,
    integer64 (randInt u x y) j
    /\ (a <= b -> a <= j <= b)
    /\ (b < a -> b + 1 <= j <= a).
Proof.
  intros H0 H1 Hx Hy Ha Hb. pose proof pow2_1074_pos as Hp.
  assert (H51 : 2 ^ 53 = 4 * 2 ^ 51) by reflexivity.
  assert (H51' : 0 < 2 ^ 51) by reflexivity.
  unfold randInt.
  change (@lit float _ 1) with (Binary64.of_Z 1).
  change (@sub float _) with PrimFloat.sub. change (@add float _) with PrimFloat.add.
  change (@mul float _) with PrimFloat.mul.
  change (@Math_floor float _) with Binary64.floor.
  pose proof (integer64_sub y x b a Hy Hx ltac:(lia)) as Hd.
  pose proof (integer64_add _ _ (b - a) 1 Hd (integer64_of_Z 1 ltac:(lia)) ltac:(lia)) as Hn.
  set (w := PrimFloat.add (PrimFloat.sub y x) (Binary64.of_Z 1)) in *.
  destruct (b64_mul_unit u w (b - a + 1) H0 H1 Hn ltac:(lia)) as (Hf & Hpos & Hneg & Hzero).
  pose proof (integer64_floor_of _ Hf) as Hfl.
  set (v := SFvalue (Prim2SF (PrimFloat.mul u w))) in *.
  assert (Hq : (0 < b - a + 1 -> 0 <= v / 2 ^ 1074 <= b - a)
               /\ (b - a + 1 < 0 -> b - a + 1 <= v / 2 ^ 1074 <= 0)
               /\ (b - a + 1 = 0 -> v / 2 ^ 1074 = 0)).
  { split; [|split].
    - intros Hn0. destruct (Hpos Hn0) as [Hv0 Hv1]. split.
      + apply Z.div_pos; lia.
      + assert (v / 2 ^ 1074 < b - a + 1) by (apply Z.div_lt_upper_bound; lia). lia.
    - intros Hn0. destruct (Hneg Hn0) as [Hv0 Hv1]. split.
      + apply Z.div_le_lower_bound; lia.
      + destruct (Z_le_gt_dec (v / 2 ^ 1074) 0) as [H|H]; [exact H|exfalso].
        pose proof (Z.mul_div_le v (2 ^ 1074) Hp). nia.
    - intros Hn0. rewrite (Hzero Hn0). reflexivity. }
  destruct Hq as (Hq1 & Hq2 & Hq3).
  exists (v / 2 ^ 1074 + a). split.
  - apply integer64_add; trivial. lia.
  - split; intros; lia.
Qed.



(** Without a band the jitter is an integer of the base range. *)
Lemma integer64_jitter_without_band (u : float) (R_clamped clampMin clampMax : jsval float)
    (bl bh : float) (L H : Z) :
  PrimFloat.leb (Binary64.of_Z 0) u = true ->
  PrimFloat.ltb u (Binary64.of_Z 1) = true ->
  is_nullish clampMin || is_nullish clampMax = true ->
  integer64 bl L -> integer64 bh H ->
  0 <= L <= 2 ^ 50 -> 0 <= H <= 2 ^ 50 ->
  exists j,
    integer64 (chooseJitter u R_clamped clampMin clampMax bl bh) j
    /\ - L <= j <= H.
Proof.
  intros H0 H1 Hn Hbl Hbh HL HH.
  assert (H50 : 2 ^ 51 = 2 * 2 ^ 50) by reflexivity.
  assert (H50' : 0 < 2 ^ 50) by reflexivity.
  unfold chooseJitter. rewrite Hn.
  destruct (integer64_randInt u (PrimFloat.opp bl) bh (- L) H H0 H1
              (integer64_neg bl L Hbl) Hbh ltac:(lia) ltac:(lia)) as (j & Hj & Hj1 & _).
  exists j. split; [exact Hj | lia].
Qed.

(* ------------------------------------------------------------------ *)
(** ** The calculator on valid inputs *)

Section Calculator.

Context {num : Type} `{JsNumberLaws num}.

Lemma is_positive_spec (v : jsval num) :
  is_positive v = true <->
  Number_isFinite v = true /\ js_le v (VNum (lit 0)) = false.
Proof.
  unfold is_positive, js_gt, js_le. rewrite andb_true_iff.
  destruct v as [| |x]; cbn; try (split; intros [? ?]; discriminate).
  split; intros [Hf Hx]; split; trivial.
  - now apply ltb_leb_false.
  - destruct (ltb (lit 0) x) eqn:E; trivial.
    apply leb_total in E.
    + congruence.
    + apply (leb_not_NaN _ _ lit_0_leb).
    + now apply isFinite_not_NaN.
Qed.

Lemma unit_share_spec (v : jsval num) :
  unit_share v = true <->
  Number_isFinite v = true /\ js_le v (VNum (lit 0)) = false
  /\ js_gt v (VNum (lit 1)) = false.
Proof.
  unfold unit_share. rewrite andb_true_iff, is_positive_spec.
  unfold js_gt, js_le.
  destruct v as [| |x]; cbn; try (split; intros [[? ?] ?] || intros [? ?]; discriminate).
  split.
  - intros [[Hf Hx] H1]. repeat split; trivial. now apply leb_ltb_false.
  - intros (Hf & Hx & H1). repeat split; trivial.
    apply leb_total; trivial.
    + apply (leb_not_NaN _ _ lit_1_leb).
    + now apply isFinite_not_NaN.
Qed.

(** The four tests of [computeNewRgpFromInputs] all fail exactly on
    valid inputs. *)
Lemma validation_passes (T s C R : jsval num) :
  valid_inputs T s C R = true <->
  (negb (Number_isFinite T) || js_le T (VNum (lit 0)) = false)
  /\ (negb (Number_isFinite s) || js_le s (VNum (lit 0))
      || js_gt s (VNum (lit 1)) = false)
  /\ (negb (Number_isFinite C) || js_le C (VNum (lit 0)) = false)
  /\ (negb (Number_isFinite R) || js_le R (VNum (lit 0)) = false).
Proof.
  unfold valid_inputs.
  rewrite !andb_true_iff, !is_positive_spec, unit_share_spec.
  rewrite !orb_false_iff, !negb_false_iff. tauto.
Qed.

(** What a call on valid inputs returns. *)
Lemma compute_valid (T s C R : jsval num) (options : Options num) (u : num) :
  valid_inputs T s C R = true ->
  exists r,
    computeNewRgpFromInputs T s C R options u = Return r
    /\ C_target (calc r) = mul (ToNumber s) (ToNumber T)
    /\ k (calc r) = div (C_target (calc r)) (ToNumber C)
    /\ R_raw (calc r) = mul (ToNumber R) (k (calc r))
    /\ (clampMin (calc r), clampMax (calc r)) = guardRails (ToNumber R) options
    /\ R_clamped (calc r)
       = clamp (VNum (R_raw (calc r))) (clampMin (calc r)) (clampMax (calc r))
    /\ jitter (calc r)
       = chooseJitter u (R_clamped (calc r)) (clampMin (calc r)) (clampMax (calc r))
           (fst (jitterBase options)) (snd (jitterBase options))
    /\ R_final (calc r) = finalize (R_clamped (calc r)) (jitter (calc r)) options
    /\ proposedRgpMist r = R_final (calc r)
    /\ in_targetAvgTxUsd (inputs r) = T /\ in_compShare (inputs r) = s
    /\ in_compCostUsd (inputs r) = C /\ in_currentRgp (inputs r) = R.
Proof.
  intros Hv. apply validation_passes in Hv. destruct Hv as (HT & Hs & HC & HR).
  unfold computeNewRgpFromInputs, jitterBase. rewrite HT, Hs, HC, HR.
  destruct (guardRails (ToNumber R) options) as [cmin cmax].
  destruct (jitterRange options) as [[bl bh]|];
    eexists; (split; [reflexivity|]); cbn; repeat split; reflexivity.
Qed.

(** ... and on the others. *)
Lemma compute_invalid (T s C R : jsval num) (options : Options num) (u : num) :
  valid_inputs T s C R = false ->
  exists message, computeNewRgpFromInputs T s C R options u = Throw message.
Proof.
  intros Hv. unfold computeNewRgpFromInputs.
  destruct (negb (Number_isFinite T) || js_le T (VNum (lit 0))) eqn:HT; [eauto|].
  destruct (negb (Number_isFinite s) || js_le s (VNum (lit 0))
            || js_gt s (VNum (lit 1))) eqn:Hs; [eauto|].
  destruct (negb (Number_isFinite C) || js_le C (VNum (lit 0))) eqn:HC; [eauto|].
  destruct (negb (Number_isFinite R) || js_le R (VNum (lit 0))) eqn:HR; [eauto|].
  assert (Hv' : valid_inputs T s C R = true) by (apply validation_passes; auto).
  congruence.
Qed.

End Calculator.

(* ------------------------------------------------------------------ *)
(** ** Valid inputs in exact arithmetic *)

Local Open Scope Q_scope.

Lemma is_positive_exact (v : jsval xnum) :
  is_positive v = true <-> exists q, v = VNum (XFin q) /\ 0 < q.
Proof.
  unfold is_positive, js_gt. split.
  - destruct v as [| |[|b|q]]; cbn; try discriminate.
    intros Hq. qprop. qnum. eauto.
  - intros (q & -> & Hq). cbn. qprop. exact Hq.
Qed.

Lemma valid_inputs_exact (T s C R_now : jsval xnum) :
  valid_inputs T s C R_now = true <->
  exists t p c r,
    T = VNum (XFin t) /\ s = VNum (XFin p) /\ C = VNum (XFin c)
    /\ R_now = VNum (XFin r)
    /\ 0 < t /\ 0 < p /\ p <= 1 /\ 0 < c /\ 0 < r.
Proof.
  unfold valid_inputs, unit_share.
  rewrite !andb_true_iff, !is_positive_exact. split.
  - intros [[[(t & -> & Ht) [(p & -> & Hp) Hp1]] (c & -> & Hc)] (r & -> & Hr)].
    cbn in Hp1. qprop. qnum. exists t, p, c, r. repeat split; trivial.
  - intros (t & p & c & r & -> & -> & -> & -> & Ht & Hp & Hp1 & Hc & Hr).
    repeat split; eauto. cbn. qprop. exact Hp1.
Qed.

(** The raw proposal of a valid input is a positive rational. *)
Lemma R_raw_exact (t p c r : Q) :
  0 < t -> 0 < p -> 0 < c -> 0 < r ->
  exists q,
    mul (XFin r) (div (mul (XFin p) (XFin t)) (XFin c)) = XFin q
    /\ q == r * (p * t / c) /\ 0 < q.
Proof.
  intros Ht Hp Hc Hr. cbn.
  destruct (Qeq_bool c 0) eqn:E; qprop; [lra|].
  eexists. split; [reflexivity|]. split; [reflexivity|].
  apply Qmult_lt_0_compat; trivial.
  apply Qlt_shift_div_l; trivial. nra.
Qed.

Local Close Scope Q_scope.

(* ================================================================== *)
(** * The claims about the calculator *)

(** ** C1 *)

(** C1.  On every input with T > 0, s in (0, 1], C > 0 and R_now > 0 (all
    finite), [computeNewRgpFromInputs] returns, and its trace holds
    [C_target = s * T], [k = C_target / C] and [R_raw = R_now * k]; this
    in every model of Numbers that satisfies [JsNumberLaws], binary64 and
    exact arithmetic among them.  On the scenario [R_now = 500], [s = 0.6],
    [C = 0.002], [T = 0.004] it yields [k = 1.2] and [R_raw = 600], whatever
    the options and the random draw: in binary64 these are the doubles 1.2
    and 600 themselves, in exact arithmetic the rationals. *)
Theorem C1_core_formula :
  (forall (num : Type) (N : JsNumber num) (L : JsNumberLaws num)
          (T s C R_now : jsval num) (options : Options num) (u : num),
      valid_inputs T s C R_now = true ->
      exists r,
        computeNewRgpFromInputs T s C R_now options u = Return r
        /\ core_formula T s C R_now r)
  /\ (forall (options : Options float) (u : float),
         exists r,
           computeNewRgpFromInputs Scenario64.T Scenario64.s Scenario64.C
             Scenario64.R_now options u = Return r
           /\ k (calc r) = Scenario64.one_point_two
           /\ R_raw (calc r) = 600%float)
  /\ (forall (options : Options xnum) (u : xnum),
         exists r kq rq,
           computeNewRgpFromInputs ScenarioExact.T ScenarioExact.s ScenarioExact.C
             ScenarioExact.R_now options u = Return r
           /\ k (calc r) = XFin kq /\ (kq == 1.2)%Q
           /\ R_raw (calc r) = XFin rq /\ (rq == 600)%Q).
Proof.
  split; [|split].
  - intros num N L T s C R_now options u Hv.
    destruct (compute_valid T s C R_now options u Hv)
      as (r & Hr & HC & Hk & HR & _).
    exists r. split; [exact Hr|]. unfold core_formula. auto.
  - intros options u.
    assert (Hv : valid_inputs Scenario64.T Scenario64.s Scenario64.C
                   Scenario64.R_now = true) by (vm_compute; reflexivity).
    destruct (compute_valid _ _ _ _ options u Hv) as (r & Hr & HC & Hk & HR & _).
    exists r. split; [exact Hr|].
    rewrite HR, Hk, HC. split; vm_compute; reflexivity.
  - intros options u.
    assert (Hv : valid_inputs ScenarioExact.T ScenarioExact.s ScenarioExact.C
                   ScenarioExact.R_now = true) by (vm_compute; reflexivity).
    destruct (compute_valid _ _ _ _ options u Hv) as (r & Hr & HC & Hk & HR & _).
    exists r. rewrite HR, Hk, HC. cbn.
    eexists. eexists. split; [exact Hr|].
    split; [reflexivity|]. split; [reflexivity|]. split; reflexivity.
Qed.

Lemma C1_core_formula_witness :
  valid_inputs Scenario64.T Scenario64.s Scenario64.C Scenario64.R_now = true
  /\ exists r,
       computeNewRgpFromInputs Scenario64.T Scenario64.s Scenario64.C
         Scenario64.R_now options64 0.5%float = Return r
       /\ core_formula Scenario64.T Scenario64.s Scenario64.C Scenario64.R_now r.
Proof.
  split; [vm_compute; reflexivity|].
  apply (proj1 C1_core_formula float Binary64Number Binary64Laws).
  vm_compute; reflexivity.
Defined.

(** ** C2 *)

(** C2 (the code departs from it).  With [guardRailsEnabled] false both
    clamp bounds are [null] and the jitter is drawn from the full base range,
    as the claim says.  But [clamp] tests its bounds against [undefined], not
    [null], and [x > null] is [x > 0]: whenever the raw proposal is above
    zero the clamped value is [null], not [R_raw], and the final value is
    what jitter, rounding and the absolute bounds make of [null], that is
    of 0.  In exact arithmetic this is so on every valid input.  On the
    scenario, with a rounding step of 10 and a draw of 0.5, the raw proposal
    is 600 and the proposal returned is 1. *)
Theorem C2_disabled_guard_rails_clamp_to_null :
  (forall (num : Type) (N : JsNumber num) (L : JsNumberLaws num)
          (T s C R_now : jsval num) (options : Options num) (u : num),
      valid_inputs T s C R_now = true ->
      guardRailsEnabled options = false ->
      exists r,
        computeNewRgpFromInputs T s C R_now options u = Return r
        /\ clampMin (calc r) = VNull /\ clampMax (calc r) = VNull
        /\ jitter (calc r)
           = randInt u (neg (fst (jitterBase options))) (snd (jitterBase options))
        /\ (ltb (lit 0) (R_raw (calc r)) = true ->
            R_clamped (calc r) = VNull
            /\ R_final (calc r) = finalize VNull (jitter (calc r)) options))
  /\ (forall (T s C R_now : jsval xnum) (options : Options xnum) (u : xnum),
         valid_inputs T s C R_now = true ->
         guardRailsEnabled options = false ->
         exists r,
           computeNewRgpFromInputs T s C R_now options u = Return r
           /\ R_clamped (calc r) = VNull)
  /\ (exists r,
         computeNewRgpFromInputs Scenario64.T Scenario64.s Scenario64.C
           Scenario64.R_now (without_guard_rails options64) 0.5%float = Return r
         /\ R_raw (calc r) = 600%float
         /\ R_clamped (calc r) = VNull
         /\ proposedRgpMist r = 1%float).
Proof.
  assert (Hgen : forall (num : Type) (N : JsNumber num) (L : JsNumberLaws num)
          (T s C R_now : jsval num) (options : Options num) (u : num),
      valid_inputs T s C R_now = true ->
      guardRailsEnabled options = false ->
      exists r,
        computeNewRgpFromInputs T s C R_now options u = Return r
        /\ R_raw (calc r)
           = mul (ToNumber R_now) (div (mul (ToNumber s) (ToNumber T)) (ToNumber C))
        /\ clampMin (calc r) = VNull /\ clampMax (calc r) = VNull
        /\ jitter (calc r)
           = randInt u (neg (fst (jitterBase options))) (snd (jitterBase options))
        /\ (ltb (lit 0) (R_raw (calc r)) = true ->
            R_clamped (calc r) = VNull
            /\ R_final (calc r) = finalize VNull (jitter (calc r)) options)).
  { intros num N L T s C R_now options u Hv Hoff.
    destruct (compute_valid T s C R_now options u Hv)
      as (r & Hr & HC & Hk & HR & Hg & Hcl & Hj & Hf & _).
    exists r. split; [exact Hr|].
    unfold guardRails in Hg. rewrite Hoff in Hg.
    injection Hg as Hmin Hmax.
    rewrite Hmin, Hmax in Hcl, Hj.
    split; [now rewrite HR, Hk, HC|].
    split; [exact Hmin|]. split; [exact Hmax|].
    split; [exact Hj|].
    intros Hpos.
    assert (Hnull : R_clamped (calc r) = VNull).
    { rewrite Hcl. unfold clamp, js_lt, js_gt. cbn. rewrite Hpos.
      now destruct (ltb (R_raw (calc r)) (lit 0)). }
    split; [exact Hnull|]. now rewrite Hf, Hnull. }
  split; [|split].
  - intros num N L T s C R_now options u Hv Hoff.
    destruct (Hgen num N L T s C R_now options u Hv Hoff)
      as (r & Hr & _ & Hrest).
    exists r. split; [exact Hr | exact Hrest].
  - intros T s C R_now options u Hv Hoff.
    destruct (Hgen xnum _ _ T s C R_now options u Hv Hoff)
      as (r & Hr & HR & _ & _ & _ & Hpos).
    exists r. split; [exact Hr|]. apply Hpos.
    apply valid_inputs_exact in Hv.
    destruct Hv as (t & p & c & q & -> & -> & -> & -> & Ht & Hp & _ & Hc & Hq).
    destruct (R_raw_exact t p c q Ht Hp Hc Hq) as (x & Hx & _ & Hx0).
    cbn [ToNumber] in HR. rewrite HR, Hx. cbn. apply Qlt_bool_iff. exact Hx0.
  - eexists. split; [vm_compute; reflexivity|].
    repeat split; vm_compute; reflexivity.
Qed.

Lemma C2_disabled_guard_rails_clamp_to_null_witness :
  exists r,
    computeNewRgpFromInputs ScenarioExact.T ScenarioExact.s ScenarioExact.C
      ScenarioExact.R_now (without_guard_rails optionsExact) (XFin 0.5) = Return r
    /\ R_clamped (calc r) = VNull.
Proof.
  apply (proj1 (proj2 C2_disabled_guard_rails_clamp_to_null));
    vm_compute; reflexivity.
Defined.

(** ** C3 *)

Section Clamp.

Context {num : Type} `{JsNumberLaws num}.

(** The raw proposal of a valid input is not below zero; in particular
    it is not NaN. *)
Lemma R_raw_nonneg (T s C R_now : jsval num) :
  valid_inputs T s C R_now = true ->
  leb (lit 0)
    (mul (ToNumber R_now) (div (mul (ToNumber s) (ToNumber T)) (ToNumber C)))
  = true.
Proof.
  unfold valid_inputs, unit_share, is_positive, js_gt.
  rewrite !andb_true_iff.
  intros [[[[HTf HT] [[Hsf Hs] _]] [HCf HC]] [HRf HR]].
  destruct T as [| |t], s as [| |p], C as [| |c], R_now as [| |r];
    try discriminate.
  cbn in *.
  apply mul_nonneg; trivial.
  apply div_nonneg; trivial.
  apply mul_nonneg; trivial.
  now apply ltb_leb.
Qed.

(** [clamp] between two Numbers in order returns a Number between them. *)
Lemma clamp_in_band (x lo hi : num) :
  isNaN x = false -> leb lo hi = true ->
  exists y,
    clamp (VNum x) (VNum lo) (VNum hi) = VNum y
    /\ leb lo y = true /\ leb y hi = true.
Proof.
  intros Hx Hle. destruct (leb_not_NaN _ _ Hle) as [Hlo Hhi].
  unfold clamp, js_lt, js_gt. cbn.
  destruct (ltb x lo) eqn:E1.
  - exists lo. repeat split; trivial. now apply leb_refl.
  - destruct (ltb hi x) eqn:E2.
    + exists hi. repeat split; trivial. now apply leb_refl.
    + exists x. repeat split; now apply leb_total.
Qed.

End Clamp.
(** C3 (amended).  With guard rails enabled, the bounds are
    [R_now * (1 + lowPct / 100)] and [R_now * (1 + highPct / 100)], and when
    the first is not above the second the clamped proposal lies between them.
    In exact arithmetic the bounds are in that order whenever lowPct and
    highPct are finite with [lowPct <= highPct]. *)
Theorem C3_clamped_within_ordered_band :
  (forall (num : Type) (N : JsNumber num) (L : JsNumberLaws num)
          (T s C R_now : jsval num) (options : Options num) (u : num),
      valid_inputs T s C R_now = true ->
      guardRailsEnabled options = true ->
      let lo := band (ToNumber R_now) (lowPct options) in
      let hi := band (ToNumber R_now) (highPct options) in
      leb lo hi = true ->
      exists r y,
        computeNewRgpFromInputs T s C R_now options u = Return r
        /\ clampMin (calc r) = VNum lo /\ clampMax (calc r) = VNum hi
        /\ R_clamped (calc r) = VNum y
        /\ leb lo y = true /\ leb y hi = true)
  /\ (forall (T s C R_now : jsval xnum) (options : Options xnum) (a b : Q),
         valid_inputs T s C R_now = true ->
         lowPct options = VNum (XFin a) ->
         highPct options = VNum (XFin b) ->
         (a <= b)%Q ->
         leb (band (ToNumber R_now) (lowPct options))
             (band (ToNumber R_now) (highPct options)) = true).
Proof.
  split.
  - intros num N L T s C R_now options u Hv Hon lo hi Hle.
    destruct (compute_valid T s C R_now options u Hv)
      as (r & Hr & HC & Hk & HR & Hg & Hcl & _).
    unfold guardRails in Hg. rewrite Hon in Hg. injection Hg as Hmin Hmax.
    fold lo in Hmin. fold hi in Hmax.
    assert (Hnan : isNaN (R_raw (calc r)) = false).
    { rewrite HR, Hk, HC. apply (leb_not_NaN _ _ (R_raw_nonneg T s C R_now Hv)). }
    destruct (clamp_in_band (R_raw (calc r)) lo hi Hnan Hle) as (y & Hy & Hlo & Hhi).
    exists r, y. rewrite Hcl, Hmin, Hmax. repeat split; trivial.
  - intros T s C R_now options a b Hv Ha Hb Hab.
    apply valid_inputs_exact in Hv.
    destruct Hv as (t & p & c & q & -> & -> & -> & -> & _ & _ & _ & _ & Hq).
    rewrite Ha, Hb. cbn. apply Qle_bool_iff.
    apply Qmult_le_l; trivial.
    apply Qplus_le_r. apply Qmult_le_compat_r; trivial.
    apply Qlt_le_weak. reflexivity.
Qed.

Lemma C3_clamped_within_ordered_band_witness :
  exists r y,
    computeNewRgpFromInputs Scenario64.T Scenario64.s Scenario64.C
      Scenario64.R_now options64 0.5%float = Return r
    /\ clampMin (calc r) = VNum 300%float /\ clampMax (calc r) = VNum 700%float
    /\ R_clamped (calc r) = VNum y
    /\ PrimFloat.leb 300%float y = true /\ PrimFloat.leb y 700%float = true.
Proof.
  apply (proj1 C3_clamped_within_ordered_band float Binary64Number Binary64Laws
           Scenario64.T Scenario64.s Scenario64.C Scenario64.R_now
           options64 0.5%float); vm_compute; reflexivity.
Defined.

(** C3, as stated, fails when the caller passes the percentages in the
    other order, [40, -40]: on the scenario the bounds are 700 and 300, and
    the raw proposal 600, being below the first, is clamped to 700, which
    is above the second. *)
Lemma C3_counterexample :
  exists r,
    computeNewRgpFromInputs Scenario64.T Scenario64.s Scenario64.C
      Scenario64.R_now (with_guard_rails 40%float (-40)%float options64) 0.5%float
    = Return r
    /\ R_raw (calc r) = 600%float
    /\ clampMin (calc r) = VNum 700%float /\ clampMax (calc r) = VNum 300%float
    /\ R_clamped (calc r) = VNum 700%float
    /\ js_le (R_clamped (calc r)) (clampMax (calc r)) = false.
Proof.
  eexists. split; [vm_compute; reflexivity|].
  repeat split; vm_compute; reflexivity.
Qed.

(** ** C4 *)

Local Open Scope Q_scope.





Local Close Scope Q_scope.
(* ------------------------------------------------------------------ *)
(** ** Maxima, minima and integer literals *)

Section Order.

Context {num : Type} {N : JsNumber num} {L : JsNumberLaws num}
        {A : JsArithmeticLaws num}.

Lemma Math_max_isNaN (a b : num) : isNaN (Math_max a b) = isNaN a || isNaN b.
Proof.
  unfold Math_max. destruct (isNaN a) eqn:Ea; cbn [orb]; [apply NaN_isNaN|].
  destruct (isNaN b) eqn:Eb; [apply NaN_isNaN|].
  now destruct (ltb a b).
Qed.

Lemma Math_min_isNaN (a b : num) : isNaN (Math_min a b) = isNaN a || isNaN b.
Proof.
  unfold Math_min. destruct (isNaN a) eqn:Ea; cbn [orb]; [apply NaN_isNaN|].
  destruct (isNaN b) eqn:Eb; [apply NaN_isNaN|].
  now destruct (ltb b a).
Qed.

(** [Math.max] of two Numbers is one of them, and neither is above it. *)
Lemma Math_max_spec (a b : num) :
  isNaN a = false -> isNaN b = false ->
  (Math_max a b = a \/ Math_max a b = b)
  /\ leb a (Math_max a b) = true /\ leb b (Math_max a b) = true.
Proof.
  intros Ha Hb. unfold Math_max. rewrite Ha, Hb. cbn [orb].
  destruct (ltb a b) eqn:E.
  - split; [now right|]. split; [now apply ltb_leb | now apply leb_refl].
  - split; [now left|]. split; [now apply leb_refl | now apply leb_total].
Qed.

(** [Math.min] of two Numbers is one of them, and neither is below it. *)
Lemma Math_min_spec (a b : num) :
  isNaN a = false -> isNaN b = false ->
  (Math_min a b = a \/ Math_min a b = b)
  /\ leb (Math_min a b) a = true /\ leb (Math_min a b) b = true.
Proof.
  intros Ha Hb. unfold Math_min. rewrite Ha, Hb. cbn [orb].
  destruct (ltb b a) eqn:E.
  - split; [now right|]. split; [now apply ltb_leb | now apply leb_refl].
  - split; [now left|]. split; [now apply leb_refl | now apply leb_total].
Qed.

Lemma pow2_53_bound : 10 < 2 ^ 53.
Proof. reflexivity. Qed.

Lemma lit_not_NaN (z : Z) : - 2 ^ 53 < z < 2 ^ 53 -> isNaN (lit z) = false.
Proof. intros Hz. apply isFinite_not_NaN. now apply lit_isFinite. Qed.

Lemma lit_leb (a b : Z) :
  - 2 ^ 53 < a -> a <= b -> b < 2 ^ 53 -> leb (lit a) (lit b) = true.
Proof.
  intros Ha Hab Hb. destruct (Z.eq_dec a b) as [->|Hne].
  - apply leb_refl. apply lit_not_NaN. lia.
  - apply ltb_leb. apply lit_ltb; lia.
Qed.

Lemma finite_bound_not_NaN (v : jsval num) :
  Number_isFinite v = true -> isNaN (ToNumber v) = false.
Proof.
  destruct v as [| |x]; cbn; try discriminate. apply isFinite_not_NaN.
Qed.


End Order.




(** ** C5 *)

(** C5.  [computeNewRgpFromInputs] throws if and only if one of the four
    numeric inputs is outside its domain: the target, the computation cost
    or the current RGP is not finite or is at most 0, or the computation
    share is not finite, at most 0 or above 1; that is, unless each of the
    first three is a finite Number above zero and the share a finite Number
    of (0, 1].  A call that throws yields a message and nothing else; a call
    that returns echoes the four inputs as they were given, so no default has
    taken the place of one.  A computation share of 0 always throws. *)
Theorem C5_invalid_input_iff :
  forall (num : Type) (N : JsNumber num) (L : JsNumberLaws num)
         (T s C R_now : jsval num) (options : Options num) (u : num),
    ((exists message,
         computeNewRgpFromInputs T s C R_now options u = Throw message)
     <-> invalid_inputs T s C R_now = true)
    /\ invalid_inputs T s C R_now = negb (valid_inputs T s C R_now)
    /\ (forall r,
           computeNewRgpFromInputs T s C R_now options u = Return r ->
           in_targetAvgTxUsd (inputs r) = T /\ in_compShare (inputs r) = s
           /\ in_compCostUsd (inputs r) = C /\ in_currentRgp (inputs r) = R_now)
    /\ (exists message,
           computeNewRgpFromInputs T (VNum (lit 0)) C R_now options u
           = Throw message).
Proof.
  intros num N L T s C R_now options u.
  assert (Hzero : forall T' C' R', valid_inputs T' (VNum (lit 0)) C' R' = false).
  { intros T' C' R'. unfold valid_inputs, unit_share, is_positive at 2, js_gt.
    cbn. rewrite (leb_ltb_false _ _ lit_0_leb).
    now rewrite !andb_false_r. }
  assert (Hinv : invalid_inputs T s C R_now = negb (valid_inputs T s C R_now)).
  { unfold invalid_inputs, not_positive.
    destruct (valid_inputs T s C R_now) eqn:Hv; cbn [negb].
    - apply validation_passes in Hv. destruct Hv as (-> & -> & -> & ->). reflexivity.
    - destruct (negb (Number_isFinite T) || js_le T (VNum (lit 0))) eqn:HT; trivial.
      destruct (negb (Number_isFinite s) || js_le s (VNum (lit 0))
                || js_gt s (VNum (lit 1))) eqn:Hs; trivial.
      destruct (negb (Number_isFinite C) || js_le C (VNum (lit 0))) eqn:HC; trivial.
      destruct (negb (Number_isFinite R_now) || js_le R_now (VNum (lit 0))) eqn:HR;
        [now rewrite orb_true_r|].
      assert (Hv' : valid_inputs T s C R_now = true) by (apply validation_passes; auto).
      congruence. }
  split; [|split; [exact Hinv|split]].
  - rewrite Hinv, negb_true_iff. split.
    + intros [message Hm].
      destruct (valid_inputs T s C R_now) eqn:Hv; trivial.
      destruct (compute_valid T s C R_now options u Hv) as (r & Hr & _).
      congruence.
    + apply compute_invalid.
  - intros r Hr.
    destruct (valid_inputs T s C R_now) eqn:Hv.
    + destruct (compute_valid T s C R_now options u Hv)
        as (r' & Hr' & _ & _ & _ & _ & _ & _ & _ & _ & H1 & H2 & H3 & H4).
      assert (r' = r) by congruence. subst r'. auto.
    + destruct (compute_invalid T s C R_now options u Hv) as [m Hm]. congruence.
  - apply compute_invalid. apply Hzero.
Qed.

(** A computation share of 0, on the scenario's other inputs. *)
Lemma C5_invalid_input_iff_witness :
  exists message,
    computeNewRgpFromInputs Scenario64.T (VNum 0%float) Scenario64.C
      Scenario64.R_now options64 0.5%float = Throw message.
Proof.
  apply (C5_invalid_input_iff float Binary64Number Binary64Laws
           Scenario64.T Scenario64.s Scenario64.C Scenario64.R_now
           options64 0.5%float).
Defined.

(** ** C6 *)

Section Finalize.

Context {num : Type} {N : JsNumber num} {L : JsNumberLaws num}
        {A : JsArithmeticLaws num}.

(** [roundToStep], for a step that is a finite Number or absent, returns
    NaN on NaN only. *)
Lemma roundToStep_isNaN (x : num) (step : jsval num) :
  finite_or_absent step = true -> isNaN (roundToStep x step) = isNaN x.
Proof.
  intros Hs. pose proof pow2_53_bound as H53. unfold roundToStep.
  set (st := if not_undefined step then step else VNum (lit 10)).
  destruct (isFinite x) eqn:Ex; cbn [negb orb]; trivial.
  destruct (js_le st (VNum (lit 0))) eqn:Ele; trivial.
  assert (Hst : isFinite (ToNumber st) = true).
  { subst st. destruct step as [| |s]; cbn in *; try (apply lit_isFinite; lia).
    exact Hs. }
  unfold js_le in Ele. cbn [ToNumber] in Ele.
  assert (Hpos : ltb (lit 0) (ToNumber st) = true).
  { destruct (ltb (lit 0) (ToNumber st)) eqn:E; trivial.
    rewrite leb_total in Ele; trivial; try discriminate.
    - apply lit_not_NaN. lia.
    - now apply isFinite_not_NaN. }
  pose proof (isFinite_not_NaN _ Ex) as Hx. rewrite Hx.
  apply mul_not_NaN; trivial.
  rewrite Math_round_isNaN. apply div_not_NaN; trivial.
Qed.

(** [finalize] returns NaN exactly when the sum of the clamped proposal
    and the jitter is NaN. *)
Lemma finalize_isNaN (Rc : jsval num) (j : num) (options : Options num) :
  finite_or_absent (roundStep options) = true ->
  isNaN (finalize Rc j options) = isNaN (add (ToNumber Rc) j).
Proof.
  intros Hs. unfold finalize. rewrite Math_max_isNaN, Math_round_isNaN.
  rewrite (lit_not_NaN 1) by (pose proof pow2_53_bound; lia). cbn [orb].
  destruct (Number_isFinite (maxRgpMist options)) eqn:Emax;
    destruct (Number_isFinite (minRgpMist options)) eqn:Emin;
    rewrite ?Math_min_isNaN, ?Math_max_isNaN,
      ?(finite_bound_not_NaN _ Emax), ?(finite_bound_not_NaN _ Emin), ?orb_false_r;
    now apply roundToStep_isNaN.
Qed.

(** What [finalize] returns, when it is not NaN, is at least 1 and within
    the absolute bounds that are integers. *)
Lemma finalize_bounds (Rc : jsval num) (j : num) (options : Options num) :
  isNaN (finalize Rc j options) = false ->
  leb (lit 1) (finalize Rc j options) = true
  /\ (forall mx : Z,
         maxRgpMist options = VNum (lit mx) -> 1 <= mx < 2 ^ 53 ->
         leb (finalize Rc j options) (lit mx) = true)
  /\ (forall mn : Z,
         minRgpMist options = VNum (lit mn) -> - 2 ^ 53 < mn < 2 ^ 53 ->
         Number_isFinite (maxRgpMist options) = false
         \/ js_le (minRgpMist options) (maxRgpMist options) = true ->
         leb (lit mn) (finalize Rc j options) = true).
Proof.
  pose proof pow2_53_bound as H53.
  unfold finalize.
  set (R0 := roundToStep (add (ToNumber Rc) j) (roundStep options)).
  set (R1 := if Number_isFinite (minRgpMist options)
             then Math_max R0 (ToNumber (minRgpMist options)) else R0).
  set (R2 := if Number_isFinite (maxRgpMist options)
             then Math_min R1 (ToNumber (maxRgpMist options)) else R1).
  intros HF. rewrite Math_max_isNaN, Math_round_isNaN in HF.
  apply orb_false_iff in HF. destruct HF as [H1 H2].
  assert (Hy : isNaN (Math_round R2) = false) by now rewrite Math_round_isNaN.
  destruct (Math_max_spec (lit 1) (Math_round R2) H1 Hy) as (Hcase & Hge1 & Hgey).
  split; [exact Hge1|]. split.
  - intros mx Hmx Hb.
    assert (Hfin : Number_isFinite (maxRgpMist options) = true).
    { rewrite Hmx. cbn. apply lit_isFinite. lia. }
    assert (HR2 : leb R2 (lit mx) = true).
    { subst R2. rewrite Hfin in *. rewrite Hmx in *. cbn [ToNumber] in *.
      rewrite Math_min_isNaN in H2. apply orb_false_iff in H2.
      destruct H2 as [Ha Hb']. now apply Math_min_spec. }
    destruct Hcase as [-> | ->].
    + apply lit_leb; lia.
    + apply Math_round_le; trivial. lia.
  - intros mn Hmn Hb Hcond.
    assert (Hfin : Number_isFinite (minRgpMist options) = true).
    { rewrite Hmn. cbn. now apply lit_isFinite. }
    assert (HR1 : isNaN R1 = false /\ leb (lit mn) R1 = true).
    { assert (HR1 : isNaN R1 = false).
      { subst R2. destruct (Number_isFinite (maxRgpMist options)); trivial.
        rewrite Math_min_isNaN in H2. apply orb_false_iff in H2. tauto. }
      split; trivial.
      subst R1. rewrite Hfin in *. rewrite Hmn in *. cbn [ToNumber] in *.
      rewrite Math_max_isNaN in HR1. apply orb_false_iff in HR1.
      destruct HR1 as [Ha Hb']. now apply Math_max_spec. }
    destruct HR1 as [HR1n HR1].
    assert (HR2 : leb (lit mn) R2 = true).
    { subst R2. destruct (Number_isFinite (maxRgpMist options)) eqn:Emax; trivial.
      destruct Hcond as [Hc|Hc]; [discriminate|].
      unfold js_le in Hc. rewrite Hmn in Hc. cbn [ToNumber] in Hc.
      destruct (Math_min_spec R1 (ToNumber (maxRgpMist options)) HR1n
                  (finite_bound_not_NaN _ Emax)) as ([-> | ->] & _); trivial. }
    apply leb_trans with (Math_round R2); trivial.
    now apply Math_round_ge.
Qed.

(** The result of a call that returns. *)
Lemma compute_returns (T s C R_now : jsval num) (options : Options num) (u : num)
    (r : RgpResult num) :
  computeNewRgpFromInputs T s C R_now options u = Return r ->
  valid_inputs T s C R_now = true
  /\ proposedRgpMist r = R_final (calc r)
  /\ R_final (calc r) = finalize (R_clamped (calc r)) (jitter (calc r)) options.
Proof.
  intros Hr. destruct (valid_inputs T s C R_now) eqn:Hv.
  - destruct (compute_valid T s C R_now options u Hv)
      as (r' & Hr' & _ & _ & _ & _ & _ & _ & Hf & Hp & _).
    assert (r' = r) by congruence. subst r'. auto.
  - destruct (compute_invalid T s C R_now options u Hv) as [m Hm]. congruence.
Qed.

End Finalize.

(** C6 (amended).  In every model of Numbers that satisfies the laws,
    binary64 among them: the proposal that [computeNewRgpFromInputs] returns
    is [R_final], which is [finalize] of the clamped proposal and the jitter:
    jitter added, rounded to the step, raised to the minimum, lowered to the
    maximum, rounded and raised to 1, in this order.  With a step that is a
    finite Number or absent, [R_final] is NaN exactly when the sum
    [R_clamped + jitter] is, which it is not when the clamped proposal and
    the jitter are finite.  When [R_final] is not NaN it is at least 1; it
    is at most an absolute maximum that is an integer of [1, 2^53); and it is
    at least an absolute minimum that is an integer below 2^53 in magnitude,
    when no maximum below that minimum is configured. *)
Theorem C6_final_bounds :
  forall (num : Type) (N : JsNumber num) (L : JsNumberLaws num)
         (A : JsArithmeticLaws num)
         (T s C R_now : jsval num) (options : Options num) (u : num)
         (r : RgpResult num),
    computeNewRgpFromInputs T s C R_now options u = Return r ->
    proposedRgpMist r = R_final (calc r)
    /\ R_final (calc r) = finalize (R_clamped (calc r)) (jitter (calc r)) options
    /\ (finite_or_absent (roundStep options) = true ->
        isNaN (R_final (calc r))
        = isNaN (add (ToNumber (R_clamped (calc r))) (jitter (calc r))))
    /\ (finite_or_absent (roundStep options) = true ->
        isFinite (ToNumber (R_clamped (calc r))) = true ->
        isFinite (jitter (calc r)) = true ->
        isNaN (R_final (calc r)) = false)
    /\ (isNaN (R_final (calc r)) = false ->
        leb (lit 1) (R_final (calc r)) = true
        /\ (forall mx : Z,
               maxRgpMist options = VNum (lit mx) -> 1 <= mx < 2 ^ 53 ->
               leb (R_final (calc r)) (lit mx) = true)
        /\ (forall mn : Z,
               minRgpMist options = VNum (lit mn) -> - 2 ^ 53 < mn < 2 ^ 53 ->
               Number_isFinite (maxRgpMist options) = false
               \/ js_le (minRgpMist options) (maxRgpMist options) = true ->
               leb (lit mn) (R_final (calc r)) = true)).
Proof.
  intros num N L A T s C R_now options u r Hr.
  destruct (compute_returns T s C R_now options u r Hr) as (_ & Hp & Hf).
  split; [exact Hp|]. split; [exact Hf|]. rewrite Hf. split; [|split].
  - apply finalize_isNaN.
  - intros Hs Hc Hj. rewrite finalize_isNaN by exact Hs. now apply add_not_NaN.
  - apply finalize_bounds.
Qed.

(** The scenario in binary64, with an absolute minimum of 100 and an
    absolute maximum of 550: the proposal, 600 before the bounds, is 550. *)
Lemma C6_final_bounds_witness :
  exists r,
    computeNewRgpFromInputs Scenario64.T Scenario64.s Scenario64.C
      Scenario64.R_now bounded64 0.5%float = Return r
    /\ proposedRgpMist r = 550%float
    /\ isNaN (R_final (calc r)) = false
    /\ PrimFloat.leb 1%float (R_final (calc r)) = true
    /\ PrimFloat.leb (R_final (calc r)) 550%float = true
    /\ PrimFloat.leb 100%float (R_final (calc r)) = true.
Proof.
  eexists. split; [vm_compute; reflexivity|].
  match goal with
  | |- proposedRgpMist ?r = _ /\ _ =>
      pose proof (C6_final_bounds float Binary64Number Binary64Laws
                    Binary64ArithmeticLaws Scenario64.T Scenario64.s Scenario64.C
                    Scenario64.R_now bounded64 0.5%float r eq_refl)
        as (_ & _ & _ & _ & Hb);
      assert (Hn : isNaN (R_final (calc r)) = false) by reflexivity;
      destruct (Hb Hn) as (H1 & Hmx & Hmn)
  end.
  split; [reflexivity|]. split; [exact Hn|]. split; [exact H1|]. split.
  - exact (Hmx 550 eq_refl ltac:(split; [discriminate | reflexivity])).
  - exact (Hmn 100 eq_refl ltac:(split; reflexivity) (or_intror eq_refl)).
Defined.

(** C6, as stated, fails in five ways.  On the scenario, whose proposal
    without absolute bounds is 600: with a maximum of 0 the proposal returned
    is 1, above the maximum; with a minimum of 1000 and a maximum of 500 it
    is 500, below the minimum; with a maximum of 550.5, which is not an
    integer, it is 551, above the maximum, and with a minimum of 600.4 it is
    600, below the minimum, for the last rounding comes after the bounds.
    And a current RGP of 1.5e308 is a valid input for which the upper guard
    rail and the raw proposal overflow to +Infinity, the room to the upper
    bound is [Infinity - Infinity], and the jitter and the proposal returned
    are NaN. *)
Lemma C6_counterexample :
  (exists r,
      computeNewRgpFromInputs Scenario64.T Scenario64.s Scenario64.C
        Scenario64.R_now (with_bounds VUndef (VNum 0%float) options64) 0.5%float
      = Return r
      /\ proposedRgpMist r = 1%float
      /\ js_gt (VNum (proposedRgpMist r)) (VNum 0%float) = true)
  /\ (exists r,
         computeNewRgpFromInputs Scenario64.T Scenario64.s Scenario64.C
           Scenario64.R_now
           (with_bounds (VNum 1000%float) (VNum 500%float) options64) 0.5%float
         = Return r
         /\ proposedRgpMist r = 500%float
         /\ js_lt (VNum (proposedRgpMist r)) (VNum 1000%float) = true)
  /\ (exists r,
         computeNewRgpFromInputs Scenario64.T Scenario64.s Scenario64.C
           Scenario64.R_now (with_bounds VUndef (VNum 550.5%float) options64) 0.5%float
         = Return r
         /\ proposedRgpMist r = 551%float
         /\ js_gt (VNum (proposedRgpMist r)) (VNum 550.5%float) = true)
  /\ (exists r,
         computeNewRgpFromInputs Scenario64.T Scenario64.s Scenario64.C
           Scenario64.R_now (with_bounds (VNum 600.4%float) VUndef options64) 0.5%float
         = Return r
         /\ proposedRgpMist r = 600%float
         /\ js_lt (VNum (proposedRgpMist r)) (VNum 600.4%float) = true)
  /\ (exists r,
         computeNewRgpFromInputs Scenario64.T (VNum 1%float) Scenario64.C
           (VNum 1.5e308%float) options64 0.5%float = Return r
         /\ valid_inputs Scenario64.T (VNum 1%float) Scenario64.C
              (VNum 1.5e308%float) = true
         /\ finite_options options64 = true
         /\ clampMax (calc r) = VNum PrimFloat.infinity
         /\ R_clamped (calc r) = VNum PrimFloat.infinity
         /\ isNaN (jitter (calc r)) = true
         /\ isNaN (proposedRgpMist r) = true).
Proof.
  repeat split; (eexists; split; [vm_compute; reflexivity|]);
    repeat split; vm_compute; reflexivity.
Qed.

(* ================================================================== *)
(** * The claims about the metrics *)

(* ------------------------------------------------------------------ *)
(** ** Epoch metrics *)

Section EpochMetrics.

Context {num : Type} `{JsNumberLaws num}.
Variable BigInt_of_string : string -> option Z.

(** What an accepted record looks like, and the metric made of it. *)
Lemma extractEpoch_accepted (node : EpochNode num) (m : EpochMetric num) :
  extractEpoch BigInt_of_string node = Return (Some m) ->
  exists (r : GasSummary) (c s rb n : Z),
    hd_error (checkpoints node) = Some (Some r)
    /\ toBigIntOrNull BigInt_of_string (computationCost r) = Some c
    /\ toBigIntOrNull BigInt_of_string (storageCost r) = Some s
    /\ toBigIntOrNull BigInt_of_string (storageRebate r) = Some rb
    /\ txCount m = ToNumber (coalesce (totalTransactions node) (lit 0))
    /\ isFinite (txCount m) = true
    /\ leb (txCount m) (lit 0) = false
    /\ toBigInt (txCount m) = Some n
    /\ 0 < n
    /\ totalGasFee m = c + s - rb
    /\ comp m = c
    /\ avgTotalPerTx m = Z.quot (totalGasFee m) n
    /\ avgCompPerTx m = Z.quot c n.
Proof.
  unfold extractEpoch.
  destruct (checkpoints node) as [|[r|] cks]; try discriminate.
  destruct (toBigIntOrNull BigInt_of_string (computationCost r)) as [c|] eqn:Ec;
    [|discriminate].
  destruct (toBigIntOrNull BigInt_of_string (storageCost r)) as [s|] eqn:Es;
    [|discriminate].
  destruct (toBigIntOrNull BigInt_of_string (storageRebate r)) as [rb|] eqn:Er;
    [|discriminate].
  set (tx := ToNumber (coalesce (totalTransactions node) (lit 0))).
  destruct (negb (isFinite tx) || leb tx (lit 0)) eqn:Etx; [discriminate|].
  apply orb_false_iff in Etx. destruct Etx as [Hfin Hle].
  apply negb_false_iff in Hfin.
  destruct (toBigInt tx) as [n|] eqn:En; [|discriminate].
  pose proof (toBigInt_pos tx n En Hle) as Hn.
  unfold BigInt_div. cbn [bind].
  assert (Hn0 : (n =? 0) = false) by (apply Z.eqb_neq; lia).
  rewrite Hn0. cbn [bind].
  destruct (if 0 <? c + s - rb
            then percentFromBigInt (Some c) (Some (c + s - rb)) 2
            else Return "N/A"%string) as [e1|share]; [discriminate|].
  cbn [bind].
  destruct (match toBigIntOrNull BigInt_of_string (totalStakeRewards node) with
            | Some s0 => _ | None => _ end) as [e2|rewards]; [discriminate|].
  cbn [bind]. intros [= <-]. cbn.
  exists r, c, s, rb, n. repeat split; trivial.
Qed.

End EpochMetrics.

(** ** C7 *)

(** C7 (amended).  For every epoch record that [extractEpoch] accepts, the
    three costs parse as integers [c], [s] and [rb], the transaction count is
    a positive integer [n], and the derived fields are exact:
    [totalGasFee = c + s - rb], [avgTotalPerTx] is the BigInt quotient of
    [totalGasFee] by [n] and [avgCompPerTx] that of [c] by [n].  A BigInt
    quotient is truncated toward zero; it is the floor of the division when the
    dividend is not negative. *)
Theorem C7_derived_fields_exact :
  forall (num : Type) (N : JsNumber num) (L : JsNumberLaws num)
         (BigInt_of_string : string -> option Z)
         (node : EpochNode num) (m : EpochMetric num),
    extractEpoch BigInt_of_string node = Return (Some m) ->
    exists (r : GasSummary) (c s rb n : Z),
      hd_error (checkpoints node) = Some (Some r)
      /\ toBigIntOrNull BigInt_of_string (computationCost r) = Some c
      /\ toBigIntOrNull BigInt_of_string (storageCost r) = Some s
      /\ toBigIntOrNull BigInt_of_string (storageRebate r) = Some rb
      /\ toBigInt (txCount m) = Some n /\ 0 < n
      /\ totalGasFee m = c + s - rb
      /\ avgTotalPerTx m = Z.quot (totalGasFee m) n
      /\ avgCompPerTx m = Z.quot c n
      /\ (0 <= totalGasFee m -> avgTotalPerTx m = totalGasFee m / n)
      /\ (0 <= c -> avgCompPerTx m = c / n).
Proof.
  intros num N L BigInt_of_string node m Hm.
  destruct (extractEpoch_accepted BigInt_of_string node m Hm)
    as (r & c & s & rb & n & Hhd & Hc & Hs & Hrb & _ & _ & _ & Hn & Hn0
        & Htot & _ & Havg & Hcomp).
  exists r, c, s, rb, n.
  split; [exact Hhd|]. split; [exact Hc|]. split; [exact Hs|]. split; [exact Hrb|].
  split; [exact Hn|]. split; [exact Hn0|]. split; [exact Htot|].
  split; [exact Havg|]. split; [exact Hcomp|]. split.
  - intros H0. rewrite Havg. apply Z.quot_div_nonneg; lia.
  - intros H0. rewrite Hcomp. apply Z.quot_div_nonneg; lia.
Qed.

Lemma C7_derived_fields_exact_witness :
  exists (r : GasSummary) (c s rb n : Z),
    hd_error (checkpoints epoch_typical) = Some (Some r)
    /\ toBigIntOrNull decimal_BigInt (computationCost r) = Some c
    /\ toBigIntOrNull decimal_BigInt (storageCost r) = Some s
    /\ toBigIntOrNull decimal_BigInt (storageRebate r) = Some rb
    /\ Binary64.toBigInt 4%float = Some n /\ 0 < n
    /\ 1200000 = c + s - rb
    /\ 300000 = Z.quot 1200000 n
    /\ 250000 = Z.quot c n
    /\ (0 <= 1200000 -> 300000 = 1200000 / n)
    /\ (0 <= c -> 250000 = c / n).
Proof.
  apply (C7_derived_fields_exact float Binary64Number Binary64Laws decimal_BigInt
           epoch_typical
           {| m_epochId := VNum 812%float; txCount := 4%float;
              totalGasFee := 1200000; comp := 1000000;
              avgTotalPerTx := 300000; avgCompPerTx := 250000;
              compSharePct := "83.33%"; gasOverRewardsPct := "0.00%" |}).
  vm_compute. reflexivity.
Defined.

(** C7, as stated, fails on a record whose rebate exceeds its costs: the
    total gas fee is -1000000001, its quotient by 2 transactions is
    -500000000, and the floor of the division is -500000001. *)
Lemma C7_counterexample :
  exists m,
    extractEpoch decimal_BigInt epoch_rebate = Return (Some m)
    /\ totalGasFee m = -1000000001
    /\ toBigInt (txCount m) = Some 2
    /\ avgTotalPerTx m = -500000000
    /\ totalGasFee m / 2 = -500000001.
Proof.
  eexists. split; [vm_compute; reflexivity|].
  repeat split; vm_compute; reflexivity.
Qed.

(** ** C8 *)

(** C8 (amended).  For every metric that [extractEpoch] returns, with [c],
    [s] and [rb] the parsed computation cost, storage cost and rebate: if the
    rebate is not above [c + s], the total gas fee and the average total cost
    per transaction are not negative; if [c] is not negative, neither is the
    average computation cost per transaction. *)
Theorem C8_nonnegative_metrics :
  forall (num : Type) (N : JsNumber num) (L : JsNumberLaws num)
         (BigInt_of_string : string -> option Z)
         (node : EpochNode num) (m : EpochMetric num),
    extractEpoch BigInt_of_string node = Return (Some m) ->
    exists (r : GasSummary) (c s rb : Z),
      hd_error (checkpoints node) = Some (Some r)
      /\ toBigIntOrNull BigInt_of_string (computationCost r) = Some c
      /\ toBigIntOrNull BigInt_of_string (storageCost r) = Some s
      /\ toBigIntOrNull BigInt_of_string (storageRebate r) = Some rb
      /\ (rb <= c + s -> 0 <= totalGasFee m /\ 0 <= avgTotalPerTx m)
      /\ (0 <= c -> 0 <= avgCompPerTx m).
Proof.
  intros num N L BigInt_of_string node m Hm.
  destruct (extractEpoch_accepted BigInt_of_string node m Hm)
    as (r & c & s & rb & n & Hhd & Hc & Hs & Hrb & _ & _ & _ & Hn & Hn0
        & Htot & _ & Havg & Hcomp).
  exists r, c, s, rb.
  split; [exact Hhd|]. split; [exact Hc|]. split; [exact Hs|]. split; [exact Hrb|].
  split.
  - intros Hle. split; [lia|]. rewrite Havg. apply Z.quot_pos; lia.
  - intros H0. rewrite Hcomp. apply Z.quot_pos; lia.
Qed.

Lemma C8_nonnegative_metrics_witness :
  exists (r : GasSummary) (c s rb : Z),
    hd_error (checkpoints epoch_typical) = Some (Some r)
    /\ toBigIntOrNull decimal_BigInt (computationCost r) = Some c
    /\ toBigIntOrNull decimal_BigInt (storageCost r) = Some s
    /\ toBigIntOrNull decimal_BigInt (storageRebate r) = Some rb
    /\ (rb <= c + s -> 0 <= 1200000 /\ 0 <= 300000)
    /\ (0 <= c -> 0 <= 250000).
Proof.
  apply (C8_nonnegative_metrics float Binary64Number Binary64Laws decimal_BigInt
           epoch_typical
           {| m_epochId := VNum 812%float; txCount := 4%float;
              totalGasFee := 1200000; comp := 1000000;
              avgTotalPerTx := 300000; avgCompPerTx := 250000;
              compSharePct := "83.33%"; gasOverRewardsPct := "0.00%" |}).
  vm_compute. reflexivity.
Defined.

(** C8, as stated, fails on the same kind of record: all three costs are
    non-negative integers, the record is accepted, and its total gas fee and
    average total cost per transaction are negative. *)
Lemma C8_counterexample :
  exists m,
    extractEpoch decimal_BigInt epoch_rebate = Return (Some m)
    /\ (totalGasFee m <? 0) = true
    /\ (avgTotalPerTx m <? 0) = true.
Proof.
  eexists. split; [vm_compute; reflexivity|].
  split; vm_compute; reflexivity.
Qed.

(** ** C9 *)

Section Aggregation.

Context {num : Type} `{JsNumber num}.
Variable BigInt_of_string : string -> option Z.

(** Extraction when no node is valid. *)
Lemma map_extractEpoch_none (nodes : list (EpochNode num)) :
  (forall n, In n nodes -> extractEpoch BigInt_of_string n = Return None) ->
  exists es,
    map_extractEpoch BigInt_of_string nodes = Return es
    /\ filter_Boolean es = [].
Proof.
  induction nodes as [|n nodes IH]; intros Hall.
  - exists []. split; reflexivity.
  - destruct IH as (es & Hes & Hf); [intros n' Hn'; apply Hall; now right|].
    exists (None :: es). simpl.
    rewrite (Hall n (or_introl eq_refl)), Hes. split; trivial.
Qed.

(** A metric that extraction keeps comes from a node that is valid. *)
Lemma map_extractEpoch_some (nodes : list (EpochNode num))
    (es : list (option (EpochMetric num))) (m : EpochMetric num) :
  map_extractEpoch BigInt_of_string nodes = Return es ->
  In m (filter_Boolean es) ->
  exists n, In n nodes /\ extractEpoch BigInt_of_string n = Return (Some m).
Proof.
  revert es. induction nodes as [|n nodes IH]; intros es; simpl.
  - intros [= <-] [].
  - destruct (extractEpoch BigInt_of_string n) as [e|o] eqn:En; [discriminate|].
    cbn [bind].
    destruct (map_extractEpoch BigInt_of_string nodes) as [e|es'] eqn:Es;
      [discriminate|].
    cbn [bind]. intros [= <-].
    destruct o as [m'|]; simpl.
    + intros [->|Hin].
      * exists n. auto.
      * destruct (IH es' eq_refl Hin) as (n' & Hn' & He). exists n'. auto.
    + intros Hin.
      destruct (IH es' eq_refl Hin) as (n' & Hn' & He). exists n'. auto.
Qed.

(** The summary of a list with a valid row counts its valid rows. *)
Lemma summarize_overall (rows : list (option (EpochMetric num)))
    (s : Summary num) (o : Overall num) :
  summarize rows = Return s -> overall s = Some o ->
  epochsIncluded o = Z.of_nat (List.length (filter_Boolean rows))
  /\ 1 <= epochsIncluded o.
Proof.
  unfold summarize.
  destruct (Z.of_nat (List.length (filter_Boolean rows)) =? 0) eqn:E.
  - intros [= <-]. discriminate.
  - apply Z.eqb_neq in E.
    repeat match goal with
    | |- bind ?c _ = _ -> _ => destruct c; cbn [bind]; [discriminate|]
    end.
    intros [= <-]. cbn. intros [= <-]. cbn. lia.
Qed.

End Aggregation.
(** C9.  [summarize] of rows none of which is valid returns a [null]
    overall summary; a summary it does return counts at least one epoch.
    [collectMetrics], when every epoch of the response is skipped, throws
    "no usable epochs"; it returns a payload only if [extractEpoch] accepts
    some epoch of the response. *)
Theorem C9_zero_valid_epochs :
  forall (num : Type) (N : JsNumber num) (BigInt_of_string : string -> option Z),
    (forall rows : list (option (EpochMetric num)),
        filter_Boolean rows = [] ->
        summarize rows = Return {| rows := []; overall := None |})
    /\ (forall (rows : list (option (EpochMetric num))) s o,
           summarize rows = Return s -> overall s = Some o ->
           epochsIncluded o = Z.of_nat (List.length (filter_Boolean rows))
           /\ 1 <= epochsIncluded o)
    /\ (forall nodes : list (EpochNode num),
           (forall n, In n nodes -> extractEpoch BigInt_of_string n = Return None) ->
           collectMetrics BigInt_of_string (Return (Some nodes))
           = Throw "no usable epochs — nothing to compute")
    /\ (forall (nodes : list (EpochNode num)) p,
           collectMetrics BigInt_of_string (Return (Some nodes)) = Return p ->
           exists n m,
             In n nodes /\ extractEpoch BigInt_of_string n = Return (Some m)).
Proof.
  intros num N BigInt_of_string. split; [|split; [|split]].
  - intros rows Hrows. unfold summarize. rewrite Hrows. reflexivity.
  - apply summarize_overall.
  - intros nodes Hall. unfold collectMetrics. cbn [bind].
    destruct (map_extractEpoch_none BigInt_of_string nodes Hall) as (es & Hes & Hf).
    rewrite Hes. cbn [bind]. rewrite Hf. reflexivity.
  - intros nodes p. unfold collectMetrics. cbn [bind].
    destruct (map_extractEpoch BigInt_of_string nodes) as [e|es] eqn:Es;
      [discriminate|].
    cbn [bind].
    destruct (filter_Boolean es) as [|m ms] eqn:Ef; [discriminate|].
    intros _.
    destruct (map_extractEpoch_some BigInt_of_string nodes es m Es) as (n & Hn & He).
    { rewrite Ef. now left. }
    exists n, m. auto.
Qed.

Lemma C9_zero_valid_epochs_witness :
  collectMetrics decimal_BigInt (Return (Some [epoch_no_summary; epoch_no_transaction]))
  = Throw "no usable epochs — nothing to compute".
Proof.
  apply (C9_zero_valid_epochs float Binary64Number decimal_BigInt).
  intros n [<-|[<-|[]]]; vm_compute; reflexivity.
Defined.

(* ------------------------------------------------------------------ *)
(** ** Decimal strings *)

Local Open Scope string_scope.
Local Open Scope Z_scope.

Lemma append_assoc_string (s t w : string) : (s ++ t) ++ w = s ++ (t ++ w).
Proof. induction s as [|c s IH]; simpl; congruence. Qed.

Lemma length_append_string (s t : string) :
  String.length (s ++ t) = (String.length s + String.length t)%nat.
Proof. induction s as [|c s IH]; simpl; congruence. Qed.

Lemma all_digits_append (s t : string) :
  all_digits (s ++ t) = all_digits s && all_digits t.
Proof.
  induction s as [|c s IH]; simpl; trivial.
  rewrite IH. now rewrite andb_assoc.
Qed.

Lemma digits_value_from_append (v : Z) (s t : string) :
  digits_value_from v (s ++ t) = digits_value_from (digits_value_from v s) t.
Proof. revert v. induction s as [|c s IH]; simpl; intros v; trivial. Qed.

Lemma digits_value_from_shift (v : Z) (s : string) :
  digits_value_from v s = v * 10 ^ Z.of_nat (String.length s) + digits_value s.
Proof.
  unfold digits_value. revert v. induction s as [|c s IH]; intros v.
  - simpl. lia.
  - cbn [digits_value_from String.length].
    rewrite (IH (10 * v + digit_value c)), (IH (10 * 0 + digit_value c)).
    rewrite Nat2Z.inj_succ, Z.pow_succ_r by lia. ring.
Qed.

Lemma digit_value_char (d : Z) :
  0 <= d <= 9 -> digit_value (ascii_of_nat (48 + Z.to_nat d)) = d.
Proof.
  intros Hd. unfold digit_value.
  rewrite nat_ascii_embedding by lia. lia.
Qed.

(** The digits of [n]: a non-empty string of decimal digits that denotes
    [n] and has no leading zero. *)
Lemma digits_onto_spec (fuel : nat) :
  forall (n : Z) (acc : string),
    0 <= n < 2 ^ (Z.of_nat fuel + 1) ->
    exists s,
      digits_onto fuel n acc = s ++ acc
      /\ all_digits s = true
      /\ digits_value s = n
      /\ (1 <= String.length s)%nat
      /\ (String.length s = 1%nat \/ 10 ^ (Z.of_nat (String.length s) - 1) <= n).
Proof.
  assert (Hone : forall n acc, 0 <= n < 10 ->
    exists s, String (ascii_of_nat (48 + Z.to_nat (n mod 10))) acc = s ++ acc
      /\ all_digits s = true /\ digits_value s = n
      /\ (1 <= String.length s)%nat
      /\ (String.length s = 1%nat \/ 10 ^ (Z.of_nat (String.length s) - 1) <= n)).
  { intros n acc Hn. rewrite Z.mod_small by lia.
    exists (String (ascii_of_nat (48 + Z.to_nat n)) "").
    split; [reflexivity|].
    unfold digits_value. cbn [all_digits digits_value_from String.length].
    rewrite digit_value_char by lia.
    split; [rewrite andb_true_r; apply andb_true_iff; split; lia|].
    split; [lia|]. split; [lia|]. now left. }
  induction fuel as [|fuel IH]; intros n acc Hn.
  - cbn [digits_onto]. apply Hone. change (2 ^ (Z.of_nat 0 + 1)) with 2 in Hn. lia.
  - cbn [digits_onto]. destruct (n <? 10) eqn:E.
    + apply Hone. lia.
    + apply Z.ltb_ge in E.
      set (d := ascii_of_nat (48 + Z.to_nat (n mod 10))).
      assert (Hq : 0 <= n / 10 < 2 ^ (Z.of_nat fuel + 1)).
      { rewrite Nat2Z.inj_succ in Hn.
        replace (Z.succ (Z.of_nat fuel) + 1) with (Z.succ (Z.of_nat fuel + 1)) in Hn by lia.
        rewrite Z.pow_succ_r in Hn by lia.
        split; [apply Z.div_pos; lia|].
        apply Z.div_lt_upper_bound; lia. }
      destruct (IH (n / 10) (String d acc) Hq) as (s & Hs & Hall & Hval & Hlen & Hmin).
      exists (s ++ String d "").
      pose proof (Z.mod_pos_bound n 10 ltac:(lia)) as Hmod.
      pose proof (Z.div_mod n 10 ltac:(lia)) as Hdm.
      split; [rewrite Hs, append_assoc_string; reflexivity|].
      split.
      { rewrite all_digits_append, Hall. cbn [all_digits andb]. subst d.
        rewrite digit_value_char by lia.
        rewrite andb_true_r. apply andb_true_iff. split; lia. }
      split.
      { unfold digits_value. rewrite digits_value_from_append.
        fold (digits_value s). rewrite Hval.
        cbn [digits_value_from]. subst d. rewrite digit_value_char by lia. lia. }
      rewrite length_append_string. cbn [String.length].
      split; [lia|]. right.
      replace (Z.of_nat (String.length s + 1) - 1) with (Z.of_nat (String.length s)) by lia.
      destruct Hmin as [H1|Hge].
      * rewrite H1. change (10 ^ Z.of_nat 1) with 10. lia.
      * replace (Z.of_nat (String.length s))
          with (Z.succ (Z.of_nat (String.length s) - 1)) by lia.
        rewrite Z.pow_succ_r by lia. lia.
Qed.

Lemma digits_spec (n : Z) :
  0 <= n ->
  all_digits (digits n) = true
  /\ digits_value (digits n) = n
  /\ (1 <= String.length (digits n))%nat
  /\ (String.length (digits n) = 1%nat
      \/ 10 ^ (Z.of_nat (String.length (digits n)) - 1) <= n).
Proof.
  intros Hn. unfold digits.
  assert (Hfuel : 0 <= n < 2 ^ (Z.of_nat (Z.to_nat (Z.log2 n)) + 1)).
  { rewrite Z2Nat.id by apply Z.log2_nonneg.
    split; trivial.
    destruct (Z.eq_dec n 0) as [->|Hne]; [reflexivity|].
    apply Z.log2_spec. lia. }
  destruct (digits_onto_spec _ n "" Hfuel) as (s & Hs & Hrest).
  assert (Hnil : forall t : string, t ++ "" = t)
    by (induction t as [|c t IHt]; simpl; congruence).
  rewrite Hs, Hnil. exact Hrest.
Qed.

(** A number below [10 ^ k], [k >= 1], has at most [k] digits. *)
Lemma digits_length_bound (n k : Z) :
  0 <= n < 10 ^ k -> 1 <= k ->
  (String.length (digits n) <= Z.to_nat k)%nat.
Proof.
  intros Hn Hk.
  destruct (digits_spec n ltac:(lia)) as (_ & _ & Hlen & [H1|Hge]); [lia|].
  assert (Hlt : Z.of_nat (String.length (digits n)) - 1 < k).
  { apply (Z.pow_lt_mono_r_iff 10); lia. }
  lia.
Qed.
Lemma zeros_spec (m : nat) :
  all_digits (zeros m) = true
  /\ digits_value_from 0 (zeros m) = 0
  /\ String.length (zeros m) = m.
Proof.
  induction m as [|m (IH1 & IH2 & IH3)]; simpl; auto.
Qed.

Lemma padStart0_spec (s : string) (n : Z) :
  all_digits s = true ->
  all_digits (padStart0 s n) = true
  /\ digits_value (padStart0 s n) = digits_value s
  /\ String.length (padStart0 s n) = Nat.max (Z.to_nat n) (String.length s).
Proof.
  intros Hs. unfold padStart0.
  destruct (zeros_spec (Z.to_nat n - String.length s)) as (H1 & H2 & H3).
  split; [now rewrite all_digits_append, H1, Hs|].
  split.
  - unfold digits_value. now rewrite digits_value_from_append, H2.
  - rewrite length_append_string, H3. lia.
Qed.

(** The BigInt quotient of the magnitudes is the magnitude of the BigInt
    quotient; its sign is the product of the signs. *)
Lemma quot_of_magnitudes (a b : Z) :
  b <> 0 ->
  (if xorb (a <? 0) (b <? 0) then -1 else 1)
  * Z.quot (if a <? 0 then - a else a) (if b <? 0 then - b else b)
  = Z.quot a b.
Proof.
  intros Hb.
  destruct (a <? 0) eqn:Ea, (b <? 0) eqn:Eb; cbn [xorb].
  - rewrite Z.quot_opp_opp by trivial. lia.
  - rewrite Z.quot_opp_l by trivial. lia.
  - rewrite Z.quot_opp_r by trivial. lia.
  - lia.
Qed.

(** What [divBigIntToDecimalString] returns for a divisor other than 0. *)
Lemma divBigIntToDecimalString_spec (numer denom decimals : Z) :
  denom <> 0 -> 0 <= decimals ->
  exists I F : string,
    divBigIntToDecimalString numer denom decimals
    = Return ((if xorb (numer <? 0) (denom <? 0) then "-" else "")
              ++ I ++ "." ++ F)
    /\ all_digits I = true /\ all_digits F = true
    /\ String.length F = Z.to_nat (Z.max decimals 1)
    /\ (if xorb (numer <? 0) (denom <? 0) then -1 else 1)
       * (digits_value I * 10 ^ decimals + digits_value F)
       = Z.quot (numer * 10 ^ decimals) denom.
Proof.
  intros Hd Hk. unfold divBigIntToDecimalString.
  assert (Hd0 : (denom =? 0) = false) by now apply Z.eqb_neq.
  rewrite Hd0.
  set (n := if numer <? 0 then - numer else numer).
  set (d := if denom <? 0 then - denom else denom).
  assert (Hn : 0 <= n) by (subst n; destruct (Z.ltb_spec numer 0); lia).
  assert (Hdp : 0 < d) by (subst d; destruct (Z.ltb_spec denom 0); lia).
  unfold BigInt_pow, BigInt_div, BigInt_rem.
  assert (Hk0 : (decimals <? 0) = false) by (apply Z.ltb_ge; lia).
  rewrite Hk0. cbn [bind].
  set (scale := 10 ^ decimals).
  assert (Hscale : 0 < scale) by (apply Z.pow_pos_nonneg; lia).
  assert (Hd1 : (d =? 0) = false) by (apply Z.eqb_neq; lia).
  assert (Hs1 : (scale =? 0) = false) by (apply Z.eqb_neq; lia).
  rewrite Hd1. cbn [bind]. rewrite Hs1. cbn [bind].
  set (q := Z.quot (n * scale) d).
  assert (Hq : 0 <= q) by (apply Z.quot_pos; nia).
  assert (Hint : 0 <= Z.quot q scale) by (apply Z.quot_pos; lia).
  assert (Hfrac : 0 <= Z.rem q scale < scale) by (apply Z.rem_bound_pos; lia).
  unfold BigInt_toString.
  assert (Hi0 : (Z.quot q scale <? 0) = false) by (apply Z.ltb_ge; lia).
  assert (Hf0 : (Z.rem q scale <? 0) = false) by (apply Z.ltb_ge; lia).
  rewrite Hi0, Hf0.
  destruct (digits_spec (Z.quot q scale) Hint) as (HIall & HIval & _).
  destruct (digits_spec (Z.rem q scale) (proj1 Hfrac)) as (HFall & HFval & HFlen & _).
  destruct (padStart0_spec (digits (Z.rem q scale)) decimals HFall)
    as (HPall & HPval & HPlen).
  exists (digits (Z.quot q scale)), (padStart0 (digits (Z.rem q scale)) decimals).
  split; [reflexivity|]. split; [exact HIall|]. split; [exact HPall|]. split.
  - rewrite HPlen.
    destruct (Z.eq_dec decimals 0) as [->|Hne].
    + change (Z.to_nat (Z.max 0 1)) with 1%nat. change (Z.to_nat 0) with 0%nat.
      assert (Hr0 : Z.rem q scale = 0) by lia.
      rewrite Hr0. reflexivity.
    + pose proof (digits_length_bound (Z.rem q scale) decimals Hfrac ltac:(lia)).
      lia.
  - rewrite HIval, HPval, HFval.
    fold scale. rewrite <- (quot_of_magnitudes (numer * scale) denom Hd).
    assert (Hsign : (numer * scale <? 0) = (numer <? 0)).
    { destruct (Z.ltb_spec numer 0), (Z.ltb_spec (numer * scale) 0); trivial; nia. }
    rewrite Hsign. f_equal.
    assert (Hmag : (if numer <? 0 then - (numer * scale) else numer * scale)
                   = n * scale).
    { subst n. destruct (numer <? 0); lia. }
    rewrite Hmag. fold d. fold q.
    pose proof (Z.quot_rem' q scale). lia.
Qed.

(** ** C10 *)

(** C10.  For BigInt arguments and a non-negative number of decimals,
    [divBigIntToDecimalString] returns and never throws.  For a divisor of 0
    it returns "NaN".  Otherwise it returns a sign, the digits [I] of an
    integer part, a point and digits [F] of a fractional part, as many as
    requested (one, a 0, when none is requested), such that the number read
    with [decimals] places, [I * 10^decimals + F] with the sign, is the
    quotient of [numer * 10^decimals] by [denom] truncated toward zero: the
    decimal expansion of [numer / denom] cut after [decimals] digits, with
    its sign.  [percentFromBigInt] returns as well; it returns "N/A" for a
    divisor that is [null] or 0, and otherwise the string of
    [divBigIntToDecimalString (numer * 100) denom] followed by "%". *)
Theorem C10_decimal_strings :
  (forall numer denom decimals : Z,
      0 <= decimals ->
      exists s, divBigIntToDecimalString numer denom decimals = Return s)
  /\ (forall numer decimals : Z,
         divBigIntToDecimalString numer 0 decimals = Return "NaN")
  /\ (forall numer denom decimals : Z,
         denom <> 0 -> 0 <= decimals ->
         exists I F : string,
           divBigIntToDecimalString numer denom decimals
           = Return ((if xorb (numer <? 0) (denom <? 0) then "-" else "")
                     ++ I ++ "." ++ F)
           /\ all_digits I = true /\ all_digits F = true
           /\ String.length F = Z.to_nat (Z.max decimals 1)
           /\ (if xorb (numer <? 0) (denom <? 0) then -1 else 1)
              * (digits_value I * 10 ^ decimals + digits_value F)
              = Z.quot (numer * 10 ^ decimals) denom)
  /\ (forall (numer denom : option Z) (decimals : Z),
         0 <= decimals ->
         exists s, percentFromBigInt numer denom decimals = Return s)
  /\ (forall (numer : option Z) (decimals : Z),
         percentFromBigInt numer None decimals = Return "N/A"
         /\ percentFromBigInt numer (Some 0) decimals = Return "N/A")
  /\ (forall numer denom decimals : Z,
         denom <> 0 -> 0 <= decimals ->
         exists s,
           divBigIntToDecimalString (numer * 100) denom decimals = Return s
           /\ percentFromBigInt (Some numer) (Some denom) decimals
              = Return (s ++ "%")).
Proof.
  assert (Htotal : forall numer denom decimals : Z,
      0 <= decimals ->
      exists s, divBigIntToDecimalString numer denom decimals = Return s).
  { intros numer denom decimals Hk.
    destruct (Z.eq_dec denom 0) as [->|Hd].
    - exists "NaN". reflexivity.
    - destruct (divBigIntToDecimalString_spec numer denom decimals Hd Hk)
        as (I & F & Hs & _).
      eexists. exact Hs. }
  split; [exact Htotal|].
  split; [reflexivity|].
  split; [exact divBigIntToDecimalString_spec|].
  split; [|split].
  - intros [n|] [d|] decimals Hk; cbn [percentFromBigInt]; try (eexists; reflexivity).
    destruct (d =? 0); [eexists; reflexivity|].
    destruct (Htotal (n * 100) d decimals Hk) as [s ->].
    eexists. reflexivity.
  - intros [n|] decimals; split; reflexivity.
  - intros numer denom decimals Hd Hk.
    destruct (Htotal (numer * 100) denom decimals Hk) as [s Hs].
    exists s. split; [exact Hs|].
    cbn [percentFromBigInt].
    assert (Hd0 : (denom =? 0) = false) by now apply Z.eqb_neq.
    rewrite Hd0, Hs. reflexivity.
Qed.

(** One third to nine places. *)
Lemma C10_decimal_strings_witness :
  exists I F : string,
    divBigIntToDecimalString 1 3 9
    = Return ((if xorb (1 <? 0) (3 <? 0) then "-" else "") ++ I ++ "." ++ F)
    /\ all_digits I = true /\ all_digits F = true
    /\ String.length F = Z.to_nat (Z.max 9 1)
    /\ (if xorb (1 <? 0) (3 <? 0) then -1 else 1)
       * (digits_value I * 10 ^ 9 + digits_value F)
       = Z.quot (1 * 10 ^ 9) 3.
Proof.
  apply (proj1 (proj2 (proj2 C10_decimal_strings)) 1 3 9); lia.
Defined.

Example divBigIntToDecimalString_examples :
  divBigIntToDecimalString 1 3 9 = Return "0.333333333"
  /\ divBigIntToDecimalString (-7) 2 2 = Return "-3.50"
  /\ divBigIntToDecimalString 1200000 MIST_PER_SUI 6 = Return "0.001200"
  /\ divBigIntToDecimalString 5 0 9 = Return "NaN"
  /\ percentFromBigInt (Some 1000000) (Some 1200000) 2 = Return "83.33%"
  /\ percentFromBigInt (Some 1) None 2 = Return "N/A".
Proof. repeat split; vm_compute; reflexivity. Qed.
(* ================================================================== *)
(** * Further properties *)

(** ** The outcomes of [extractEpoch] and [summarize] *)

Lemma divBigIntToDecimalString_returns (numer denom decimals : Z) :
  0 <= decimals -> exists s, divBigIntToDecimalString numer denom decimals = Return s.
Proof.
  intros Hk. destruct (Z.eq_dec denom 0) as [->|Hd].
  - exists "NaN"%string. reflexivity.
  - destruct (divBigIntToDecimalString_spec numer denom decimals Hd Hk)
      as (I & F & -> & _).
    eexists. reflexivity.
Qed.

Lemma percentFromBigInt_returns (numer denom : option Z) (decimals : Z) :
  0 <= decimals -> exists s, percentFromBigInt numer denom decimals = Return s.
Proof.
  intros Hk. unfold percentFromBigInt.
  destruct denom as [d|], numer as [n|]; try (eexists; reflexivity).
  destruct (d =? 0); [eexists; reflexivity|].
  destruct (divBigIntToDecimalString_returns (n * 100) d decimals Hk) as [s ->].
  eexists. reflexivity.
Qed.

(** X2.  [extractEpoch] returns, a metric or [null], on every epoch node
    whose transaction count is an integer whenever it is finite and above
    zero: with such a count no division and no formatting throws. *)
Theorem extractEpoch_returns_on_integer_count :
  forall (num : Type) (N : JsNumber num) (L : JsNumberLaws num)
         (BigInt_of_string : string -> option Z) (node : EpochNode num),
    (isFinite (ToNumber (coalesce (totalTransactions node) (lit 0))) = true ->
     leb (ToNumber (coalesce (totalTransactions node) (lit 0))) (lit 0) = false ->
     exists n, toBigInt (ToNumber (coalesce (totalTransactions node) (lit 0))) = Some n) ->
    exists o, extractEpoch BigInt_of_string node = Return o.
Proof.
  intros num N L BigInt_of_string node. unfold extractEpoch.
  destruct (checkpoints node) as [|[r|] cks]; try (eexists; reflexivity).
  destruct (toBigIntOrNull BigInt_of_string (computationCost r)) as [c|];
    [|eexists; reflexivity].
  destruct (toBigIntOrNull BigInt_of_string (storageCost r)) as [s|];
    [|eexists; reflexivity].
  destruct (toBigIntOrNull BigInt_of_string (storageRebate r)) as [rb|];
    [|eexists; reflexivity].
  set (tx := ToNumber (coalesce (totalTransactions node) (lit 0))).
  intros Hint.
  destruct (negb (isFinite tx) || leb tx (lit 0)) eqn:Etx; [eexists; reflexivity|].
  apply orb_false_iff in Etx. destruct Etx as [Hfin Hle].
  apply negb_false_iff in Hfin.
  destruct (Hint Hfin Hle) as [n En]. rewrite En.
  pose proof (toBigInt_pos tx n En Hle) as Hn.
  unfold BigInt_div. cbn [bind].
  assert (Hn0 : (n =? 0) = false) by (apply Z.eqb_neq; lia).
  rewrite Hn0. cbn [bind].
  assert (H1 : exists share,
    (if 0 <? c + s - rb
     then percentFromBigInt (Some c) (Some (c + s - rb)) 2
     else Return "N/A"%string) = Return share).
  { destruct (0 <? c + s - rb); [|eexists; reflexivity].
    apply percentFromBigInt_returns. lia. }
  destruct H1 as [share ->]. cbn [bind].
  assert (H2 : exists rewards,
    match toBigIntOrNull BigInt_of_string (totalStakeRewards node) with
    | Some s0 =>
        if negb (s0 =? 0) && (0 <? s0)
        then percentFromBigInt (Some (c + s - rb)) (Some s0) 2
        else Return "N/A"%string
    | None => Return "N/A"%string
    end = Return rewards).
  { destruct (toBigIntOrNull BigInt_of_string (totalStakeRewards node)) as [s0|];
      [|eexists; reflexivity].
    destruct (negb (s0 =? 0) && (0 <? s0)); [|eexists; reflexivity].
    apply percentFromBigInt_returns. lia. }
  destruct H2 as [rewards ->]. cbn [bind].
  eexists. reflexivity.
Qed.

Lemma extractEpoch_returns_on_integer_count_witness :
  exists o, extractEpoch decimal_BigInt epoch_typical = Return o.
Proof.
  apply (extractEpoch_returns_on_integer_count float Binary64Number Binary64Laws
           decimal_BigInt epoch_typical).
  intros _ _. exists 4. vm_compute. reflexivity.
Defined.

(** X3.  [extractEpoch] throws a RangeError on an epoch node whose gas
    summary parses and whose transaction count is finite, above zero and not
    an integer: [BigInt(txCount)] rejects it, and the epoch is not skipped. *)
Theorem extractEpoch_fractional_count_throws :
  forall (num : Type) (N : JsNumber num)
         (BigInt_of_string : string -> option Z) (node : EpochNode num)
         (r : GasSummary) (c s rb : Z),
    hd_error (checkpoints node) = Some (Some r) ->
    toBigIntOrNull BigInt_of_string (computationCost r) = Some c ->
    toBigIntOrNull BigInt_of_string (storageCost r) = Some s ->
    toBigIntOrNull BigInt_of_string (storageRebate r) = Some rb ->
    isFinite (ToNumber (coalesce (totalTransactions node) (lit 0))) = true ->
    leb (ToNumber (coalesce (totalTransactions node) (lit 0))) (lit 0) = false ->
    toBigInt (ToNumber (coalesce (totalTransactions node) (lit 0))) = None ->
    extractEpoch BigInt_of_string node = Throw "RangeError: not an integer".
Proof.
  intros num N BigInt_of_string node r c s rb Hck Hc Hs Hrb Hfin Hle Hint.
  unfold extractEpoch.
  destruct (checkpoints node) as [|[r'|] cks]; try discriminate Hck.
  injection Hck as ->.
  rewrite Hc, Hs, Hrb, Hfin, Hle, Hint. reflexivity.
Qed.

Lemma extractEpoch_fractional_count_throws_witness :
  extractEpoch decimal_BigInt epoch_fractional = Throw "RangeError: not an integer".
Proof.
  apply (extractEpoch_fractional_count_throws float Binary64Number decimal_BigInt
           epoch_fractional
           {| computationCost := FStr "1000000";
              storageCost := FStr "500000";
              storageRebate := FStr "300000" |} 1000000 500000 300000);
    vm_compute; reflexivity.
Defined.

(** X4.  [summarize] returns on every list of rows: its rows are the
    non-null ones, and its overall summary is [null] exactly when there is
    none. *)
Theorem summarize_returns :
  forall (num : Type) (N : JsNumber num) (rs : list (option (EpochMetric num))),
    exists s,
      summarize rs = Return s
      /\ rows s = filter_Boolean rs
      /\ (overall s = None <-> filter_Boolean rs = []).
Proof.
  intros num N rs. unfold summarize.
  destruct (Z.of_nat (List.length (filter_Boolean rs)) =? 0) eqn:E.
  - eexists. split; [reflexivity|]. cbn. split; [reflexivity|].
    apply Z.eqb_eq in E. destruct (filter_Boolean rs); [tauto | discriminate].
  - unfold BigInt_div. rewrite E. cbn [bind]. unfold mistToSuiString.
    repeat match goal with
    | |- context [divBigIntToDecimalString ?a ?b ?c] =>
        let s := fresh "s" in
        destruct (divBigIntToDecimalString_returns a b c ltac:(lia)) as [s ->];
        cbn [bind]
    end.
    eexists. split; [reflexivity|]. cbn. split; [reflexivity|].
    apply Z.eqb_neq in E. split; [discriminate|].
    intros Hnil. rewrite Hnil in E. now elim E.
Qed.

(* ------------------------------------------------------------------ *)
(** ** chooseJitter without a band *)

(** X6.  In binary64, when a bound of the band is [null] or [undefined],
    [chooseJitter] draws an integer of [-baseLow .. baseHigh], computed
    without rounding, for base magnitudes that are integers of [0, 2^50] and
    every draw of [Math.random()] in [0, 1), whatever the clamped proposal
    is. *)
Theorem chooseJitter_without_band :
  forall (u : float) (R_clamped clampMin clampMax : jsval float)
         (baseLow baseHigh : float) (bl bh : Z),
    PrimFloat.leb 0%float u = true -> PrimFloat.ltb u 1%float = true ->
    is_nullish clampMin || is_nullish clampMax = true ->
    integer64 baseLow bl -> integer64 baseHigh bh ->
    0 <= bl <= 2 ^ 50 -> 0 <= bh <= 2 ^ 50 ->
    chooseJitter u R_clamped clampMin clampMax baseLow baseHigh
    = randInt u (neg baseLow) baseHigh
    /\ exists j : Z,
         integer64 (chooseJitter u R_clamped clampMin clampMax baseLow baseHigh) j
         /\ - bl <= j <= bh.
Proof.
  intros u R_clamped clampMin clampMax baseLow baseHigh bl bh Hu0 Hu1 Hn Hbl Hbh
    Hl Hh.
  split.
  - unfold chooseJitter. now rewrite Hn.
  - exact (integer64_jitter_without_band u R_clamped clampMin clampMax baseLow
             baseHigh bl bh Hu0 Hu1 Hn Hbl Hbh Hl Hh).
Qed.

(** Magnitudes of 5 and a draw of 0.75, with the guard rails off. *)
Lemma chooseJitter_without_band_witness :
  chooseJitter 0.75%float (VNull : jsval float) VNull VNull 5%float 5%float
  = randInt 0.75%float (neg 5%float) 5%float
  /\ exists j : Z,
       integer64 (chooseJitter 0.75%float (VNull : jsval float) VNull VNull
                    5%float 5%float) j
       /\ - 5 <= j <= 5.
Proof.
  apply (chooseJitter_without_band 0.75%float VNull VNull VNull 5%float 5%float 5 5);
    try reflexivity;
    try (split; [exact Logic.I | vm_compute; reflexivity]);
    split; discriminate.
Defined.

(* ================================================================== *)
(** * The remaining helpers of src/metrics.js *)

(** ** mistToSuiString *)

(** A division to at least one decimal place returns a string that reads as
    the truncated quotient. *)
Lemma divBigIntToDecimalString_reads_as (numer denom decimals : Z) :
  denom <> 0 -> 1 <= decimals ->
  exists s,
    divBigIntToDecimalString numer denom decimals = Return s
    /\ reads_as s decimals (Z.quot (numer * 10 ^ decimals) denom).
Proof.
  intros Hd Hk.
  destruct (divBigIntToDecimalString_spec numer denom decimals Hd ltac:(lia))
    as (I & F & Hs & HI & HF & Hlen & Hv).
  eexists. split; [exact Hs|].
  exists (xorb (numer <? 0) (denom <? 0)), I, F.
  repeat split; trivial. rewrite Hlen. f_equal. lia.
Qed.

Lemma mistToSuiString_9 (mist : Z) :
  exists s, mistToSuiString mist 9 = Return s /\ reads_as s 9 mist.
Proof.
  unfold mistToSuiString, MIST_PER_SUI.
  destruct (divBigIntToDecimalString_reads_as mist 1000000000 9) as (s & Hs & Hr);
    [lia | lia |].
  exists s. split; [exact Hs|].
  change (10 ^ 9) with 1000000000 in Hr.
  rewrite Z.quot_mul in Hr by lia. exact Hr.
Qed.

Lemma mistToSuiString_6 (mist : Z) :
  exists s, mistToSuiString mist 6 = Return s /\ reads_as s 6 (Z.quot mist 1000).
Proof.
  unfold mistToSuiString, MIST_PER_SUI.
  destruct (divBigIntToDecimalString_reads_as mist 1000000000 6) as (s & Hs & Hr);
    [lia | lia |].
  exists s. split; [exact Hs|].
  change (10 ^ 6) with 1000000 in Hr.
  change 1000000000 with (1000 * 1000000) in Hr.
  rewrite Z.quot_mul_cancel_r in Hr by lia. exact Hr.
Qed.

(** X8.  [mistToSuiString] never throws.  With 9 decimals the string reads
    as the amount in MIST itself: nothing is lost.  With 6 decimals it reads
    as the amount divided by 1000 and truncated toward zero: the last three
    digits of the amount are dropped, not rounded. *)
Theorem mistToSuiString_precision :
  forall mist : Z,
    (exists s, mistToSuiString mist 9 = Return s /\ reads_as s 9 mist)
    /\ (exists s, mistToSuiString mist 6 = Return s /\ reads_as s 6 (Z.quot mist 1000)).
Proof.
  intros mist. split; [apply mistToSuiString_9 | apply mistToSuiString_6].
Qed.

(** ** summarize *)

(** X9.  When a row is valid, [summarize] returns an overall summary whose
    four amounts are means taken by BigInt division, truncated toward zero:
    the per-transaction means read, with 9 decimals, as the sum of the rows'
    per-transaction averages divided by the number of rows; the per-epoch
    means read, with 6 decimals, as the sum divided by the number of rows and
    then by 1000, truncated again. *)
Theorem summarize_means :
  forall (num : Type) (N : JsNumber num) (rs : list (option (EpochMetric num))),
    filter_Boolean rs <> [] ->
    exists s o,
      summarize rs = Return s /\ overall s = Some o
      /\ epochsIncluded o = Z.of_nat (List.length (filter_Boolean rs))
      /\ avgTotalTransactions o
         = Math_round (div (sum_num txCount (filter_Boolean rs))
                           (lit (Z.of_nat (List.length (filter_Boolean rs)))))
      /\ reads_as (avgTotalGasPerEpoch_SUI o) 6
           (Z.quot (Z.quot (sum_Z totalGasFee (filter_Boolean rs))
                           (Z.of_nat (List.length (filter_Boolean rs)))) 1000)
      /\ reads_as (avgComputationPerEpoch_SUI o) 6
           (Z.quot (Z.quot (sum_Z comp (filter_Boolean rs))
                           (Z.of_nat (List.length (filter_Boolean rs)))) 1000)
      /\ reads_as (avgTotalCostPerTx_SUI o) 9
           (Z.quot (sum_Z avgTotalPerTx (filter_Boolean rs))
                   (Z.of_nat (List.length (filter_Boolean rs))))
      /\ reads_as (avgComputationCostPerTx_SUI o) 9
           (Z.quot (sum_Z avgCompPerTx (filter_Boolean rs))
                   (Z.of_nat (List.length (filter_Boolean rs)))).
Proof.
  intros num N rs Hne. unfold summarize.
  set (r := filter_Boolean rs) in *.
  set (n := Z.of_nat (List.length r)).
  assert (Hn : (n =? 0) = false).
  { apply Z.eqb_neq. subst n. destruct r; [congruence | cbn [List.length]; lia]. }
  rewrite Hn. unfold BigInt_div. rewrite Hn. cbn [bind].
  destruct (mistToSuiString_6 (Z.quot (sum_Z totalGasFee r) n)) as (s1 & -> & H1).
  destruct (mistToSuiString_6 (Z.quot (sum_Z comp r) n)) as (s2 & -> & H2).
  destruct (mistToSuiString_9 (Z.quot (sum_Z avgTotalPerTx r) n)) as (s3 & -> & H3).
  destruct (mistToSuiString_9 (Z.quot (sum_Z avgCompPerTx r) n)) as (s4 & -> & H4).
  cbn [bind]. eexists. eexists. split; [reflexivity|].
  cbn. repeat split; trivial.
Qed.

Lemma summarize_means_witness :
  exists s o,
    summarize [None; Some (mkEpochMetric (VNum (XFin 812)) (XFin 4) 1200000 1000000
                             300000 250000 "83.33%" "N/A")]
    = Return s /\ overall s = Some o
    /\ epochsIncluded o = 1
    /\ avgTotalTransactions o = XFin 4
    /\ reads_as (avgTotalGasPerEpoch_SUI o) 6 1200
    /\ reads_as (avgComputationPerEpoch_SUI o) 6 1000
    /\ reads_as (avgTotalCostPerTx_SUI o) 9 300000
    /\ reads_as (avgComputationCostPerTx_SUI o) 9 250000.
Proof.
  apply (summarize_means xnum ExactNumber
           [None; Some (mkEpochMetric (VNum (XFin 812)) (XFin 4) 1200000 1000000
                          300000 250000 "83.33%" "N/A")]).
  discriminate.
Defined.

(** ** extractEpoch: the computation share *)

Lemma extractEpoch_share :
  forall (num : Type) (N : JsNumber num) (BigInt_of_string : string -> option Z)
         (node : EpochNode num) (m : EpochMetric num),
    extractEpoch BigInt_of_string node = Return (Some m) ->
    (totalGasFee m <= 0 -> compSharePct m = "N/A")
    /\ (0 < totalGasFee m ->
        exists s v,
          compSharePct m = s ++ "%"
          /\ reads_as s 2 v
          /\ v = Z.quot (comp m * 10000) (totalGasFee m)
          /\ (0 <= comp m <= totalGasFee m -> 0 <= v <= 10000)
          /\ (totalGasFee m < comp m -> 10000 <= v)).
Proof.
  intros num N BigInt_of_string node m. unfold extractEpoch.
  destruct (checkpoints node) as [|[r|] cks]; try discriminate.
  destruct (toBigIntOrNull BigInt_of_string (computationCost r)) as [c|];
    [|discriminate].
  destruct (toBigIntOrNull BigInt_of_string (storageCost r)) as [s|];
    [|discriminate].
  destruct (toBigIntOrNull BigInt_of_string (storageRebate r)) as [rb|];
    [|discriminate].
  set (tx := ToNumber (coalesce (totalTransactions node) (lit 0))).
  destruct (negb (isFinite tx) || leb tx (lit 0)); [discriminate|].
  destruct (toBigInt tx) as [n|]; [|discriminate].
  cbn [bind].
  destruct (BigInt_div (c + s - rb) n) as [e|q1]; [discriminate|]. cbn [bind].
  destruct (BigInt_div c n) as [e|q2]; [discriminate|]. cbn [bind].
  set (total := c + s - rb).
  destruct (0 <? total) eqn:Epos.
  - apply Z.ltb_lt in Epos.
    unfold percentFromBigInt.
    assert (E0 : (total =? 0) = false) by (apply Z.eqb_neq; lia).
    rewrite E0.
    destruct (divBigIntToDecimalString_reads_as (c * 100) total 2) as (str & -> & Hr);
      [lia | lia |].
    cbn [bind].
    destruct (match toBigIntOrNull BigInt_of_string (totalStakeRewards node) with
              | Some s0 => _ | None => _ end) as [e2|rewards]; [discriminate|].
    cbn [bind]. intros [= <-]. cbn [totalGasFee comp compSharePct].
    split; [lia|]. intros _.
    exists str, (Z.quot (c * 10000) total).
    replace (c * 100 * 10 ^ 2) with (c * 10000) in Hr by (change (10 ^ 2) with 100; lia).
    split; [reflexivity|]. split; [exact Hr|]. split; [reflexivity|]. split.
    + intros [Hc0 Hct]. split.
      * apply Z.quot_pos; lia.
      * apply Z.quot_le_upper_bound; lia.
    + intros Hlt. apply Z.quot_le_lower_bound; lia.
  - apply Z.ltb_ge in Epos. cbn [bind].
    destruct (match toBigIntOrNull BigInt_of_string (totalStakeRewards node) with
              | Some s0 => _ | None => _ end) as [e2|rewards]; [discriminate|].
    cbn [bind]. intros [= <-]. cbn [totalGasFee comp compSharePct].
    split; [reflexivity | lia].
Qed.

(** X10.  In a metric that [extractEpoch] returns, the computation share is
    "N/A" when the total gas fee is not above zero; otherwise it is a
    percentage with 2 decimals that reads as [comp * 10000 / totalGasFee]
    truncated toward zero.  It is between 0.00% and 100.00% when the
    computation cost is between 0 and the total, and at least 100.00% when
    the computation cost exceeds the total, which a storage rebate above the
    storage cost brings about. *)
Theorem extractEpoch_comp_share :
  forall (num : Type) (N : JsNumber num) (BigInt_of_string : string -> option Z)
         (node : EpochNode num) (m : EpochMetric num),
    extractEpoch BigInt_of_string node = Return (Some m) ->
    (totalGasFee m <= 0 -> compSharePct m = "N/A")
    /\ (0 < totalGasFee m ->
        exists s v,
          compSharePct m = s ++ "%"
          /\ reads_as s 2 v
          /\ v = Z.quot (comp m * 10000) (totalGasFee m)
          /\ (0 <= comp m <= totalGasFee m -> 0 <= v <= 10000)
          /\ (totalGasFee m < comp m -> 10000 <= v)).
Proof.
  intros num N BigInt_of_string node m Hm.
  destruct (extractEpoch_share num N BigInt_of_string node m) as [H1 H2]; [exact Hm|].
  split; [exact H1 | exact H2].
Qed.

Lemma extractEpoch_comp_share_witness :
  exists m,
    extractEpoch decimal_BigInt epoch_typical = Return (Some m)
    /\ (0 < totalGasFee m ->
        exists s v,
          compSharePct m = s ++ "%"
          /\ reads_as s 2 v
          /\ v = Z.quot (comp m * 10000) (totalGasFee m)
          /\ (0 <= comp m <= totalGasFee m -> 0 <= v <= 10000)
          /\ (totalGasFee m < comp m -> 10000 <= v)).
Proof.
  eexists. split; [vm_compute; reflexivity|].
  apply (extractEpoch_comp_share float Binary64Number decimal_BigInt epoch_typical).
  vm_compute. reflexivity.
Defined.

(** ** getLatestEpochRGP *)

Lemma later_epoch_latest (seen : list (option (RawNode xnum)))
    (latest n : option (RawNode xnum)) :
  (forall n', has_reference_price (Some n') = true ->
              In (Some n') (seen ++ [n]) -> Number_isFinite (raw_epochId n') = true) ->
  latest_of seen latest -> latest_of (seen ++ [n]) (later_epoch latest n).
Proof.
  intros Hfin Hinv. unfold later_epoch.
  destruct (has_reference_price n) eqn:Hn.
  - destruct n as [n|]; [|discriminate Hn].
    assert (Fn : Number_isFinite (raw_epochId n) = true).
    { apply Hfin; [exact Hn|]. apply in_or_app. right. now left. }
    destruct (raw_epochId n) as [| |[| |qn]] eqn:En; try discriminate Fn.
    destruct latest as [l|].
    + destruct Hinv as (Hl & Hlq & Hmax).
      assert (Fl : Number_isFinite (raw_epochId l) = true).
      { apply Hfin; [exact Hlq|]. apply in_or_app. now left. }
      destruct (raw_epochId l) as [| |[| |ql]] eqn:El; try discriminate Fl.
      cbn [ToNumber] in *.
      change (ltb (XFin ql) (XFin qn)) with (Qlt_bool ql qn).
      destruct (Qlt_bool ql qn) eqn:E; qprop.
      * (* the node is later *)
        split; [apply in_or_app; right; now left|]. split; [exact Hn|].
        intros n' Hin Hq. rewrite En. cbn [ToNumber].
        apply in_app_or in Hin. destruct Hin as [Hin|[[= <-]|[]]].
        -- specialize (Hmax n' Hin Hq).
           destruct (ToNumber (raw_epochId n')) as [|b|q']; cbn in Hmax |- *;
             try discriminate Hmax.
           ++ exact Hmax.
           ++ qprop. lra.
        -- rewrite En. cbn. qprop. lra.
      * (* the node is not later *)
        split; [apply in_or_app; now left|]. split; [exact Hlq|].
        intros n' Hin Hq. rewrite El. cbn [ToNumber].
        apply in_app_or in Hin. destruct Hin as [Hin|[[= <-]|[]]].
        -- exact (Hmax n' Hin Hq).
        -- rewrite En. cbn. qprop. exact E.
    + (* the first node with a reference price *)
      split; [apply in_or_app; right; now left|]. split; [exact Hn|].
      intros n' Hin Hq. apply in_app_or in Hin. destruct Hin as [Hin|[[= <-]|[]]].
      * rewrite (Hinv _ Hin) in Hq. discriminate Hq.
      * rewrite En. cbn. qprop. lra.
  - destruct latest as [l|].
    + destruct Hinv as (Hl & Hlq & Hmax).
      split; [apply in_or_app; now left|]. split; [exact Hlq|].
      intros n' Hin Hq. apply in_app_or in Hin. destruct Hin as [Hin|[E|[]]].
      * now apply Hmax.
      * rewrite <- E in Hq. congruence.
    + intros n' Hin. apply in_app_or in Hin. destruct Hin as [Hin|[<-|[]]].
      * now apply Hinv.
      * exact Hn.
Qed.

Lemma fold_later_epoch_latest (nodes seen : list (option (RawNode xnum)))
    (latest : option (RawNode xnum)) :
  (forall n', has_reference_price (Some n') = true ->
              In (Some n') (seen ++ nodes) -> Number_isFinite (raw_epochId n') = true) ->
  latest_of seen latest ->
  latest_of (seen ++ nodes) (fold_left later_epoch nodes latest).
Proof.
  revert seen latest. induction nodes as [|n nodes IH]; intros seen latest Hfin Hinv.
  - rewrite app_nil_r. exact Hinv.
  - cbn [fold_left].
    replace (seen ++ n :: nodes)%list with ((seen ++ [n]) ++ nodes)%list
      by (rewrite <- app_assoc; reflexivity).
    apply IH.
    + intros n' Hq Hin. apply Hfin; [exact Hq|].
      rewrite <- app_assoc in Hin. exact Hin.
    + apply later_epoch_latest; [|exact Hinv].
      intros n' Hq Hin. apply Hfin; [exact Hq|].
      apply in_app_or in Hin. apply in_or_app.
      destruct Hin as [Hin|[<-|[]]]; [now left | right; now left].
Qed.

(** X11.  [getLatestEpochRGP] returns two [null]s when no node has both an
    epoch number and a reference gas price.  Otherwise, when the epoch
    numbers of such nodes are finite, it returns the epoch number of one of
    them that no other exceeds, with the reference gas price of that node as
    a Number, or [null] if it does not convert to a finite one. *)
Theorem getLatestEpochRGP_latest :
  forall (Number_of_string : string -> xnum) (rawNodes : list (option (RawNode xnum))),
    (forall n, In (Some n) rawNodes -> has_reference_price (Some n) = true ->
               Number_isFinite (raw_epochId n) = true) ->
    ((forall n, In n rawNodes -> has_reference_price n = false) ->
     getLatestEpochRGP Number_of_string rawNodes
     = {| latest_epochId := VNull; latest_referenceGasPrice := VNull |})
    /\ ((exists n, In n rawNodes /\ has_reference_price n = true) ->
        exists l,
          In (Some l) rawNodes /\ has_reference_price (Some l) = true
          /\ latest_epochId (getLatestEpochRGP Number_of_string rawNodes)
             = VNum (ToNumber (raw_epochId l))
          /\ latest_referenceGasPrice (getLatestEpochRGP Number_of_string rawNodes)
             = (if isFinite (Number_of_field Number_of_string (referenceGasPrice l))
                then VNum (Number_of_field Number_of_string (referenceGasPrice l))
                else VNull)
          /\ forall n, In (Some n) rawNodes -> has_reference_price (Some n) = true ->
                       leb (ToNumber (raw_epochId n)) (ToNumber (raw_epochId l)) = true).
Proof.
  intros Number_of_string rawNodes Hfin.
  assert (Hinv : latest_of rawNodes (fold_left later_epoch rawNodes None)).
  { apply (fold_later_epoch_latest rawNodes [] None).
    - intros n' Hq Hin. now apply Hfin.
    - intros n []. }
  unfold getLatestEpochRGP.
  destruct (fold_left later_epoch rawNodes None) as [l|]; cbn [latest_of] in Hinv.
  - destruct Hinv as (Hl & Hlq & Hmax). split.
    + intros Hnone. rewrite (Hnone _ Hl) in Hlq. discriminate Hlq.
    + intros _. exists l. cbn [latest_epochId latest_referenceGasPrice].
      repeat split; trivial.
  - split; [reflexivity|].
    intros (n & Hin & Hq). rewrite (Hinv n Hin) in Hq. discriminate Hq.
Qed.

Lemma getLatestEpochRGP_latest_witness :
  ((forall n, In n latest_sample -> has_reference_price n = false) ->
   getLatestEpochRGP Number_of_digits latest_sample
   = {| latest_epochId := VNull; latest_referenceGasPrice := VNull |})
  /\ ((exists n, In n latest_sample /\ has_reference_price n = true) ->
      exists l,
        In (Some l) latest_sample /\ has_reference_price (Some l) = true
        /\ latest_epochId (getLatestEpochRGP Number_of_digits latest_sample)
           = VNum (ToNumber (raw_epochId l))
        /\ latest_referenceGasPrice (getLatestEpochRGP Number_of_digits latest_sample)
           = (if isFinite (Number_of_field Number_of_digits (referenceGasPrice l))
              then VNum (Number_of_field Number_of_digits (referenceGasPrice l))
              else VNull)
        /\ forall n, In (Some n) latest_sample -> has_reference_price (Some n) = true ->
                     leb (ToNumber (raw_epochId n)) (ToNumber (raw_epochId l)) = true).
Proof.
  apply (getLatestEpochRGP_latest Number_of_digits latest_sample).
  intros n Hin Hq. unfold latest_sample in Hin. cbn [In] in Hin.
  destruct Hin as [E|[E|[E|[E|[]]]]]; try discriminate E;
    injection E as <-; try reflexivity; discriminate Hq.
Defined.

(* ================================================================== *)
(** * The configuration and the top-level calls *)

(** ** Reading the configuration *)

Section Configuration.

Context {num : Type} `{JsNumberLaws num}.

Variable Number_of_string : string -> num.
Variable JSON_parse : string -> outcome (json num).
Variable Number_of_object : json num -> outcome num.
Variable env : string -> option string.

Lemma isFinite_NaN : isFinite (NaN : num) = false.
Proof.
  destruct (isFinite (NaN : num)) eqn:E; [|reflexivity].
  apply isFinite_not_NaN in E. rewrite NaN_isNaN in E. discriminate E.
Qed.

(** [Math.max(0, y)], when it is finite, is not below 0. *)
Lemma Math_max_zero_nonneg (y : num) :
  isFinite (Math_max (lit 0) y) = true -> leb (lit 0) (Math_max (lit 0) y) = true.
Proof.
  unfold Math_max.
  destruct (isNaN (lit 0) || isNaN y); [rewrite isFinite_NaN; discriminate|].
  intros _. destruct (ltb (lit 0) y) eqn:E.
  - now apply ltb_leb.
  - apply lit_0_leb.
Qed.

Lemma parseNumberEnv_finite (name : string) (def : jsval num) :
  parseNumberEnv Number_of_string env name def = def
  \/ exists n, parseNumberEnv Number_of_string env name def = VNum n
               /\ isFinite n = true.
Proof.
  unfold parseNumberEnv. destruct (env name) as [v|]; [|now left].
  destruct (isFinite (Number_of_string v)) eqn:E; [|now left].
  right. eexists. split; [reflexivity | exact E].
Qed.

Lemma parseGuardRailsEnv_finite (name : string) (def : num * num) :
  parseGuardRailsEnv Number_of_string JSON_parse Number_of_object env name def = def
  \/ (isFinite (fst (parseGuardRailsEnv Number_of_string JSON_parse Number_of_object
                       env name def)) = true
      /\ isFinite (snd (parseGuardRailsEnv Number_of_string JSON_parse Number_of_object
                          env name def)) = true).
Proof.
  unfold parseGuardRailsEnv. destruct (env name) as [raw|]; [|now left].
  destruct (String.eqb raw ""); [now left|].
  destruct (JSON_parse raw) as [e|arr]; [now left|]. cbn [bind].
  destruct arr as [| | | |[|arr0 [|arr1 [|arr2 items]]]|]; try (now left).
  destruct (Number_of_json Number_of_string Number_of_object arr0) as [e|low];
    [now left|]. cbn [bind].
  destruct (Number_of_json Number_of_string Number_of_object arr1) as [e|high];
    [now left|]. cbn [bind].
  destruct (isFinite low) eqn:El; [|now left].
  destruct (isFinite high) eqn:Eh; [|now left].
  right. cbn. now split.
Qed.

Lemma parseJitterRangeEnv_finite (name : string) (def : num * num) :
  parseJitterRangeEnv Number_of_string JSON_parse Number_of_object env name def = def
  \/ (isFinite (fst (parseJitterRangeEnv Number_of_string JSON_parse Number_of_object
                       env name def)) = true
      /\ isFinite (snd (parseJitterRangeEnv Number_of_string JSON_parse Number_of_object
                          env name def)) = true
      /\ leb (lit 0) (fst (parseJitterRangeEnv Number_of_string JSON_parse
                             Number_of_object env name def)) = true
      /\ leb (lit 0) (snd (parseJitterRangeEnv Number_of_string JSON_parse
                             Number_of_object env name def)) = true).
Proof.
  unfold parseJitterRangeEnv. destruct (env name) as [raw|]; [|now left].
  destruct (String.eqb raw ""); [now left|].
  destruct (JSON_parse raw) as [e|arr]; [now left|]. cbn [bind].
  destruct arr as [| | | |[|arr0 [|arr1 [|arr2 items]]]|]; try (now left).
  destruct (Number_of_json Number_of_string Number_of_object arr0) as [e|n0];
    [now left|]. cbn [bind].
  destruct (Number_of_json Number_of_string Number_of_object arr1) as [e|n1];
    [now left|]. cbn [bind].
  destruct (isFinite (Math_max (lit 0) (Math_floor n0))) eqn:Ea; [|now left].
  destruct (isFinite (Math_max (lit 0) (Math_floor n1))) eqn:Eb; [|now left].
  right. cbn. repeat split; trivial; now apply Math_max_zero_nonneg.
Qed.

Lemma parseJitterRangeEnv_unset (name : string) (def : num * num) :
  env name = None \/ env name = Some "" ->
  parseJitterRangeEnv Number_of_string JSON_parse Number_of_object env name def = def.
Proof.
  unfold parseJitterRangeEnv. intros [-> | ->]; reflexivity.
Qed.

End Configuration.

(** X12.  The readers of the configuration never throw and return finite
    Numbers or the default: [parseNumberEnv] a finite Number or [def];
    [parseGuardRailsEnv] two finite Numbers or [def]; [parseJitterRangeEnv]
    two finite Numbers that are not below 0, or [def].  [def] is returned as
    it is given: [parseJitterRangeEnv] does not turn a negative default into
    a magnitude. *)
Theorem configuration_finite_or_default :
  forall (num : Type) (N : JsNumber num) (L : JsNumberLaws num)
         (Number_of_string : string -> num)
         (JSON_parse : string -> outcome (json num))
         (Number_of_object : json num -> outcome num)
         (env : string -> option string) (name : string),
    (forall def,
        parseNumberEnv Number_of_string env name def = def
        \/ exists n, parseNumberEnv Number_of_string env name def = VNum n
                     /\ isFinite n = true)
    /\ (forall def,
           let r := parseGuardRailsEnv Number_of_string JSON_parse Number_of_object
                      env name def in
           r = def \/ (isFinite (fst r) = true /\ isFinite (snd r) = true))
    /\ (forall def,
           let r := parseJitterRangeEnv Number_of_string JSON_parse Number_of_object
                      env name def in
           r = def
           \/ (isFinite (fst r) = true /\ isFinite (snd r) = true
               /\ leb (lit 0) (fst r) = true /\ leb (lit 0) (snd r) = true))
    /\ (forall def,
           env name = None \/ env name = Some "" ->
           parseJitterRangeEnv Number_of_string JSON_parse Number_of_object
             env name def = def).
Proof.
  intros num N L Number_of_string JSON_parse Number_of_object env name.
  split; [|split; [|split]].
  - apply parseNumberEnv_finite.
  - intros def. apply parseGuardRailsEnv_finite.
  - intros def. apply parseJitterRangeEnv_finite.
  - intros def. apply parseJitterRangeEnv_unset.
Qed.

(** ** computeRgp *)

Section ComputeRgpCall.

Context {num : Type} `{JsNumberLaws num}.

Variable Number_of_string : string -> num.
Variable String_toLowerCase : string -> string.
Variable String_trim : string -> string.
Variable JSON_parse : string -> outcome (json num).
Variable Number_of_object : json num -> outcome num.
Variable env : string -> option string.

Let target := parseNumberEnv Number_of_string env "TARGET_AVG_TX_USD" (VNum NaN).
Let options :=
  optionsFromEnv Number_of_string String_toLowerCase String_trim JSON_parse
    Number_of_object env.

(** The target is a positive Number only if the variable is set to one. *)
Lemma target_positive :
  is_positive target = true ->
  exists v, env "TARGET_AVG_TX_USD" = Some v /\ target = VNum (Number_of_string v).
Proof.
  subst target. unfold parseNumberEnv.
  destruct (env "TARGET_AVG_TX_USD") as [v|].
  - destruct (isFinite (Number_of_string v)) eqn:E.
    + intros _. now exists v.
    + unfold is_positive. cbn. now rewrite isFinite_NaN.
  - unfold is_positive. cbn. now rewrite isFinite_NaN.
Qed.

Lemma target_invalid :
  env "TARGET_AVG_TX_USD" = None
  \/ (exists v, env "TARGET_AVG_TX_USD" = Some v
                /\ (isFinite (Number_of_string v) = false
                    \/ leb (Number_of_string v) (lit 0) = true)) ->
  negb (Number_isFinite target) || js_le target (VNum (lit 0)) = true.
Proof.
  subst target. unfold parseNumberEnv. intros [-> | (v & -> & Hv)].
  - cbn. now rewrite isFinite_NaN.
  - destruct (isFinite (Number_of_string v)) eqn:E.
    + destruct Hv as [Hv|Hv]; [discriminate Hv|].
      cbn. rewrite E. exact Hv.
    + cbn. now rewrite isFinite_NaN.
Qed.

Lemma computeRgp_returns (p : MetricsForRgp num) (u : num) (c : RgpComputation num) :
  computeRgp Number_of_string String_toLowerCase String_trim JSON_parse
    Number_of_object env (Return p) u = Return c ->
  valid_inputs target (avgCompShare p) (avgComputationCostPerTx_USD p)
    (lastEpochReferenceGasPrice p) = true
  /\ computeNewRgpFromInputs target (avgCompShare p) (avgComputationCostPerTx_USD p)
       (lastEpochReferenceGasPrice p) options u = Return (result c)
  /\ epoch c = or_null (latestEpoch_epochId p).
Proof.
  unfold computeRgp. cbn [bind]. fold target. fold options.
  destruct (valid_inputs target (avgCompShare p) (avgComputationCostPerTx_USD p)
              (lastEpochReferenceGasPrice p)) eqn:Hv.
  - destruct (computeNewRgpFromInputs target (avgCompShare p)
                (avgComputationCostPerTx_USD p) (lastEpochReferenceGasPrice p)
                options u) as [m|r]; [discriminate|].
    cbn [bind]. intros [= <-]. cbn. repeat split.
  - destruct (compute_invalid target (avgCompShare p) (avgComputationCostPerTx_USD p)
                (lastEpochReferenceGasPrice p) options u Hv) as [m ->].
    discriminate.
Qed.

End ComputeRgpCall.

Lemma configuration_finite_or_default_witness :
  (forall def,
      parseNumberEnv sample_Number env_update "RGP_JITTER_RANGE" def = def
      \/ exists n, parseNumberEnv sample_Number env_update "RGP_JITTER_RANGE" def = VNum n
                   /\ isFinite n = true)
  /\ (forall def,
         let r := parseGuardRailsEnv sample_Number sample_JSON_parse
                    sample_Number_of_object env_update "RGP_JITTER_RANGE" def in
         r = def \/ (isFinite (fst r) = true /\ isFinite (snd r) = true))
  /\ (forall def,
         let r := parseJitterRangeEnv sample_Number sample_JSON_parse
                    sample_Number_of_object env_update "RGP_JITTER_RANGE" def in
         r = def
         \/ (isFinite (fst r) = true /\ isFinite (snd r) = true
             /\ leb (lit 0) (fst r) = true /\ leb (lit 0) (snd r) = true))
  /\ (forall def,
         env_update "RGP_JITTER_RANGE" = None
         \/ env_update "RGP_JITTER_RANGE" = Some "" ->
         parseJitterRangeEnv sample_Number sample_JSON_parse
           sample_Number_of_object env_update "RGP_JITTER_RANGE" def = def).
Proof.
  exact (configuration_finite_or_default float Binary64Number Binary64Laws
           sample_Number sample_JSON_parse sample_Number_of_object env_update
           "RGP_JITTER_RANGE").
Defined.

(** X13.  [computeRgp] throws "Invalid TARGET_AVG_TX_USD" when the variable
    TARGET_AVG_TX_USD is unset or does not convert to a finite Number above
    zero, whatever the metrics are, and it throws when the metrics carry no
    reference gas price.  When it returns, the variable is set, the four
    inputs are valid, the result is that of [computeNewRgpFromInputs] on
    them with the options read from the environment, and [epoch] is the
    latest epoch of the metrics, or [null]. *)
Theorem computeRgp_validation :
  forall (num : Type) (N : JsNumber num) (L : JsNumberLaws num)
         (Number_of_string : string -> num)
         (String_toLowerCase String_trim : string -> string)
         (JSON_parse : string -> outcome (json num))
         (Number_of_object : json num -> outcome num)
         (env : string -> option string) (p : MetricsForRgp num) (u : num),
    (env "TARGET_AVG_TX_USD" = None
     \/ (exists v, env "TARGET_AVG_TX_USD" = Some v
                   /\ (isFinite (Number_of_string v) = false
                       \/ leb (Number_of_string v) (lit 0) = true)) ->
     computeRgp Number_of_string String_toLowerCase String_trim JSON_parse
       Number_of_object env (Return p) u
     = Throw "Invalid TARGET_AVG_TX_USD (must be a positive number)")
    /\ (is_nullish (lastEpochReferenceGasPrice p) = true ->
        exists message,
          computeRgp Number_of_string String_toLowerCase String_trim JSON_parse
            Number_of_object env (Return p) u = Throw message)
    /\ (forall c,
           computeRgp Number_of_string String_toLowerCase String_trim JSON_parse
             Number_of_object env (Return p) u = Return c ->
           exists v,
             env "TARGET_AVG_TX_USD" = Some v
             /\ valid_inputs (VNum (Number_of_string v)) (avgCompShare p)
                  (avgComputationCostPerTx_USD p) (lastEpochReferenceGasPrice p) = true
             /\ computeNewRgpFromInputs (VNum (Number_of_string v)) (avgCompShare p)
                  (avgComputationCostPerTx_USD p) (lastEpochReferenceGasPrice p)
                  (optionsFromEnv Number_of_string String_toLowerCase String_trim
                     JSON_parse Number_of_object env) u
                = Return (result c)
             /\ epoch c = or_null (latestEpoch_epochId p)).
Proof.
  intros num N L Number_of_string String_toLowerCase String_trim JSON_parse
    Number_of_object env p u.
  assert (Hret : forall c,
    computeRgp Number_of_string String_toLowerCase String_trim JSON_parse
      Number_of_object env (Return p) u = Return c ->
    exists v,
      env "TARGET_AVG_TX_USD" = Some v
      /\ valid_inputs (VNum (Number_of_string v)) (avgCompShare p)
           (avgComputationCostPerTx_USD p) (lastEpochReferenceGasPrice p) = true
      /\ computeNewRgpFromInputs (VNum (Number_of_string v)) (avgCompShare p)
           (avgComputationCostPerTx_USD p) (lastEpochReferenceGasPrice p)
           (optionsFromEnv Number_of_string String_toLowerCase String_trim
              JSON_parse Number_of_object env) u
         = Return (result c)
      /\ epoch c = or_null (latestEpoch_epochId p)).
  { intros c Hc.
    destruct (computeRgp_returns Number_of_string String_toLowerCase String_trim
                JSON_parse Number_of_object env p u c Hc) as (Hv & Hr & He).
    assert (Ht : is_positive (parseNumberEnv Number_of_string env "TARGET_AVG_TX_USD"
                                (VNum NaN)) = true).
    { unfold valid_inputs in Hv. rewrite !andb_true_iff in Hv. tauto. }
    destruct (target_positive Number_of_string env Ht) as (v & Henv & Hpar).
    rewrite Hpar in Hv, Hr. exists v. repeat split; trivial. }
  split; [|split; [|exact Hret]].
  - intros Hbad.
    pose proof (target_invalid Number_of_string env Hbad) as Ht.
    unfold computeRgp. cbn [bind]. unfold computeNewRgpFromInputs.
    rewrite Ht. reflexivity.
  - intros Hnull.
    destruct (computeRgp Number_of_string String_toLowerCase String_trim JSON_parse
                Number_of_object env (Return p) u) as [m|c] eqn:Hc; [now exists m|].
    destruct (Hret c eq_refl) as (v & _ & Hv & _).
    unfold valid_inputs in Hv. rewrite !andb_true_iff in Hv.
    destruct Hv as [_ Hr]. unfold is_positive in Hr.
    destruct (lastEpochReferenceGasPrice p); discriminate.
Qed.

Lemma computeRgp_validation_witness :
  computeRgp sample_Number ascii_toLowerCase ascii_trim sample_JSON_parse
    sample_Number_of_object env_empty (Return metrics64) 0.5%float
  = Throw "Invalid TARGET_AVG_TX_USD (must be a positive number)".
Proof.
  apply (computeRgp_validation float Binary64Number Binary64Laws
           sample_Number ascii_toLowerCase ascii_trim sample_JSON_parse
           sample_Number_of_object env_empty metrics64 0.5%float).
  left. reflexivity.
Defined.

(** ** The options that computeRgp reads *)

Section OptionsFromEnv.

Context {num : Type} {N : JsNumber num} {L : JsNumberLaws num}
        {A : JsArithmeticLaws num}.

Variable Number_of_string : string -> num.
Variable String_toLowerCase : string -> string.
Variable String_trim : string -> string.
Variable JSON_parse : string -> outcome (json num).
Variable Number_of_object : json num -> outcome num.
Variable env : string -> option string.

Let options :=
  optionsFromEnv Number_of_string String_toLowerCase String_trim JSON_parse
    Number_of_object env.

(** The step is a finite Number. *)
Lemma optionsFromEnv_step : finite_or_absent (roundStep options) = true.
Proof.
  subst options. unfold optionsFromEnv. cbn [roundStep].
  destruct (parseNumberEnv_finite Number_of_string env "RGP_ROUND_STEP" (VNum (lit 1)))
    as [-> | (n & -> & Hn)].
  - unfold finite_or_absent. cbn. apply lit_isFinite. split; reflexivity.
  - unfold finite_or_absent. cbn. exact Hn.
Qed.

Lemma optionsFromEnv_max_unset :
  env "RGP_MAX_MIST" = None -> maxRgpMist options = VUndef.
Proof.
  intros He. subst options. unfold optionsFromEnv. cbn [maxRgpMist].
  unfold parseNumberEnv. rewrite He. reflexivity.
Qed.

Lemma optionsFromEnv_min_unset :
  env "RGP_MIN_MIST" = None -> minRgpMist options = VUndef.
Proof.
  intros He. subst options. unfold optionsFromEnv. cbn [minRgpMist].
  unfold parseNumberEnv. rewrite He. reflexivity.
Qed.

Lemma optionsFromEnv_max (v : string) (mx : Z) :
  env "RGP_MAX_MIST" = Some v -> Number_of_string v = lit mx ->
  - 2 ^ 53 < mx < 2 ^ 53 -> maxRgpMist options = VNum (lit mx).
Proof.
  intros He Hv Hb. subst options. unfold optionsFromEnv. cbn [maxRgpMist].
  unfold parseNumberEnv. rewrite He, Hv, (lit_isFinite mx Hb).
  cbn. now rewrite (lit_isFinite mx Hb).
Qed.

Lemma optionsFromEnv_min (v : string) (mn : Z) :
  env "RGP_MIN_MIST" = Some v -> Number_of_string v = lit mn ->
  - 2 ^ 53 < mn < 2 ^ 53 -> minRgpMist options = VNum (lit mn).
Proof.
  intros He Hv Hb. subst options. unfold optionsFromEnv. cbn [minRgpMist].
  unfold parseNumberEnv. rewrite He, Hv, (lit_isFinite mn Hb).
  cbn. now rewrite (lit_isFinite mn Hb).
Qed.

Lemma optionsFromEnv_step_unset :
  env "RGP_ROUND_STEP" = None -> roundStep options = VNum (lit 1).
Proof.
  intros He. subst options. unfold optionsFromEnv. cbn [roundStep].
  unfold parseNumberEnv. now rewrite He.
Qed.

Lemma optionsFromEnv_jitter_unset :
  env "RGP_JITTER_RANGE" = None \/ env "RGP_JITTER_RANGE" = Some "" ->
  jitterRange options = Some (lit (-10), lit 10).
Proof.
  intros He. subst options. unfold optionsFromEnv. cbn [jitterRange].
  now rewrite (parseJitterRangeEnv_unset Number_of_string JSON_parse
                 Number_of_object env "RGP_JITTER_RANGE" (lit (-10), lit 10) He).
Qed.

(** The trace of a call of [computeRgp] that returns. *)
Lemma computeRgp_trace (p : MetricsForRgp num) (u : num) (c : RgpComputation num) :
  computeRgp Number_of_string String_toLowerCase String_trim JSON_parse
    Number_of_object env (Return p) u = Return c ->
  let r := result c in
  guardRails (ToNumber (lastEpochReferenceGasPrice p)) options
  = (clampMin (calc r), clampMax (calc r))
  /\ leb (lit 0) (R_raw (calc r)) = true
  /\ R_clamped (calc r)
     = clamp (VNum (R_raw (calc r))) (clampMin (calc r)) (clampMax (calc r))
  /\ in_jitterRange (inputs r) = jitterBase options
  /\ jitter (calc r)
     = chooseJitter u (R_clamped (calc r)) (clampMin (calc r)) (clampMax (calc r))
         (fst (jitterBase options)) (snd (jitterBase options))
  /\ proposedRgpMist r = finalize (R_clamped (calc r)) (jitter (calc r)) options.
Proof.
  intros Hc. cbn zeta.
  destruct (computeRgp_returns Number_of_string String_toLowerCase String_trim
              JSON_parse Number_of_object env p u c Hc) as (Hv & Hr & _).
  fold options in Hr.
  destruct (compute_valid _ _ _ _ options u Hv)
    as (r & Hr' & HC & Hk & HR & Hg & Hcl & Hj & Hf & Hp & Hin).
  assert (r = result c) by congruence. subst r.
  split; [symmetry; exact Hg|]. split.
  { rewrite HR, Hk, HC. now apply R_raw_nonneg. }
  split; [exact Hcl|]. split; [|split; [exact Hj | now rewrite Hp, Hf]].
  pose proof Hr as Hr2. unfold computeNewRgpFromInputs in Hr2.
  repeat match type of Hr2 with
  | (if ?b then Throw _ else _) = _ => destruct b; [discriminate Hr2|]
  end.
  destruct (guardRails _ options) as [cmin cmax].
  unfold jitterBase.
  destruct (match jitterRange options with Some r => r | None => (lit 5, lit 5) end)
    as [bl bh].
  injection Hr2 as <-. reflexivity.
Qed.

End OptionsFromEnv.

(** ** The default jitter range *)

(** X14.  When RGP_JITTER_RANGE is unset or empty, [computeRgp] hands its
    default, the range [-10, 10], to [chooseJitter] as it is, and
    [chooseJitter] takes the two numbers for magnitudes: the result echoes
    the range [-10, 10], the low end of the base range is [-(-10)], and the
    jitter is [randInt(-(-10), 10)] without a band, [randInt(0, 10)] at the
    minimum clamp and [randInt(-(-10), 0)] at the maximum clamp; this in
    every model of Numbers that satisfies the laws, binary64 among them.  In
    binary64, whatever the draw in [0, 1): without a band the jitter is 10,
    at the minimum clamp it is an integer of [0, 10], and at the maximum
    clamp an integer of [1, 10], never one that lowers the proposal.
    And on the sample metrics with a target of 0.008 USD, in binary64, the
    raw proposal 1200 is clamped to the maximum, 700; the jitter of a draw
    of 0.5 is +5, and the proposal returned is 705, above the upper guard
    rail. *)
Theorem computeRgp_default_jitter_range :
  (forall (num : Type) (N : JsNumber num) (L : JsNumberLaws num)
          (Number_of_string : string -> num)
          (String_toLowerCase String_trim : string -> string)
          (JSON_parse : string -> outcome (json num))
          (Number_of_object : json num -> outcome num)
          (env : string -> option string)
          (p : MetricsForRgp num) (u : num) (c : RgpComputation num),
      env "RGP_JITTER_RANGE" = None \/ env "RGP_JITTER_RANGE" = Some "" ->
      computeRgp Number_of_string String_toLowerCase String_trim JSON_parse
        Number_of_object env (Return p) u = Return c ->
      let r := result c in
      in_jitterRange (inputs r) = (lit (-10), lit 10)
      /\ jitter (calc r)
         = chooseJitter u (R_clamped (calc r)) (clampMin (calc r)) (clampMax (calc r))
             (lit (-10)) (lit 10)
      /\ (is_nullish (clampMin (calc r)) = true ->
          jitter (calc r) = randInt u (neg (lit (-10))) (lit 10))
      /\ (Number_isFinite (clampMin (calc r)) = true ->
          Number_isFinite (clampMax (calc r)) = true ->
          strict_eq (R_clamped (calc r)) (clampMin (calc r)) = true ->
          jitter (calc r) = randInt u (lit 0) (lit 10))
      /\ (Number_isFinite (clampMin (calc r)) = true ->
          Number_isFinite (clampMax (calc r)) = true ->
          strict_eq (R_clamped (calc r)) (clampMin (calc r)) = false ->
          strict_eq (R_clamped (calc r)) (clampMax (calc r)) = true ->
          jitter (calc r) = randInt u (neg (lit (-10))) (lit 0)))
  /\ (forall (Number_of_string : string -> float)
             (String_toLowerCase String_trim : string -> string)
             (JSON_parse : string -> outcome (json float))
             (Number_of_object : json float -> outcome float)
             (env : string -> option string)
             (p : MetricsForRgp float) (u : float) (c : RgpComputation float),
         PrimFloat.leb 0%float u = true -> PrimFloat.ltb u 1%float = true ->
         env "RGP_JITTER_RANGE" = None \/ env "RGP_JITTER_RANGE" = Some "" ->
         computeRgp Number_of_string String_toLowerCase String_trim JSON_parse
           Number_of_object env (Return p) u = Return c ->
         let r := result c in
         (is_nullish (clampMin (calc r)) = true -> jitter (calc r) = 10%float)
         /\ (Number_isFinite (clampMin (calc r)) = true ->
             Number_isFinite (clampMax (calc r)) = true ->
             strict_eq (R_clamped (calc r)) (clampMin (calc r)) = true ->
             exists j : Z, integer64 (jitter (calc r)) j /\ 0 <= j <= 10)
         /\ (Number_isFinite (clampMin (calc r)) = true ->
             Number_isFinite (clampMax (calc r)) = true ->
             strict_eq (R_clamped (calc r)) (clampMin (calc r)) = false ->
             strict_eq (R_clamped (calc r)) (clampMax (calc r)) = true ->
             exists j : Z, integer64 (jitter (calc r)) j /\ 1 <= j <= 10))
  /\ (exists c,
         computeRgp sample_Number ascii_toLowerCase ascii_trim sample_JSON_parse
           sample_Number_of_object env_target_high (Return metrics64) 0.5%float
         = Return c
         /\ R_raw (calc (result c)) = 1200%float
         /\ clampMax (calc (result c)) = VNum 700%float
         /\ R_clamped (calc (result c)) = VNum 700%float
         /\ jitter (calc (result c)) = 5%float
         /\ proposedRgpMist (result c) = 705%float
         /\ js_gt (VNum (proposedRgpMist (result c))) (clampMax (calc (result c)))
            = true).
Proof.
  assert (Hgen : forall (num : Type) (N : JsNumber num) (L : JsNumberLaws num)
          (Number_of_string : string -> num)
          (String_toLowerCase String_trim : string -> string)
          (JSON_parse : string -> outcome (json num))
          (Number_of_object : json num -> outcome num)
          (env : string -> option string)
          (p : MetricsForRgp num) (u : num) (c : RgpComputation num),
      env "RGP_JITTER_RANGE" = None \/ env "RGP_JITTER_RANGE" = Some "" ->
      computeRgp Number_of_string String_toLowerCase String_trim JSON_parse
        Number_of_object env (Return p) u = Return c ->
      in_jitterRange (inputs (result c)) = (lit (-10), lit 10)
      /\ jitter (calc (result c))
         = chooseJitter u (R_clamped (calc (result c))) (clampMin (calc (result c)))
             (clampMax (calc (result c))) (lit (-10)) (lit 10)).
  { intros num N L Number_of_string String_toLowerCase String_trim JSON_parse
      Number_of_object env p u c Henv Hc.
    destruct (computeRgp_trace Number_of_string String_toLowerCase String_trim
                JSON_parse Number_of_object env p u c Hc)
      as (_ & _ & _ & Hin & Hj & _).
    unfold jitterBase in Hin, Hj.
    rewrite (optionsFromEnv_jitter_unset Number_of_string String_toLowerCase
               String_trim JSON_parse Number_of_object env Henv) in Hin, Hj.
    split; [exact Hin | exact Hj]. }
  split; [|split].
  - intros num N L Number_of_string String_toLowerCase String_trim JSON_parse
      Number_of_object env p u c Henv Hc. cbn zeta.
    destruct (Hgen num N L Number_of_string String_toLowerCase String_trim JSON_parse
                Number_of_object env p u c Henv Hc) as [Hin Hj].
    split; [exact Hin|]. split; [exact Hj|].
    rewrite Hj. unfold chooseJitter. split; [|split].
    + intros ->. reflexivity.
    + intros Hmin Hmax Heq.
      assert (Hn1 : is_nullish (clampMin (calc (result c))) = false)
        by (now destruct (clampMin (calc (result c)))).
      assert (Hn2 : is_nullish (clampMax (calc (result c))) = false)
        by (now destruct (clampMax (calc (result c)))).
      now rewrite Hn1, Hn2, Hmin, Heq.
    + intros Hmin Hmax Hne Heq.
      assert (Hn1 : is_nullish (clampMin (calc (result c))) = false)
        by (now destruct (clampMin (calc (result c)))).
      assert (Hn2 : is_nullish (clampMax (calc (result c))) = false)
        by (now destruct (clampMax (calc (result c)))).
      now rewrite Hn1, Hn2, Hmin, Hmax, Hne, Heq.
  - intros Number_of_string String_toLowerCase String_trim JSON_parse
      Number_of_object env p u c Hu0 Hu1 Henv Hc. cbn zeta.
    destruct (Hgen float Binary64Number Binary64Laws Number_of_string
                String_toLowerCase String_trim JSON_parse
                Number_of_object env p u c Henv Hc) as [_ Hj].
    assert (H53 : - 2 ^ 53 < 0 < 2 ^ 53 /\ - 2 ^ 53 < 10 < 2 ^ 53
                  /\ - 2 ^ 53 < - 10 < 2 ^ 53) by (repeat split; reflexivity).
    destruct H53 as (H0 & H10 & Hm10).
    assert (H51 : - 2 ^ 51 <= 0 <= 2 ^ 51 /\ - 2 ^ 51 <= 10 <= 2 ^ 51)
      by (repeat split; discriminate).
    destruct H51 as (H0' & H10').
    rewrite Hj. unfold chooseJitter. split; [|split].
    + intros Hnull. rewrite Hnull. cbn [orb]. exact (b64_randInt_ten u Hu0 Hu1).
    + intros Hmin Hmax Heq.
      assert (Hn1 : is_nullish (clampMin (calc (result c))) = false)
        by (now destruct (clampMin (calc (result c)))).
      assert (Hn2 : is_nullish (clampMax (calc (result c))) = false)
        by (now destruct (clampMax (calc (result c)))).
      rewrite Hn1, Hn2, Hmin, Heq. cbn [orb andb].
      destruct (integer64_randInt u (Binary64.of_Z 0) (Binary64.of_Z 10) 0 10 Hu0 Hu1
                  (integer64_of_Z 0 H0) (integer64_of_Z 10 H10) H0' H10')
        as (j & Hjj & Hr & _).
      exists j. split; [exact Hjj | apply Hr; discriminate].
    + intros Hmin Hmax Hne Heq.
      assert (Hn1 : is_nullish (clampMin (calc (result c))) = false)
        by (now destruct (clampMin (calc (result c)))).
      assert (Hn2 : is_nullish (clampMax (calc (result c))) = false)
        by (now destruct (clampMax (calc (result c)))).
      rewrite Hn1, Hn2, Hmin, Hmax, Hne, Heq. cbn [orb andb].
      destruct (integer64_randInt u (PrimFloat.opp (Binary64.of_Z (- 10)))
                  (Binary64.of_Z 0) 10 0 Hu0 Hu1
                  (integer64_neg _ _ (integer64_of_Z (- 10) Hm10))
                  (integer64_of_Z 0 H0) H10' H0')
        as (j & Hjj & _ & Hr).
      exists j. split; [exact Hjj | apply Hr; reflexivity].
  - eexists. split; [vm_compute; reflexivity|].
    repeat split; vm_compute; reflexivity.
Qed.

(** The sample metrics with the target and nothing else set, in binary64,
    for a draw of 0.5: the state is the interior one, and the result echoes
    the range [-10, 10]. *)
Lemma computeRgp_default_jitter_range_witness :
  exists c,
    computeRgp sample_Number ascii_toLowerCase ascii_trim sample_JSON_parse
      sample_Number_of_object env_target (Return metrics64) 0.5%float = Return c
    /\ in_jitterRange (inputs (result c)) = ((-10)%float, 10%float)
    /\ jitter (calc (result c))
       = chooseJitter 0.5%float (R_clamped (calc (result c)))
           (clampMin (calc (result c))) (clampMax (calc (result c)))
           (-10)%float 10%float.
Proof.
  eexists. split; [vm_compute; reflexivity|].
  match goal with
  | |- in_jitterRange (inputs (result ?c)) = _ /\ _ =>
      destruct (proj1 computeRgp_default_jitter_range float Binary64Number
                  Binary64Laws sample_Number ascii_toLowerCase ascii_trim
                  sample_JSON_parse sample_Number_of_object env_target metrics64
                  0.5%float c (or_introl eq_refl) eq_refl)
        as (Hin & Hj & _)
  end.
  split; [exact Hin | exact Hj].
Defined.

(** ** The proposal of computeRgp *)

(** X15.  What [computeRgp] proposes is NaN exactly when the sum of the
    clamped proposal and the jitter is; otherwise it is at least 1, at most
    RGP_MAX_MIST when that variable is set to an integer of [1, 2^53), and
    at least RGP_MIN_MIST when that variable is set to an integer below 2^53
    in magnitude and RGP_MAX_MIST is unset.  This in every model of Numbers
    that satisfies the laws, binary64 among them, and for any [Number]. *)
Theorem computeRgp_proposal_bounds :
  forall (num : Type) (N : JsNumber num) (L : JsNumberLaws num)
         (A : JsArithmeticLaws num)
         (Number_of_string : string -> num)
         (String_toLowerCase String_trim : string -> string)
         (JSON_parse : string -> outcome (json num))
         (Number_of_object : json num -> outcome num)
         (env : string -> option string)
         (p : MetricsForRgp num) (u : num) (c : RgpComputation num),
    computeRgp Number_of_string String_toLowerCase String_trim JSON_parse
      Number_of_object env (Return p) u = Return c ->
    let proposed := proposedRgpMist (result c) in
    isNaN proposed
    = isNaN (add (ToNumber (R_clamped (calc (result c)))) (jitter (calc (result c))))
    /\ (isNaN proposed = false ->
        leb (lit 1) proposed = true
        /\ (forall v mx,
               env "RGP_MAX_MIST" = Some v -> Number_of_string v = lit mx ->
               1 <= mx < 2 ^ 53 -> leb proposed (lit mx) = true)
        /\ (forall v mn,
               env "RGP_MIN_MIST" = Some v -> Number_of_string v = lit mn ->
               - 2 ^ 53 < mn < 2 ^ 53 -> env "RGP_MAX_MIST" = None ->
               leb (lit mn) proposed = true)).
Proof.
  intros num N L A Number_of_string String_toLowerCase String_trim JSON_parse
    Number_of_object env p u c Hc. cbn zeta.
  destruct (computeRgp_trace Number_of_string String_toLowerCase String_trim
              JSON_parse Number_of_object env p u c Hc)
    as (_ & _ & _ & _ & _ & Hp).
  rewrite Hp. split.
  - apply finalize_isNaN. apply optionsFromEnv_step.
  - intros Hn. destruct (finalize_bounds _ _ _ Hn) as (H1 & Hmx & Hmn).
    split; [exact H1|]. split.
    + intros v mx Hv Hnum Hb. apply Hmx; trivial.
      apply (optionsFromEnv_max _ _ _ _ _ _ v); trivial. lia.
    + intros v mn Hv Hnum Hb Hnone. apply Hmn; trivial.
      * now apply (optionsFromEnv_min _ _ _ _ _ _ v).
      * left. now rewrite optionsFromEnv_max_unset.
Qed.

(** The sample metrics with a target and RGP_MAX_MIST = 550, in binary64:
    the proposal, 600 without the bound, is 550. *)
Lemma computeRgp_proposal_bounds_witness :
  exists c,
    computeRgp sample_Number ascii_toLowerCase ascii_trim sample_JSON_parse
      sample_Number_of_object env_target_max (Return metrics64) 0.5%float = Return c
    /\ proposedRgpMist (result c) = 550%float
    /\ PrimFloat.leb 1%float (proposedRgpMist (result c)) = true
    /\ PrimFloat.leb (proposedRgpMist (result c)) 550%float = true.
Proof.
  eexists. split; [vm_compute; reflexivity|].
  match goal with
  | |- proposedRgpMist (result ?c) = _ /\ _ =>
      destruct (computeRgp_proposal_bounds float Binary64Number Binary64Laws
                  Binary64ArithmeticLaws sample_Number ascii_toLowerCase ascii_trim
                  sample_JSON_parse sample_Number_of_object env_target_max metrics64
                  0.5%float c eq_refl) as (_ & Hb);
      destruct (Hb eq_refl) as (H1 & Hmx & _)
  end.
  split; [reflexivity|]. split; [exact H1|].
  exact (Hmx "550" 550 eq_refl eq_refl ltac:(split; [discriminate | reflexivity])).
Defined.

(** ** runOnceMainnet *)

Section Runner.

Context {num : Type} `{JsNumber num}.

Variable String_toLowerCase : string -> string.
Variable String_trim : string -> string.
Variable env : string -> option string.

Lemma req_returns (name v : string) :
  req String_trim env name = Return v -> env name = Some v.
Proof.
  unfold req. destruct (env name) as [w|]; [|discriminate].
  destruct (String.eqb w "" || String.eqb (String_trim w) ""); [discriminate|].
  now intros [= ->].
Qed.

(** No gauge pushed is an update. *)
Lemma pushGauges_no_update (pushGauge : call num -> outcome unit)
    (proposed : num) (currentRgp : jsval num) :
  filter is_update (pushGauges pushGauge proposed currentRgp) = [].
Proof.
  unfold pushGauges. destruct (pushGauge _); reflexivity.
Qed.

Lemma pushGauges_first (pushGauge : call num -> outcome unit)
    (proposed : num) (currentRgp : jsval num) :
  exists rest,
    pushGauges pushGauge proposed currentRgp
    = PushGauge "sui_reference_gas_price_proposed_mist" (VNum proposed) :: rest.
Proof.
  unfold pushGauges. destruct (pushGauge _); eexists; reflexivity.
Qed.

(** The updates among the calls of a run, and its outcome, for a proposal
    that passes the check. *)
Lemma runOnceMainnet_accepted (c : RgpComputation num)
    (pushGauge : call num -> outcome unit) (updateGasPrice : call num -> option bool) :
  negb (isFinite (proposedRgpMist (result c)))
  || leb (proposedRgpMist (result c)) (lit 0) = false ->
  let run := runOnceMainnet String_toLowerCase String_trim env (Return c)
               pushGauge updateGasPrice in
  let proposed := proposedRgpMist (result c) in
  (exists rest,
      fst run = PushGauge "sui_reference_gas_price_proposed_mist" (VNum proposed) :: rest)
  /\ ((filter is_update (fst run) = []
       /\ (main_bool String_toLowerCase String_trim env "DRY_RUN" false = true
           \/ main_bool String_toLowerCase String_trim env "UPDATE_ONCHAIN" false = false
           \/ exists message, snd run = Throw message))
      \/ (exists rpc privateKey OpCapId gasBudget,
             let update :=
               UpdateGasPrice "mainnet" rpc privateKey OpCapId gasBudget proposed in
             filter is_update (fst run) = [update]
             /\ snd run = Return {| run_proposedRgpMist := proposed;
                                    dryRun := None;
                                    updatedOnChain := Some (truthy (updateGasPrice update)) |}
             /\ main_bool String_toLowerCase String_trim env "DRY_RUN" false = false
             /\ main_bool String_toLowerCase String_trim env "UPDATE_ONCHAIN" false = true
             /\ env "MAINNET_RPC_URL" = Some rpc
             /\ env "MAINNET_OPERATION_PRIVATE_KEY" = Some privateKey
             /\ env "MAINNET_OPERATION_CAP_ID" = Some OpCapId
             /\ env "MAINNET_GAS_BUDGET" = Some gasBudget)).
Proof.
  intros Hok. cbn zeta. unfold runOnceMainnet. rewrite Hok.
  set (proposed := proposedRgpMist (result c)).
  set (pushed := pushGauges pushGauge proposed (in_currentRgp (inputs (result c)))).
  pose proof (pushGauges_no_update pushGauge proposed
                (in_currentRgp (inputs (result c)))) as Hnone.
  destruct (pushGauges_first pushGauge proposed (in_currentRgp (inputs (result c))))
    as [rest Hfirst].
  fold pushed in Hnone, Hfirst.
  destruct (main_bool String_toLowerCase String_trim env "DRY_RUN" false) eqn:Edry.
  { cbn [fst snd]. split; [now exists rest|]. left. split; [exact Hnone | now left]. }
  destruct (main_bool String_toLowerCase String_trim env "UPDATE_ONCHAIN" false) eqn:Eup;
    cbn [negb].
  2:{ cbn [fst snd]. split; [now exists rest|]. left.
      split; [exact Hnone | right; now left]. }
  destruct (req String_trim env "MAINNET_RPC_URL") as [m|rpc] eqn:E1; cbn [bind].
  { cbn [fst snd]. split; [now exists rest|]. left. split; [exact Hnone|]. eauto. }
  destruct (req String_trim env "MAINNET_OPERATION_PRIVATE_KEY") as [m|pk] eqn:E2;
    cbn [bind].
  { cbn [fst snd]. split; [now exists rest|]. left. split; [exact Hnone|]. eauto. }
  destruct (req String_trim env "MAINNET_OPERATION_CAP_ID") as [m|cap] eqn:E3;
    cbn [bind].
  { cbn [fst snd]. split; [now exists rest|]. left. split; [exact Hnone|]. eauto. }
  destruct (req String_trim env "MAINNET_GAS_BUDGET") as [m|budget] eqn:E4;
    cbn [bind].
  { cbn [fst snd]. split; [now exists rest|]. left. split; [exact Hnone|]. eauto. }
  cbn [fst snd]. split.
  { rewrite Hfirst. eexists. reflexivity. }
  right. exists rpc, pk, cap, budget. cbn zeta.
  split.
  { rewrite filter_app, Hnone. reflexivity. }
  split; [reflexivity|].
  apply req_returns in E1, E2, E3, E4. repeat split; trivial.
Qed.

End Runner.

(** X16.  [runOnceMainnet] sets the gas price on chain only with the
    proposal of [computeRgp], a finite Number above zero, on mainnet, when
    DRY_RUN is not on, UPDATE_ONCHAIN is on and the four MAINNET variables are
    set, whose values it passes on; it does so once, and returns what
    [updateGasPrice] answered as a boolean. *)
Theorem runOnceMainnet_update_guarded :
  forall (num : Type) (N : JsNumber num)
         (String_toLowerCase String_trim : string -> string)
         (env : string -> option string) (computed : outcome (RgpComputation num))
         (pushGauge : call num -> outcome unit)
         (updateGasPrice : call num -> option bool)
         (network rpc privateKey OpCapId gasBudget : string) (gasPrice : num),
    In (UpdateGasPrice network rpc privateKey OpCapId gasBudget gasPrice)
       (fst (runOnceMainnet String_toLowerCase String_trim env computed
               pushGauge updateGasPrice)) ->
    (exists c, computed = Return c /\ gasPrice = proposedRgpMist (result c))
    /\ isFinite gasPrice = true /\ leb gasPrice (lit 0) = false
    /\ network = "mainnet"
    /\ main_bool String_toLowerCase String_trim env "DRY_RUN" false = false
    /\ main_bool String_toLowerCase String_trim env "UPDATE_ONCHAIN" false = true
    /\ env "MAINNET_RPC_URL" = Some rpc
    /\ env "MAINNET_OPERATION_PRIVATE_KEY" = Some privateKey
    /\ env "MAINNET_OPERATION_CAP_ID" = Some OpCapId
    /\ env "MAINNET_GAS_BUDGET" = Some gasBudget
    /\ filter is_update
         (fst (runOnceMainnet String_toLowerCase String_trim env computed
                 pushGauge updateGasPrice))
       = [UpdateGasPrice network rpc privateKey OpCapId gasBudget gasPrice]
    /\ snd (runOnceMainnet String_toLowerCase String_trim env computed
              pushGauge updateGasPrice)
       = Return {| run_proposedRgpMist := gasPrice;
                   dryRun := None;
                   updatedOnChain :=
                     Some (truthy (updateGasPrice
                                     (UpdateGasPrice network rpc privateKey OpCapId
                                        gasBudget gasPrice))) |}.
Proof.
  intros num N String_toLowerCase String_trim env computed pushGauge updateGasPrice
    network rpc privateKey OpCapId gasBudget gasPrice Hin.
  assert (Hf : In (UpdateGasPrice network rpc privateKey OpCapId gasBudget gasPrice)
                 (filter is_update
                    (fst (runOnceMainnet String_toLowerCase String_trim env computed
                            pushGauge updateGasPrice))))
    by (apply filter_In; split; [exact Hin | reflexivity]).
  destruct computed as [m|c]; [destruct Hin|].
  destruct (negb (isFinite (proposedRgpMist (result c)))
            || leb (proposedRgpMist (result c)) (lit 0)) eqn:Hok.
  { unfold runOnceMainnet in Hin. rewrite Hok in Hin. destruct Hin. }
  destruct (runOnceMainnet_accepted String_toLowerCase String_trim env c pushGauge
              updateGasPrice Hok) as [_ [[Hnone _] | Hup]].
  { rewrite Hnone in Hf. destruct Hf. }
  destruct Hup as (rpc' & pk' & cap' & gb' & Hup).
  cbn zeta in Hup. destruct Hup as (Hone & Hsnd & Hdry & Hon & H1 & H2 & H3 & H4).
  rewrite Hone in Hf. destruct Hf as [E|[]].
  injection E as <- <- <- <- <- <-.
  apply orb_false_iff in Hok. destruct Hok as [Hfin Hle].
  apply negb_false_iff in Hfin.
  split; [now exists c|]. repeat split; trivial.
Qed.

Lemma runOnceMainnet_update_guarded_witness :
  (exists c, computed64 = Return c /\ 605%float = proposedRgpMist (result c))
  /\ isFinite 605%float = true /\ leb 605%float (lit 0) = false
  /\ "mainnet" = "mainnet"
  /\ main_bool ascii_toLowerCase ascii_trim env_update "DRY_RUN" false = false
  /\ main_bool ascii_toLowerCase ascii_trim env_update "UPDATE_ONCHAIN" false = true
  /\ env_update "MAINNET_RPC_URL" = Some "https://fullnode.mainnet.sui.io"
  /\ env_update "MAINNET_OPERATION_PRIVATE_KEY" = Some "AQID"
  /\ env_update "MAINNET_OPERATION_CAP_ID" = Some "0x7"
  /\ env_update "MAINNET_GAS_BUDGET" = Some "10000000"
  /\ filter is_update
       (fst (runOnceMainnet ascii_toLowerCase ascii_trim env_update computed64
               push_fails update_succeeds))
     = [UpdateGasPrice "mainnet" "https://fullnode.mainnet.sui.io" "AQID" "0x7"
          "10000000" 605%float]
  /\ snd (runOnceMainnet ascii_toLowerCase ascii_trim env_update computed64
            push_fails update_succeeds)
     = Return {| run_proposedRgpMist := 605%float;
                 dryRun := None;
                 updatedOnChain :=
                   Some (truthy (update_succeeds
                                   (UpdateGasPrice "mainnet"
                                      "https://fullnode.mainnet.sui.io" "AQID" "0x7"
                                      "10000000" 605%float))) |}.
Proof.
  apply (runOnceMainnet_update_guarded float Binary64Number ascii_toLowerCase ascii_trim
           env_update computed64 push_fails update_succeeds
           "mainnet" "https://fullnode.mainnet.sui.io" "AQID" "0x7" "10000000"
           605%float).
  vm_compute. right. left. reflexivity.
Defined.

(** X17.  The Pushgateway does not decide what [runOnceMainnet] does on
    chain or returns: whether the pushes succeed or fail, the updates made
    and the outcome are the same. *)
Theorem runOnceMainnet_pushgateway_independent :
  forall (num : Type) (N : JsNumber num)
         (String_toLowerCase String_trim : string -> string)
         (env : string -> option string) (computed : outcome (RgpComputation num))
         (pushGauge pushGauge' : call num -> outcome unit)
         (updateGasPrice : call num -> option bool),
    filter is_update
      (fst (runOnceMainnet String_toLowerCase String_trim env computed
              pushGauge updateGasPrice))
    = filter is_update
        (fst (runOnceMainnet String_toLowerCase String_trim env computed
                pushGauge' updateGasPrice))
    /\ snd (runOnceMainnet String_toLowerCase String_trim env computed
              pushGauge updateGasPrice)
       = snd (runOnceMainnet String_toLowerCase String_trim env computed
                pushGauge' updateGasPrice).
Proof.
  intros num N String_toLowerCase String_trim env computed pushGauge pushGauge'
    updateGasPrice.
  unfold runOnceMainnet.
  destruct computed as [m|c]; [split; reflexivity|].
  destruct (negb (isFinite (proposedRgpMist (result c)))
            || leb (proposedRgpMist (result c)) (lit 0)); [split; reflexivity|].
  pose proof (pushGauges_no_update pushGauge (proposedRgpMist (result c))
                (in_currentRgp (inputs (result c)))) as H1.
  pose proof (pushGauges_no_update pushGauge' (proposedRgpMist (result c))
                (in_currentRgp (inputs (result c)))) as H2.
  destruct (main_bool String_toLowerCase String_trim env "DRY_RUN" false);
    [cbn [fst snd]; rewrite H1, H2; split; reflexivity|].
  destruct (main_bool String_toLowerCase String_trim env "UPDATE_ONCHAIN" false);
    cbn [negb]; [|cbn [fst snd]; rewrite H1, H2; split; reflexivity].
  destruct (req String_trim env "MAINNET_RPC_URL") as [m|rpc]; cbn [bind];
    [cbn [fst snd]; rewrite H1, H2; split; reflexivity|].
  destruct (req String_trim env "MAINNET_OPERATION_PRIVATE_KEY") as [m|pk]; cbn [bind];
    [cbn [fst snd]; rewrite H1, H2; split; reflexivity|].
  destruct (req String_trim env "MAINNET_OPERATION_CAP_ID") as [m|cap]; cbn [bind];
    [cbn [fst snd]; rewrite H1, H2; split; reflexivity|].
  destruct (req String_trim env "MAINNET_GAS_BUDGET") as [m|budget]; cbn [bind];
    [cbn [fst snd]; rewrite H1, H2; split; reflexivity|].
  cbn [fst snd]. rewrite !filter_app, H1, H2. split; reflexivity.
Qed.

(** X18.  Of the check of [runOnceMainnet] on the proposal, not finite or
    at most zero, only the first half can fire on what [computeRgp] returned:
    a proposal that is finite is at least 1.  So the run throws "Proposed RGP
    is invalid.", with no call made, exactly when the proposal is NaN or an
    infinity, and otherwise the gauge of the proposal is the first call.
    This in every model of Numbers that satisfies the laws, binary64 among
    them. *)
Theorem runOnceMainnet_check_on_computeRgp :
  forall (num : Type) (N : JsNumber num) (L : JsNumberLaws num)
         (A : JsArithmeticLaws num)
         (Number_of_string : string -> num)
         (String_toLowerCase String_trim : string -> string)
         (JSON_parse : string -> outcome (json num))
         (Number_of_object : json num -> outcome num)
         (env : string -> option string)
         (p : MetricsForRgp num) (u : num) (c : RgpComputation num)
         (pushGauge : call num -> outcome unit)
         (updateGasPrice : call num -> option bool),
    computeRgp Number_of_string String_toLowerCase String_trim JSON_parse
      Number_of_object env (Return p) u = Return c ->
    let proposed := proposedRgpMist (result c) in
    let run := runOnceMainnet String_toLowerCase String_trim env (Return c)
                 pushGauge updateGasPrice in
    (isFinite proposed = false -> run = ([], Throw "Proposed RGP is invalid."))
    /\ (isFinite proposed = true ->
        leb (lit 1) proposed = true
        /\ leb proposed (lit 0) = false
        /\ exists rest,
             fst run
             = PushGauge "sui_reference_gas_price_proposed_mist" (VNum proposed) :: rest).
Proof.
  intros num N L A Number_of_string String_toLowerCase String_trim JSON_parse
    Number_of_object env p u c pushGauge updateGasPrice Hc. cbn zeta.
  split.
  - intros Hf. unfold runOnceMainnet. now rewrite Hf.
  - intros Hf.
    destruct (computeRgp_trace Number_of_string String_toLowerCase String_trim
                JSON_parse Number_of_object env p u c Hc)
      as (_ & _ & _ & _ & _ & Hp).
    pose proof (isFinite_not_NaN _ Hf) as Hn.
    assert (H1 : leb (lit 1) (proposedRgpMist (result c)) = true).
    { rewrite Hp in Hn |- *. exact (proj1 (finalize_bounds _ _ _ Hn)). }
    assert (H0 : leb (proposedRgpMist (result c)) (lit 0) = false).
    { destruct (leb (proposedRgpMist (result c)) (lit 0)) eqn:E; trivial.
      pose proof (leb_trans _ _ _ H1 E) as H10.
      rewrite (ltb_leb_false (lit 0) (lit 1)) in H10; [discriminate|].
      apply lit_ltb; reflexivity. }
    split; [exact H1|]. split; [exact H0|].
    apply runOnceMainnet_accepted. now rewrite Hf, H0.
Qed.

(** The sample metrics with the target set, in binary64: the proposal is
    600, and its gauge is the first call. *)
Lemma runOnceMainnet_check_on_computeRgp_witness :
  exists c rest,
    computeRgp sample_Number ascii_toLowerCase ascii_trim sample_JSON_parse
      sample_Number_of_object env_target (Return metrics64) 0.5%float = Return c
    /\ PrimFloat.leb 1%float (proposedRgpMist (result c)) = true
    /\ fst (runOnceMainnet ascii_toLowerCase ascii_trim env_target (Return c)
              (fun _ => Return tt) (fun _ => None))
       = PushGauge "sui_reference_gas_price_proposed_mist"
           (VNum (proposedRgpMist (result c))) :: rest.
Proof.
  destruct (computeRgp sample_Number ascii_toLowerCase ascii_trim sample_JSON_parse
              sample_Number_of_object env_target (Return metrics64) 0.5%float)
    as [m|c] eqn:Hc; [vm_compute in Hc; discriminate Hc|].
  destruct (runOnceMainnet_check_on_computeRgp float Binary64Number Binary64Laws
              Binary64ArithmeticLaws sample_Number ascii_toLowerCase ascii_trim
              sample_JSON_parse sample_Number_of_object env_target metrics64
              0.5%float c (fun _ => Return tt) (fun _ => None) Hc) as [_ Hok].
  assert (Hf : isFinite (proposedRgpMist (result c)) = true).
  { vm_compute in Hc. injection Hc as <-. reflexivity. }
  destruct (Hok Hf) as (H1 & _ & rest & Hrest).
  exists c, rest. split; [reflexivity|]. split; [exact H1 | exact Hrest].
Defined.

(* ================================================================== *)
(** * src/suiPriceHistory.js *)

Section PriceMap.

Context {num : Type}.

Lemma price_get_set_same (map : list (string * num)) (key : string) (value : num) :
  price_get (price_set map key value) key = Some value.
Proof.
  induction map as [|[k v] map IH]; cbn [price_set price_get].
  - now rewrite String.eqb_refl.
  - destruct (String.eqb k key) eqn:E; cbn [price_get]; rewrite E; [reflexivity | exact IH].
Qed.

Lemma price_get_set_other (map : list (string * num)) (key key' : string) (value : num) :
  key <> key' ->
  price_get (price_set map key value) key' = price_get map key'.
Proof.
  intros Hne. induction map as [|[k v] map IH]; cbn [price_set price_get].
  - apply String.eqb_neq in Hne. now rewrite Hne.
  - destruct (String.eqb k key) eqn:E; cbn [price_get].
    + apply String.eqb_eq in E. subst k.
      apply String.eqb_neq in Hne. now rewrite Hne.
    + destruct (String.eqb k key'); [reflexivity | exact IH].
Qed.

(** Rows of other dates leave the price of a date as it is. *)
Lemma price_get_fold_other (rows : list (PriceRow num)) (map : list (string * num))
    (d : string) :
  (forall r, In r rows -> date r <> d) ->
  price_get (fold_left (fun map r => price_set map (date r) (priceUsd r)) rows map) d
  = price_get map d.
Proof.
  revert map. induction rows as [|r rows IH]; intros map Hall; [reflexivity|].
  cbn [fold_left]. rewrite IH by (intros r' Hr'; apply Hall; now right).
  apply price_get_set_other. apply Hall. now left.
Qed.

End PriceMap.

(** X19.  The price map of [getSuiDailyPriceMap] holds, for a date, the
    price of the last row of that date: a later row of a date replaces an
    earlier one.  A date of no row is not in the map. *)
Theorem getSuiDailyPriceMap_last_row :
  forall (num : Type) (rows : list (PriceRow num)) (d : string),
    ((forall r, In r rows -> date r <> d) ->
     price_get (getSuiDailyPriceMap rows) d = None)
    /\ (forall before r after,
           rows = (before ++ r :: after)%list -> date r = d ->
           (forall r', In r' after -> date r' <> d) ->
           price_get (getSuiDailyPriceMap rows) d = Some (priceUsd r)).
Proof.
  intros num rows d. unfold getSuiDailyPriceMap. split.
  - intros Hall. now rewrite price_get_fold_other.
  - intros before r after -> <- Hafter.
    rewrite fold_left_app. cbn [fold_left].
    rewrite price_get_fold_other by exact Hafter.
    apply price_get_set_same.
Qed.

Lemma getSuiDailyPriceMap_last_row_witness :
  price_get (getSuiDailyPriceMap prices_sample) "2025-03-02" = Some 2.625%float.
Proof.
  apply (proj2 (getSuiDailyPriceMap_last_row float prices_sample "2025-03-02")
           [{| date := "2025-03-01"; priceUsd := 2.75%float |};
            {| date := "2025-03-02"; priceUsd := 2.5%float |}]
           {| date := "2025-03-02"; priceUsd := 2.625%float |} []).
  - reflexivity.
  - reflexivity.
  - intros r' [].
Defined.

(* ================================================================== *)
(** * The gauges that runOnceMainnet pushes *)

Section Gauges.

Context {num : Type} `{JsNumberLaws num}.

Variable String_toLowerCase : string -> string.
Variable String_trim : string -> string.
Variable env : string -> option string.

(** A gauge among the calls of a run is one of the two of [pushGauges], and
    the proposal has passed the check. *)
Lemma runOnceMainnet_gauge (c : RgpComputation num)
    (pushGauge : call num -> outcome unit) (updateGasPrice : call num -> option bool)
    (name : string) (value : jsval num) :
  In (PushGauge name value)
     (fst (runOnceMainnet String_toLowerCase String_trim env (Return c)
             pushGauge updateGasPrice)) ->
  isFinite (proposedRgpMist (result c)) = true
  /\ In (PushGauge name value)
        (pushGauges pushGauge (proposedRgpMist (result c))
           (in_currentRgp (inputs (result c)))).
Proof.
  unfold runOnceMainnet.
  destruct (negb (isFinite (proposedRgpMist (result c)))
            || leb (proposedRgpMist (result c)) (lit 0)) eqn:Hok; [intros []|].
  apply orb_false_iff in Hok. destruct Hok as [Hfin _].
  apply negb_false_iff in Hfin.
  destruct (main_bool String_toLowerCase String_trim env "DRY_RUN" false);
    [cbn [fst]; now split|].
  destruct (main_bool String_toLowerCase String_trim env "UPDATE_ONCHAIN" false);
    cbn [negb]; [|cbn [fst]; now split].
  destruct (req String_trim env "MAINNET_RPC_URL"); cbn [bind]; [cbn [fst]; now split|].
  destruct (req String_trim env "MAINNET_OPERATION_PRIVATE_KEY"); cbn [bind];
    [cbn [fst]; now split|].
  destruct (req String_trim env "MAINNET_OPERATION_CAP_ID"); cbn [bind];
    [cbn [fst]; now split|].
  destruct (req String_trim env "MAINNET_GAS_BUDGET"); cbn [bind];
    [cbn [fst]; now split|].
  cbn [fst]. intros Hin. apply in_app_or in Hin.
  destruct Hin as [Hin|[E|[]]]; [now split | discriminate E].
Qed.

End Gauges.

(** X20.  Every gauge that [runOnceMainnet] pushes for a result of
    [computeRgp] carries a finite Number: the proposal, which has passed the
    check of the runner, and the current RGP, which has passed the validation
    of the calculator.  No NaN and no infinity reaches the Pushgateway. *)
Theorem runOnceMainnet_pushes_finite :
  forall (num : Type) (N : JsNumber num) (L : JsNumberLaws num)
         (Number_of_string : string -> num)
         (String_toLowerCase String_trim : string -> string)
         (JSON_parse : string -> outcome (json num))
         (Number_of_object : json num -> outcome num)
         (env : string -> option string) (p : MetricsForRgp num) (u : num)
         (pushGauge : call num -> outcome unit)
         (updateGasPrice : call num -> option bool)
         (name : string) (value : jsval num),
    In (PushGauge name value)
       (fst (runOnceMainnet String_toLowerCase String_trim env
               (computeRgp Number_of_string String_toLowerCase String_trim JSON_parse
                  Number_of_object env (Return p) u)
               pushGauge updateGasPrice)) ->
    Number_isFinite value = true.
Proof.
  intros num N L Number_of_string String_toLowerCase String_trim JSON_parse
    Number_of_object env p u pushGauge updateGasPrice name value.
  destruct (computeRgp Number_of_string String_toLowerCase String_trim JSON_parse
              Number_of_object env (Return p) u) as [m|c] eqn:Hc; [intros []|].
  intros Hin.
  destruct (runOnceMainnet_gauge String_toLowerCase String_trim env c pushGauge
              updateGasPrice name value Hin) as [Hfin Hpush].
  destruct (computeRgp_returns Number_of_string String_toLowerCase String_trim
              JSON_parse Number_of_object env p u c Hc) as (Hv & Hr & _).
  destruct (compute_valid _ _ _ _
              (optionsFromEnv Number_of_string String_toLowerCase String_trim
                 JSON_parse Number_of_object env) u Hv)
    as (r & Hr' & _ & _ & _ & _ & _ & _ & _ & _ & _ & _ & _ & Hcur).
  assert (r = result c) by congruence. subst r.
  assert (Hcurfin : Number_isFinite (in_currentRgp (inputs (result c))) = true).
  { rewrite Hcur. unfold valid_inputs in Hv. rewrite !andb_true_iff in Hv.
    destruct Hv as [_ Hpos]. unfold is_positive in Hpos.
    apply andb_true_iff in Hpos. tauto. }
  unfold pushGauges in Hpush.
  destruct (pushGauge _); cbn [In] in Hpush.
  - destruct Hpush as [[= <- <-]|[]]. exact Hfin.
  - destruct Hpush as [[= <- <-]|[[= <- <-]|[]]]; [exact Hfin | exact Hcurfin].
Qed.

Lemma runOnceMainnet_pushes_finite_witness :
  Number_isFinite (VNum 605%float) = true.
Proof.
  apply (runOnceMainnet_pushes_finite float Binary64Number Binary64Laws
           sample_Number ascii_toLowerCase ascii_trim sample_JSON_parse
           sample_Number_of_object env_update metrics64 0.5%float
           push_fails update_succeeds
           "sui_reference_gas_price_proposed_mist" (VNum 605%float)).
  vm_compute. left. reflexivity.
Defined.

(* ================================================================== *)
(** * computeRgp with the guard rails switched off *)

(** X22.  In binary64, when the guard rails are switched off and
    RGP_JITTER_RANGE, RGP_ROUND_STEP, RGP_MIN_MIST and RGP_MAX_MIST are
    unset, every call of [computeRgp] that returns proposes 10 MIST, whatever
    the metrics, the target and the draw of [Math.random()] in [0, 1).  The
    jitter of the range [-10, 10] without a band is 10; [clamp] returns the
    [null] bound for a raw proposal above zero, and the raw proposal itself
    when it has underflowed to zero; and the sum of either with the jitter
    is 10. *)
Theorem computeRgp_without_guard_rails :
  forall (Number_of_string : string -> float)
         (String_toLowerCase String_trim : string -> string)
         (JSON_parse : string -> outcome (json float))
         (Number_of_object : json float -> outcome float)
         (env : string -> option string)
         (p : MetricsForRgp float) (u : float) (c : RgpComputation float),
    PrimFloat.leb 0%float u = true -> PrimFloat.ltb u 1%float = true ->
    parseBoolEnv String_toLowerCase String_trim env "RGP_GUARD_RAILS_ENABLED" true
    = false ->
    env "RGP_JITTER_RANGE" = None \/ env "RGP_JITTER_RANGE" = Some "" ->
    env "RGP_ROUND_STEP" = None ->
    env "RGP_MIN_MIST" = None ->
    env "RGP_MAX_MIST" = None ->
    computeRgp Number_of_string String_toLowerCase String_trim JSON_parse
      Number_of_object env (Return p) u = Return c ->
    proposedRgpMist (result c) = 10%float
    /\ jitter (calc (result c)) = 10%float
    /\ (PrimFloat.ltb 0%float (R_raw (calc (result c))) = true ->
        R_clamped (calc (result c)) = VNull)
    /\ (PrimFloat.ltb 0%float (R_raw (calc (result c))) = false ->
        R_clamped (calc (result c)) = VNum (R_raw (calc (result c)))
        /\ PrimFloat.eqb (R_raw (calc (result c))) 0%float = true).
Proof.
  intros Number_of_string String_toLowerCase String_trim JSON_parse Number_of_object
    env p u c Hu0 Hu1 Hoff Hjit Hstep Hmin Hmax Hc.
  destruct (computeRgp_trace Number_of_string String_toLowerCase String_trim
              JSON_parse Number_of_object env p u c Hc)
    as (Hg & Hraw & Hcl & _ & Hj & Hp).
  set (options := optionsFromEnv Number_of_string String_toLowerCase String_trim
                    JSON_parse Number_of_object env) in *.
  (* the options *)
  assert (Hge : guardRailsEnabled options = false) by exact Hoff.
  assert (Hjb : jitterBase options = (lit (-10), lit 10)).
  { unfold jitterBase. subst options.
    now rewrite (optionsFromEnv_jitter_unset Number_of_string String_toLowerCase
                   String_trim JSON_parse Number_of_object env Hjit). }
  pose proof (optionsFromEnv_step_unset Number_of_string String_toLowerCase
                String_trim JSON_parse Number_of_object env Hstep) as Hrs.
  pose proof (optionsFromEnv_min_unset Number_of_string String_toLowerCase
                String_trim JSON_parse Number_of_object env Hmin) as Hmn.
  pose proof (optionsFromEnv_max_unset Number_of_string String_toLowerCase
                String_trim JSON_parse Number_of_object env Hmax) as Hmx.
  fold options in Hrs, Hmn, Hmx.
  (* the bounds are null and the jitter is 10 *)
  unfold guardRails in Hg. rewrite Hge in Hg. injection Hg as Hcmin Hcmax.
  rewrite <- Hcmin, <- Hcmax, Hjb in Hj. unfold chooseJitter in Hj.
  cbn [is_nullish orb fst snd] in Hj.
  rewrite (b64_randInt_ten u Hu0 Hu1) in Hj.
  (* the proposal is [finalize] of the clamped proposal and 10 *)
  assert (Hfin : forall Rc : jsval float,
             Rc = VNull \/ Rc = VNum PrimFloat.zero \/ Rc = VNum PrimFloat.neg_zero ->
             finalize Rc (Binary64.of_Z 10) options = 10%float).
  { intros Rc HRc. unfold finalize. rewrite Hrs, Hmn, Hmx.
    destruct HRc as [-> | [-> | ->]]; vm_compute; reflexivity. }
  rewrite <- Hcmin, <- Hcmax in Hcl. unfold clamp, js_lt, js_gt in Hcl.
  cbn [not_undefined andb ToNumber] in Hcl.
  change (@ltb float Binary64Number) with PrimFloat.ltb in Hcl.
  change (@lit float Binary64Number 0) with 0%float in Hcl.
  assert (Hneg : PrimFloat.ltb (R_raw (calc (result c))) 0%float = false).
  { exact (@leb_ltb_false float Binary64Number Binary64Laws _ _ Hraw). }
  change (@leb float Binary64Number (lit 0)) with (PrimFloat.leb 0%float) in Hraw.
  rewrite Hneg in Hcl.
  destruct (PrimFloat.ltb 0%float (R_raw (calc (result c)))) eqn:Epos.
  - split; [rewrite Hp, Hj, Hcl; apply Hfin; now left|].
    split; [exact Hj|]. split; [intros _; exact Hcl | discriminate].
  - destruct (b64_zero _ Hraw Epos) as [s Hs].
    assert (Hz : R_raw (calc (result c)) = PrimFloat.zero
                 \/ R_raw (calc (result c)) = PrimFloat.neg_zero).
    { destruct s; [right; apply Prim2SF_inj; now rewrite Hs, Prim2SF_neg_zero
                  | left; apply Prim2SF_inj; now rewrite Hs, Prim2SF_pos_zero]. }
    split.
    { rewrite Hp, Hj, Hcl. apply Hfin. right.
      destruct Hz as [-> | ->]; auto. }
    split; [exact Hj|]. split; [discriminate|]. intros _.
    split; [exact Hcl|]. destruct Hz as [-> | ->]; reflexivity.
Qed.

(** The sample metrics with the target set and the guard rails off, in
    binary64: the raw proposal is 600 and the proposal is 10. *)
Lemma computeRgp_without_guard_rails_witness :
  exists c,
    computeRgp sample_Number ascii_toLowerCase ascii_trim sample_JSON_parse
      sample_Number_of_object env_rails_off (Return metrics64) 0.5%float = Return c
    /\ R_raw (calc (result c)) = 600%float
    /\ R_clamped (calc (result c)) = VNull
    /\ proposedRgpMist (result c) = 10%float.
Proof.
  eexists. split; [vm_compute; reflexivity|].
  match goal with
  | |- R_raw (calc (result ?c)) = _ /\ _ =>
      destruct (computeRgp_without_guard_rails sample_Number ascii_toLowerCase
                  ascii_trim sample_JSON_parse sample_Number_of_object env_rails_off
                  metrics64 0.5%float c eq_refl eq_refl eq_refl
                  (or_introl eq_refl) eq_refl eq_refl eq_refl eq_refl)
        as (Hp & _ & Hnull & _)
  end.
  split; [reflexivity|]. split; [exact (Hnull eq_refl) | exact Hp].
Defined.

(* ================================================================== *)
(** * clamp *)

Section ClampTwice.

Context {num : Type} `{JsNumberLaws num}.

Lemma ltb_irrefl (x : num) : ltb x x = false.
Proof.
  destruct (ltb x x) eqn:E; [|reflexivity].
  pose proof (ltb_leb _ _ E) as H1. pose proof (ltb_leb_false _ _ E) as H2.
  congruence.
Qed.

End ClampTwice.

(** X23.  [clamp] returns its argument or one of the two bounds.  For two
    bounds that are Numbers in order, [lo <= hi], clamping twice is clamping
    once, and a value that [clamp] returns is not changed by it. *)
Theorem clamp_idempotent :
  forall (num : Type) (N : JsNumber num) (L : JsNumberLaws num) (x lo hi : num),
    leb lo hi = true ->
    (clamp (VNum x) (VNum lo) (VNum hi) = VNum x
     \/ clamp (VNum x) (VNum lo) (VNum hi) = VNum lo
     \/ clamp (VNum x) (VNum lo) (VNum hi) = VNum hi)
    /\ clamp (clamp (VNum x) (VNum lo) (VNum hi)) (VNum lo) (VNum hi)
       = clamp (VNum x) (VNum lo) (VNum hi).
Proof.
  intros num N L x lo hi Hle.
  pose proof (leb_ltb_false _ _ Hle) as Hhl.
  unfold clamp, js_lt, js_gt. cbn [not_undefined andb ToNumber].
  destruct (ltb x lo) eqn:E1.
  - split; [right; now left|].
    cbn [ToNumber]. now rewrite ltb_irrefl, Hhl.
  - destruct (ltb hi x) eqn:E2.
    + split; [right; now right|].
      cbn [ToNumber]. now rewrite Hhl, ltb_irrefl.
    + split; [now left|].
      cbn [ToNumber]. now rewrite E1, E2.
Qed.

Lemma clamp_idempotent_witness :
  (clamp (VNum 812.5%float) (VNum 300%float) (VNum 700%float) = VNum 812.5%float
   \/ clamp (VNum 812.5%float) (VNum 300%float) (VNum 700%float) = VNum 300%float
   \/ clamp (VNum 812.5%float) (VNum 300%float) (VNum 700%float) = VNum 700%float)
  /\ clamp (clamp (VNum 812.5%float) (VNum 300%float) (VNum 700%float))
       (VNum 300%float) (VNum 700%float)
     = clamp (VNum 812.5%float) (VNum 300%float) (VNum 700%float).
Proof.
  apply (clamp_idempotent float Binary64Number Binary64Laws 812.5%float 300%float
           700%float).
  reflexivity.
Defined.

(* ================================================================== *)
(** * From the response and the prices to the proposal *)

Section WithoutPrices.

Context {num : Type} `{JsNumberLaws num}.

Variable BigInt_of_string : string -> option Z.
Variable Number_of_string : string -> num.
Variable Date_toISOString : string -> outcome string.

Lemma attachPrice_unpriced (priceMap : list (string * num)) (rows : list (DatedMetric num)) :
  (forall r, In r rows -> no_price priceMap r) ->
  attachPrice Number_of_string rows priceMap = Return (List.map unpriced rows).
Proof.
  induction rows as [|r rows IH]; intros Hall; [reflexivity|].
  cbn [attachPrice List.map]. unfold attachPrice_row.
  destruct (Hall r (or_introl eq_refl)) as [-> ->]. cbn [bind].
  rewrite IH by (intros r' Hr'; apply Hall; now right). reflexivity.
Qed.

Lemma averageNumbers_no_finite (nums : list num) :
  (forall x, In x nums -> isFinite x = false) -> averageNumbers nums = NaN.
Proof.
  intros Hnone. unfold averageNumbers.
  assert (E : filter isFinite nums = []).
  { induction nums as [|x xs IH]; [reflexivity|]. cbn [filter].
    rewrite (Hnone x (or_introl eq_refl)).
    apply IH. intros y Hy. apply Hnone. now right. }
  rewrite E. reflexivity.
Qed.

Lemma cost_of_unpriced (rows : list (DatedMetric num)) :
  avgComputationCostPerTx_USD_of Number_of_string (List.map unpriced rows) = Return NaN.
Proof.
  unfold avgComputationCostPerTx_USD_of.
  assert (E : map_compPerTx_USD Number_of_string (List.map unpriced rows)
              = Return (List.map (fun _ => NaN) rows)).
  { induction rows as [|r rows IH]; [reflexivity|].
    cbn [List.map map_compPerTx_USD]. unfold compPerTx_USD at 1.
    cbn [unpriced price_usd bind]. rewrite IH. reflexivity. }
  rewrite E. cbn [bind].
  rewrite averageNumbers_no_finite.
  - now rewrite isFinite_NaN.
  - intros x Hx. apply in_map_iff in Hx. destruct Hx as (r & <- & _).
    apply isFinite_NaN.
Qed.

(** A metric that is extracted has the dates of its node. *)
Lemma map_extractEpoch_dated_in (nodes : list (ResponseNode num))
    (es : list (option (DatedMetric num))) (r : DatedMetric num) :
  map_extractEpoch_dated BigInt_of_string Date_toISOString nodes = Return es ->
  In r (filter_Boolean es) ->
  exists n, In n nodes
            /\ startDate r = isoDateOnly Date_toISOString (startTimestamp n)
            /\ endDate r = isoDateOnly Date_toISOString (endTimestamp n).
Proof.
  revert es. induction nodes as [|n nodes IH]; intros es; cbn [map_extractEpoch_dated].
  - intros [= <-] [].
  - unfold extractEpoch_dated at 1.
    destruct (extractEpoch BigInt_of_string (node n)) as [e|m]; [discriminate|].
    cbn [bind].
    destruct (map_extractEpoch_dated BigInt_of_string Date_toISOString nodes)
      as [e|es'] eqn:Es; [discriminate|].
    cbn [bind]. intros [= <-].
    destruct m as [m|]; cbn [option_map filter_Boolean].
    + intros [<-|Hin].
      * exists n. cbn. auto.
      * destruct (IH es' eq_refl Hin) as (n' & Hn' & Hd). exists n'. split; [now right | exact Hd].
    + intros Hin.
      destruct (IH es' eq_refl Hin) as (n' & Hn' & Hd). exists n'. split; [now right | exact Hd].
Qed.

(** Without a price for any epoch, the metrics carry no computation cost. *)
Lemma collectMetrics_forRgp_unpriced (prices : list (PriceRow num))
    (nodes : list (ResponseNode num)) (p : MetricsForRgp num) :
  (forall n, In n nodes ->
     price_on (getSuiDailyPriceMap prices)
       (isoDateOnly Date_toISOString (endTimestamp n)) = None
     /\ price_on (getSuiDailyPriceMap prices)
          (isoDateOnly Date_toISOString (startTimestamp n)) = None) ->
  collectMetrics_forRgp BigInt_of_string Number_of_string Date_toISOString prices
    (Return (Some nodes)) = Return p ->
  avgComputationCostPerTx_USD p = VNum NaN.
Proof.
  intros Hnone. unfold collectMetrics_forRgp. cbn [bind].
  destruct (map_extractEpoch_dated BigInt_of_string Date_toISOString nodes)
    as [e|es] eqn:Es; [discriminate|].
  cbn [bind].
  destruct (Z.of_nat (List.length (filter_Boolean es)) =? 0); [discriminate|].
  rewrite attachPrice_unpriced.
  2:{ intros r Hr.
      destruct (map_extractEpoch_dated_in nodes es r Es Hr) as (n & Hn & Hs & He).
      unfold no_price. rewrite Hs, He. now apply Hnone. }
  cbn [bind].
  destruct (summarize _) as [e|s]; [discriminate|]. cbn [bind].
  rewrite cost_of_unpriced. cbn [bind].
  destruct (overall s); [|discriminate].
  now intros [= <-].
Qed.

End WithoutPrices.

(** X24.  Without a price for the end date or the start date of any epoch
    of the response, which is so whenever the price service returns no row,
    [computeRgp] proposes nothing: the computation cost in USD of the metrics
    is NaN, and the call throws. *)
Theorem computeRgp_needs_a_price :
  forall (num : Type) (N : JsNumber num) (L : JsNumberLaws num)
         (BigInt_of_string : string -> option Z)
         (Number_of_string : string -> num)
         (Date_toISOString : string -> outcome string)
         (String_toLowerCase String_trim : string -> string)
         (JSON_parse : string -> outcome (json num))
         (Number_of_object : json num -> outcome num)
         (env : string -> option string)
         (prices : list (PriceRow num)) (nodes : list (ResponseNode num)) (u : num),
    (forall n, In n nodes ->
       price_on (getSuiDailyPriceMap prices)
         (isoDateOnly Date_toISOString (endTimestamp n)) = None
       /\ price_on (getSuiDailyPriceMap prices)
            (isoDateOnly Date_toISOString (startTimestamp n)) = None) ->
    exists message,
      computeRgp Number_of_string String_toLowerCase String_trim JSON_parse
        Number_of_object env
        (collectMetrics_forRgp BigInt_of_string Number_of_string Date_toISOString
           prices (Return (Some nodes))) u
      = Throw message.
Proof.
  intros num N L BigInt_of_string Number_of_string Date_toISOString
    String_toLowerCase String_trim JSON_parse Number_of_object env prices nodes u Hnone.
  destruct (collectMetrics_forRgp BigInt_of_string Number_of_string Date_toISOString
              prices (Return (Some nodes))) as [m|p] eqn:Hp.
  - exists m. reflexivity.
  - pose proof (collectMetrics_forRgp_unpriced BigInt_of_string Number_of_string
                  Date_toISOString prices nodes p Hnone Hp) as Hcost.
    destruct (computeRgp Number_of_string String_toLowerCase String_trim JSON_parse
                Number_of_object env (Return p) u) as [m|c] eqn:Hc; [now exists m|].
    destruct (computeRgp_returns Number_of_string String_toLowerCase String_trim
                JSON_parse Number_of_object env p u c Hc) as (Hv & _).
    unfold valid_inputs in Hv. rewrite !andb_true_iff in Hv.
    destruct Hv as [[_ Hcc] _]. rewrite Hcost in Hcc.
    unfold is_positive in Hcc. cbn in Hcc. rewrite isFinite_NaN in Hcc.
    discriminate Hcc.
Qed.

Lemma computeRgp_needs_a_price_witness :
  exists message,
    computeRgp sample_Number ascii_toLowerCase ascii_trim sample_JSON_parse
      sample_Number_of_object env_update
      (collectMetrics_forRgp decimal_BigInt sample_Number sample_Date
         [] (Return (Some [response_typical]))) 0.5%float
    = Throw message.
Proof.
  apply (computeRgp_needs_a_price float Binary64Number Binary64Laws decimal_BigInt
           sample_Number sample_Date ascii_toLowerCase ascii_trim sample_JSON_parse
           sample_Number_of_object env_update [] [response_typical] 0.5%float).
  intros n _. split; destruct (isoDateOnly sample_Date _); reflexivity.
Defined.

(* ================================================================== *)
(** * The costs of a row in USD *)

(** X26.  In every model of the Numbers and for every [Number()]:
    [mistToSuiNumber] returns [Number()] of the decimal string with nine
    decimals that denotes the amount divided by 10^9, and [attachPrice]
    prices a row with the price of its end date, or of its start date when
    the end date has none: the two averages in USD are the products, as the
    model of the Numbers rounds them, of [Number()] of those strings and that
    price.  A row with no price for either date gets no price and no
    average in USD. *)
Theorem attachPrice_row_usd :
  forall (num : Type) (N : JsNumber num) (Number_of_string : string -> num)
         (priceMap : list (string * num)) (r : DatedMetric num),
    (forall mist : Z,
        exists s, reads_as s 9 mist
                  /\ mistToSuiNumber Number_of_string mist
                     = Return (Number_of_string s))
    /\ (no_price priceMap r ->
        attachPrice_row Number_of_string priceMap r = Return (unpriced r))
    /\ (forall price : num,
           price_on priceMap (endDate r) = Some price
           \/ (price_on priceMap (endDate r) = None
               /\ price_on priceMap (startDate r) = Some price) ->
           exists x st sc,
             attachPrice_row Number_of_string priceMap r = Return x
             /\ dated x = r /\ price_usd x = Some price
             /\ reads_as st 9 (avgTotalPerTx (metric r))
             /\ avgTotalPerTx_USD x = Some (mul (Number_of_string st) price)
             /\ reads_as sc 9 (avgCompPerTx (metric r))
             /\ avgCompPerTx_USD x = Some (mul (Number_of_string sc) price)).
Proof.
  intros num N Number_of_string priceMap r.
  assert (Hm : forall mist : Z,
             exists s, reads_as s 9 mist
                       /\ mistToSuiNumber Number_of_string mist
                          = Return (Number_of_string s)).
  { intros mist. unfold mistToSuiNumber.
    destruct (mistToSuiString_9 mist) as (s & Hs & Hr).
    unfold mistToSuiString in Hs. rewrite Hs. cbn [bind].
    exists s. split; [exact Hr | reflexivity]. }
  split; [exact Hm|]. split.
  - intros [He Hs]. unfold attachPrice_row. now rewrite He, Hs.
  - intros price Hprice. unfold attachPrice_row.
    assert (Hp : match price_on priceMap (endDate r) with
                 | Some p => Some p
                 | None => price_on priceMap (startDate r)
                 end = Some price).
    { destruct Hprice as [-> | [-> ->]]; reflexivity. }
    rewrite Hp.
    destruct (Hm (avgTotalPerTx (metric r))) as (st & Hst & ->).
    destruct (Hm (avgCompPerTx (metric r))) as (sc & Hsc & ->).
    cbn [bind]. eexists. exists st, sc.
    split; [reflexivity|]. cbn [dated price_usd avgTotalPerTx_USD avgCompPerTx_USD].
    repeat split; assumption.
Qed.

(** The typical epoch at 2.5 USD, in binary64: the product of 0.0003 and
    2.5 is rounded. *)
Lemma attachPrice_row_usd_witness :
  (exists x st sc,
      attachPrice_row sample_Number [("2025-03-02", 2.5%float)] dated_sample
      = Return x
      /\ dated x = dated_sample /\ price_usd x = Some 2.5%float
      /\ reads_as st 9 (avgTotalPerTx (metric dated_sample))
      /\ avgTotalPerTx_USD x = Some (mul (sample_Number st) 2.5%float)
      /\ reads_as sc 9 (avgCompPerTx (metric dated_sample))
      /\ avgCompPerTx_USD x = Some (mul (sample_Number sc) 2.5%float))
  /\ option_map (fun x => PrimFloat.eqb x 0.00075%float)
       (match attachPrice_row sample_Number [("2025-03-02", 2.5%float)] dated_sample with
        | Return x => avgTotalPerTx_USD x
        | Throw _ => None
        end) = Some false.
Proof.
  split.
  - exact (proj2 (proj2 (attachPrice_row_usd float Binary64Number sample_Number
                           [("2025-03-02", 2.5%float)] dated_sample))
             2.5%float (or_introl eq_refl)).
  - vm_compute. reflexivity.
Defined.

(* ================================================================== *)
(** * A price request that fails *)

Section PriceRequest.

Context {num : Type} `{JsNumber num}.

Variable Date_of_number_toISOString : num -> outcome string.

Lemma price_rows_throws (prices : list (num * num)) (ts price : num) (m : string) :
  In (ts, price) prices -> Date_of_number_toISOString ts = Throw m ->
  exists m', price_rows Date_of_number_toISOString prices = Throw m'.
Proof.
  intros Hin Hts. induction prices as [|[ts' price'] prices IH]; [destruct Hin|].
  cbn [price_rows]. destruct Hin as [[= -> ->]|Hin].
  - rewrite Hts. eexists. reflexivity.
  - destruct (Date_of_number_toISOString ts'); cbn [bind]; [eexists; reflexivity|].
    destruct (IH Hin) as [m' ->]. eexists. reflexivity.
Qed.

(** The request threw, resolved to nothing, reported a failure, carried no
    prices, or carried a timestamp that is not a date. *)
Lemma getTokenPriceHistory_failed (resp : outcome (option (MarketChart num))) :
  (exists m, resp = Throw m)
  \/ resp = Return None
  \/ (exists r, resp = Return (Some r)
                /\ (success r = Some false
                    \/ data_prices r = None
                    \/ exists prices ts price m,
                         data_prices r = Some prices /\ In (ts, price) prices
                         /\ Date_of_number_toISOString ts = Throw m)) ->
  getTokenPriceHistory Date_of_number_toISOString resp = [].
Proof.
  unfold getTokenPriceHistory.
  intros [[m ->] | [-> | (r & -> & Hr)]]; [reflexivity | reflexivity |].
  cbn [bind]. destruct Hr as [-> | [Hp | (prices & ts & price & m & Hp & Hin & Hts)]].
  - reflexivity.
  - rewrite Hp. now destruct (success r) as [[]|].
  - rewrite Hp.
    destruct (price_rows_throws prices ts price m Hin Hts) as [m' Hm'].
    destruct prices as [|pt prices]; [destruct Hin|]. rewrite Hm'.
    now destruct (success r) as [[]|].
Qed.

End PriceRequest.

(** X27.  [getTokenPriceHistory] never throws: it returns no row when the
    request throws, resolves to nothing, reports a failure, carries no prices
    or carries a timestamp that is not a date, one such timestamp discarding
    every row.  [computeRgp] then proposes nothing: it throws, whatever the
    response of the epochs. *)
Theorem price_request_failure_stops_computeRgp :
  forall (num : Type) (N : JsNumber num) (L : JsNumberLaws num)
         (BigInt_of_string : string -> option Z)
         (Number_of_string : string -> num)
         (Date_toISOString : string -> outcome string)
         (Date_of_number_toISOString : num -> outcome string)
         (String_toLowerCase String_trim : string -> string)
         (JSON_parse : string -> outcome (json num))
         (Number_of_object : json num -> outcome num)
         (env : string -> option string)
         (resp : outcome (option (MarketChart num)))
         (nodes : list (ResponseNode num)) (u : num),
    (exists m, resp = Throw m)
    \/ resp = Return None
    \/ (exists r, resp = Return (Some r)
                  /\ (success r = Some false
                      \/ data_prices r = None
                      \/ exists prices ts price m,
                           data_prices r = Some prices /\ In (ts, price) prices
                           /\ Date_of_number_toISOString ts = Throw m)) ->
    getTokenPriceHistory Date_of_number_toISOString resp = []
    /\ exists message,
         computeRgp Number_of_string String_toLowerCase String_trim JSON_parse
           Number_of_object env
           (collectMetrics_forRgp BigInt_of_string Number_of_string Date_toISOString
              (getTokenPriceHistory Date_of_number_toISOString resp)
              (Return (Some nodes))) u
         = Throw message.
Proof.
  intros num N L BigInt_of_string Number_of_string Date_toISOString
    Date_of_number_toISOString String_toLowerCase String_trim JSON_parse
    Number_of_object env resp nodes u Hfail.
  pose proof (getTokenPriceHistory_failed Date_of_number_toISOString resp Hfail) as Hrows.
  split; [exact Hrows|]. rewrite Hrows.
  destruct (collectMetrics_forRgp BigInt_of_string Number_of_string Date_toISOString
              [] (Return (Some nodes))) as [m|p] eqn:Hp.
  - exists m. reflexivity.
  - assert (Hcost : avgComputationCostPerTx_USD p = VNum NaN).
    { apply (collectMetrics_forRgp_unpriced BigInt_of_string Number_of_string
               Date_toISOString [] nodes p); [|exact Hp].
      intros n _. split.
      - now destruct (isoDateOnly Date_toISOString (endTimestamp n)).
      - now destruct (isoDateOnly Date_toISOString (startTimestamp n)). }
    destruct (computeRgp Number_of_string String_toLowerCase String_trim JSON_parse
                Number_of_object env (Return p) u) as [m|c] eqn:Hc; [now exists m|].
    destruct (computeRgp_returns Number_of_string String_toLowerCase String_trim
                JSON_parse Number_of_object env p u c Hc) as (Hv & _).
    unfold valid_inputs in Hv. rewrite !andb_true_iff in Hv.
    destruct Hv as [[_ Hcc] _]. rewrite Hcost in Hcc.
    unfold is_positive in Hcc. cbn in Hcc. rewrite isFinite_NaN in Hcc.
    discriminate Hcc.
Qed.

Lemma price_request_failure_stops_computeRgp_witness :
  getTokenPriceHistory (fun ts : float => Return "2025-03-02T00:00:00.000Z")
    (Throw "timeout of 30000ms exceeded") = []
  /\ exists message,
       computeRgp sample_Number ascii_toLowerCase ascii_trim sample_JSON_parse
         sample_Number_of_object env_update
         (collectMetrics_forRgp decimal_BigInt sample_Number sample_Date
            (getTokenPriceHistory (fun ts : float => Return "2025-03-02T00:00:00.000Z")
               (Throw "timeout of 30000ms exceeded"))
            (Return (Some [response_typical]))) 0.5%float
       = Throw message.
Proof.
  apply (price_request_failure_stops_computeRgp float Binary64Number Binary64Laws
           decimal_BigInt sample_Number sample_Date
           (fun ts : float => Return "2025-03-02T00:00:00.000Z")
           ascii_toLowerCase ascii_trim sample_JSON_parse sample_Number_of_object
           env_update (Throw "timeout of 30000ms exceeded") [response_typical] 0.5%float).
  left. eexists. reflexivity.
Defined.
